(** * Preview Buddy: a shallow embedding of [PreviewBuddy.py]

    The add-on is a set of callbacks and operators that read and write
    the host's scene.  The embedding keeps that shape:

    - Python text is the [string] of the bytes of its UTF-8 form (a
      file name is the bytes of the name); the regular expressions
      read it character by character, [\d] is a decimal digit of the
      interpreter's Unicode database and [.] any character but the
      line feed;
    - the values that travel through [json] (camera ranges, the
      settings backup) are the inductive type [json]; a Python [dict]
      is an association list that keeps insertion order;
    - [os.path] is the POSIX flavour, the file system a list of
      entries;
    - the scene, [bpy.data], the module globals and the effects on the
      outside world form the record [State]; every function of the
      add-on is a computation in the monad [M] of state and
      exceptions;
    - what only the host decides ([json]'s text format, whether the
      viewport render succeeds, [glob]) is a field of the record
      [Host], over which the development is parameterised; the tables
      of the host and of the interpreter (the items of an enum
      attribute, the bounds of an integer attribute, the decimal
      digits of Unicode) are part of [Data].

    A write to a host attribute goes through the host's checks: a
    value of the wrong type or outside an enum raises, an integer is
    clamped to the bounds of the attribute, and [frame_start] and
    [frame_end] keep [frame_start <= frame_end].  A float property
    holds a 32-bit float.  [debug_log] prints and nothing else, so it
    is left out ([DEBUG_MODE] is [False] as the module sets it). *)

From Stdlib Require Import String Ascii List ZArith Lia Bool Arith.
From Stdlib Require Import QArith Qminmax Qround Qabs DecimalString.
Import ListNotations.

Local Open Scope string_scope.
Local Open Scope list_scope.

(* ================================================================== *)
(** * Python strings *)
(* ================================================================== *)

Module Str.

Definition LF : ascii := ascii_of_nat 10.
Definition quote : ascii := ascii_of_nat 34.

(** The digits of a JSON number. *)
Definition is_digit (c : ascii) : bool :=
  let n := nat_of_ascii c in (48 <=? n)%nat && (n <=? 57)%nat.

Definition digit_val (c : ascii) : nat := nat_of_ascii c - 48.

Fixpoint all_chars (p : ascii -> bool) (s : string) : bool :=
  match s with
  | EmptyString => true
  | String c s' => p c && all_chars p s'
  end.

Definition no_newline (s : string) : bool :=
  all_chars (fun c => negb (Ascii.eqb c LF)) s.

Definition nonempty (s : string) : bool :=
  match s with EmptyString => false | _ => true end.

(** [s.startswith(p)] and the rest of [s] after [p]. *)
Fixpoint strip_prefix (p s : string) : option string :=
  match p with
  | EmptyString => Some s
  | String a p' =>
      match s with
      | String b s' => if Ascii.eqb a b then strip_prefix p' s' else None
      | EmptyString => None
      end
  end.

Definition startswith (s p : string) : bool :=
  match strip_prefix p s with Some _ => true | None => false end.

(** [s.find(sub)]: the text before and after the first occurrence. *)
Fixpoint partition (sub s : string) : option (string * string) :=
  match strip_prefix sub s with
  | Some rest => Some (EmptyString, rest)
  | None =>
      match s with
      | EmptyString => None
      | String c s' =>
          match partition sub s' with
          | Some (l, r) => Some (String c l, r)
          | None => None
          end
      end
  end.

(** [sub in s] *)
Definition contains (sub s : string) : bool :=
  match partition sub s with Some _ => true | None => false end.

(** [s.split(sub)[0]] *)
Definition split_head (sub s : string) : string :=
  match partition sub s with Some (l, _) => l | None => s end.

Fixpoint take (n : nat) (s : string) : string :=
  match n, s with
  | S n', String c s' => String c (take n' s')
  | _, _ => EmptyString
  end.

Fixpoint drop (n : nat) (s : string) : string :=
  match n, s with
  | S n', String _ s' => drop n' s'
  | _, _ => s
  end.

(** [s.rfind(c)]: the index of the last [c], if any. *)
Fixpoint rfind (c : ascii) (s : string) : option nat :=
  match s with
  | EmptyString => None
  | String a s' =>
      match rfind c s' with
      | Some i => Some (S i)
      | None => if Ascii.eqb a c then Some 0%nat else None
      end
  end.

(** [s.rstrip(c)] *)
Fixpoint rstrip (c : ascii) (s : string) : string :=
  match s with
  | EmptyString => EmptyString
  | String a s' =>
      match rstrip c s' with
      | EmptyString => if Ascii.eqb a c then EmptyString else String a EmptyString
      | r => String a r
      end
  end.

Definition endswith_char (c : ascii) (s : string) : bool :=
  match rfind c s with
  | Some i => Nat.eqb (S i) (String.length s)
  | None => false
  end.

(** ["_".join(parts)] *)
Fixpoint join (sep : string) (parts : list string) : string :=
  match parts with
  | [] => EmptyString
  | [p] => p
  | p :: ps => p ++ sep ++ join sep ps
  end.

(** The decimal digits of [|z|]. *)
Definition abs_digits (z : Z) : string :=
  NilZero.string_of_uint (N.to_uint (Z.abs_N z)).

(** [str(z)] *)
Definition of_Z (z : Z) : string :=
  if (z <? 0)%Z then String "-" (abs_digits z) else abs_digits z.

Fixpoint zeros (n : nat) : string :=
  match n with O => EmptyString | S n' => String "0" (zeros n') end.

(** [f"{z:03d}"]: the sign counts in the width, zeros go after it. *)
Definition format_03d (z : Z) : string :=
  let d := abs_digits z in
  if (z <? 0)%Z
  then String "-" (zeros (2 - String.length d) ++ d)
  else zeros (3 - String.length d) ++ d.

End Str.

(* ================================================================== *)
(** * Characters *)
(* ================================================================== *)

Module Utf8.

(** What Python makes of the bytes of a text: a character, or a byte
    that is part of no character (kept as a lone surrogate). *)
Inductive unit_ : Type :=
| Char (cp : N)
| Stray (b : ascii).

Definition byte (c : ascii) : N := N_of_ascii c.

Definition continuation (c : ascii) : bool :=
  (128 <=? byte c)%N && (byte c <? 192)%N.

(** The first character of [s] and the text after it.  A byte that
    does not open a well-formed sequence stands alone. *)
Definition decode (s : string) : option (unit_ * string) :=
  match s with
  | EmptyString => None
  | String b0 s1 =>
      let stray := Some (Stray b0, s1) in
      let n0 := byte b0 in
      if (n0 <? 128)%N then Some (Char n0, s1)
      else if (194 <=? n0)%N && (n0 <? 224)%N then
        match s1 with
        | String b1 s2 =>
            if continuation b1
            then Some (Char ((n0 - 192) * 64 + (byte b1 - 128))%N, s2)
            else stray
        | _ => stray
        end
      else if (224 <=? n0)%N && (n0 <? 240)%N then
        match s1 with
        | String b1 (String b2 s3) =>
            if continuation b1 && continuation b2
               && (negb (n0 =? 224)%N || (160 <=? byte b1)%N)
               && (negb (n0 =? 237)%N || (byte b1 <? 160)%N)
            then Some (Char ((n0 - 224) * 4096 + (byte b1 - 128) * 64
                             + (byte b2 - 128))%N, s3)
            else stray
        | _ => stray
        end
      else if (240 <=? n0)%N && (n0 <? 245)%N then
        match s1 with
        | String b1 (String b2 (String b3 s4)) =>
            if continuation b1 && continuation b2 && continuation b3
               && (negb (n0 =? 240)%N || (144 <=? byte b1)%N)
               && (negb (n0 =? 244)%N || (byte b1 <? 144)%N)
            then Some (Char ((n0 - 240) * 262144 + (byte b1 - 128) * 4096
                             + (byte b2 - 128) * 64 + (byte b3 - 128))%N, s4)
            else stray
        | _ => stray
        end
      else stray
  end.

End Utf8.

Module Unicode.

(** The decimal digits above U+007F and their values: the part of
    [unicodedata.decimal] that depends on the interpreter. *)
Definition table : Type := N -> option nat.

(** [unicodedata.decimal(chr(cp), None)]: below U+0080 the decimal
    digits are [0] to [9]. *)
Definition decimal (t : table) (cp : N) : option nat :=
  if (cp <? 128)%N then
    if (48 <=? cp)%N && (cp <=? 57)%N then Some (N.to_nat (cp - 48))
    else None
  else t cp.

(** The values of the characters of [s], when all are decimal digits. *)
Fixpoint decimals_fuel (t : table) (fuel : nat) (s : string)
  : option (list nat) :=
  match s with
  | EmptyString => Some []
  | _ =>
      match fuel with
      | O => None
      | S fuel' =>
          match Utf8.decode s with
          | Some (Utf8.Char cp, rest) =>
              match decimal t cp, decimals_fuel t fuel' rest with
              | Some v, Some vs => Some (v :: vs)
              | _, _ => None
              end
          | _ => None
          end
      end
  end.

Definition decimals (t : table) (s : string) : option (list nat) :=
  decimals_fuel t (String.length s) s.

(** [int(s)] for a run of decimal digits [s], the only texts that the
    add-on converts (file names are shorter than the 4300 digits at
    which [int] gives up). *)
Definition int_of_digits (t : table) (s : string) : nat :=
  match decimals t s with
  | Some vs => fold_left (fun acc v => (10 * acc + v)%nat) vs 0%nat
  | None => 0%nat
  end.

End Unicode.

(* ================================================================== *)
(** * Binary floats *)
(* ================================================================== *)

(** A float is the rational number it denotes.  The values met here
    are far from the largest float, so rounding never overflows. *)
Module Float.

(** [floor(log2 q)] for [q > 0]. *)
Definition ilog2 (q : Q) : Z :=
  let e := (Z.log2 (Qnum q) - Z.log2 (Zpos (Qden q)))%Z in
  if Qle_bool (2 ^ e)%Q q then e else (e - 1)%Z.

(** The nearest integer, the even one of two that are equally near. *)
Definition round_half_even (q : Q) : Z :=
  let f := Qfloor q in
  match (q - inject_Z f ?= 1 # 2)%Q with
  | Lt => f
  | Gt => (f + 1)%Z
  | Eq => if Z.even f then f else (f + 1)%Z
  end.

(** The nearest multiple of [2 ^ (e - prec + 1)], where [e] is the
    exponent of [q > 0], at least [emin]. *)
Definition round_positive (prec emin : Z) (q : Q) : Q :=
  let e := Z.max (ilog2 q) emin in
  let quantum := (2 ^ (e - prec + 1))%Q in
  (inject_Z (round_half_even (q / quantum)) * quantum)%Q.

(** The float with [prec] bits of precision and least normal exponent
    [emin] that is nearest to [q], ties to even. *)
Definition round (prec emin : Z) (q : Q) : Q :=
  match Qnum q with
  | Z0 => 0%Q
  | Zpos _ => round_positive prec emin q
  | Zneg _ => (- round_positive prec emin (- q))%Q
  end.

(** A Python [float]. *)
Definition binary64 : Q -> Q := round 53 (-1022).

(** A C [float]. *)
Definition binary32 : Q -> Q := round 24 (-126).

End Float.

(* ================================================================== *)
(** * The part of [re] that the add-on uses *)
(* ================================================================== *)

Module Re.

Inductive cclass : Type :=
| Dot                       (* .      *)
| Digit                     (* \d     *)
| OneOf (cs : list ascii).  (* [...]  *)

Inductive regex : Type :=
| Lit (s : string)          (* re.escape(s)          *)
| Plus (c : cclass)         (* c+   greedy           *)
| LazyPlus (c : cclass)     (* c+?  shortest first   *)
| Opt (c : cclass)          (* c?   greedy           *)
| Group (r : regex)         (* ( r )                 *)
| Eol.                      (* $                     *)

(** A successful match: the captured groups in order, and the text
    that follows the match. *)
Definition outcome : Type := (list string * string)%type.
Definition cont : Type := string -> option outcome.

(** [$] holds at the end and before a final line feed. *)
Definition at_eol (s : string) : bool :=
  match s with
  | EmptyString => true
  | String c EmptyString => Ascii.eqb c Str.LF
  | _ => false
  end.

Definition consumed (s rest : string) : string :=
  Str.take (String.length s - String.length rest) s.

Section Engine.

Variable table : Unicode.table.

Definition in_class (c : cclass) (u : Utf8.unit_) : bool :=
  match c, u with
  | Dot, Utf8.Char cp => negb (cp =? 10)%N
  | Dot, Utf8.Stray _ => true
  | Digit, Utf8.Char cp =>
      match Unicode.decimal table cp with Some _ => true | None => false end
  | OneOf cs, Utf8.Char cp => existsb (fun a => (Utf8.byte a =? cp)%N) cs
  | _, Utf8.Stray _ => false
  end.

(** One character of the class at the start of [s]: the text after it. *)
Definition step (c : cclass) (s : string) : option string :=
  match Utf8.decode s with
  | Some (u, rest) => if in_class c u then Some rest else None
  | None => None
  end.

(** Zero or more of [c], longest first, giving characters back one at
    a time when the rest of the pattern fails.  [fuel] bounds the
    number of characters. *)
Fixpoint greedy_fuel (fuel : nat) (c : cclass) (k : cont) (s : string)
  : option outcome :=
  match fuel with
  | O => k s
  | S fuel' =>
      match step c s with
      | Some rest =>
          match greedy_fuel fuel' c k rest with
          | Some r => Some r
          | None => k s
          end
      | None => k s
      end
  end.

Definition greedy (c : cclass) (k : cont) (s : string) : option outcome :=
  greedy_fuel (String.length s) c k s.

(** Zero or more of [c], shortest first. *)
Fixpoint lazy_fuel (fuel : nat) (c : cclass) (k : cont) (s : string)
  : option outcome :=
  match k s with
  | Some r => Some r
  | None =>
      match fuel with
      | O => None
      | S fuel' =>
          match step c s with
          | Some rest => lazy_fuel fuel' c k rest
          | None => None
          end
      end
  end.

Definition lazy (c : cclass) (k : cont) (s : string) : option outcome :=
  lazy_fuel (String.length s) c k s.

Fixpoint match_one (r : regex) (k : cont) (s : string) : option outcome :=
  match r with
  | Lit l =>
      match Str.strip_prefix l s with
      | Some rest => k rest
      | None => None
      end
  | Plus c =>
      match step c s with
      | Some rest => greedy c k rest
      | None => None
      end
  | LazyPlus c =>
      match step c s with
      | Some rest => lazy c k rest
      | None => None
      end
  | Opt c =>
      match step c s with
      | Some rest => match k rest with Some r => Some r | None => k s end
      | None => k s
      end
  | Group r' =>
      match_one r'
        (fun rest =>
           match k rest with
           | Some (caps, final) => Some (consumed s rest :: caps, final)
           | None => None
           end) s
  | Eol => if at_eol s then k s else None
  end.

Fixpoint match_seq (p : list regex) : cont :=
  match p with
  | [] => fun s => Some ([], s)
  | r :: p' => match_one r (match_seq p')
  end.

(** [re.match(p, s)]: the groups of a match at the start of [s]. *)
Definition re_match (p : list regex) (s : string) : option (list string) :=
  option_map fst (match_seq p s).

(** [re.search(p, s)]: text before the first match, and its outcome. *)
Fixpoint search_fuel (fuel : nat) (p : list regex) (s : string)
  : option (string * outcome) :=
  match match_seq p s with
  | Some r => Some (EmptyString, r)
  | None =>
      match fuel with
      | O => None
      | S fuel' =>
          match Utf8.decode s with
          | Some (_, rest) =>
              match search_fuel fuel' p rest with
              | Some (pre, r) => Some ((consumed s rest ++ pre)%string, r)
              | None => None
              end
          | None => None
          end
      end
  end.

Definition re_search (p : list regex) (s : string)
  : option (string * outcome) :=
  search_fuel (String.length s) p s.

(** [re.sub(p, '', s)] for a pattern that matches no empty text. *)
Fixpoint sub_fuel (fuel : nat) (p : list regex) (s : string) : string :=
  match fuel with
  | O => s
  | S fuel' =>
      match match_seq p s with
      | Some (_, rest) =>
          if (String.length rest <? String.length s)%nat
          then sub_fuel fuel' p rest
          else s
      | None =>
          match Utf8.decode s with
          | Some (_, rest) => (consumed s rest ++ sub_fuel fuel' p rest)%string
          | None => EmptyString
          end
      end
  end.

Definition re_sub_delete (p : list regex) (s : string) : string :=
  sub_fuel (S (String.length s)) p s.

End Engine.

End Re.

(* ================================================================== *)
(** * [os.path] (POSIX) *)
(* ================================================================== *)

Module Path.

Definition sep : ascii := "/"%char.

(** The text up to and including the last separator, and what follows. *)
Definition split_at_sep (p : string) : string * string :=
  match Str.rfind sep p with
  | Some i => (Str.take (S i) p, Str.drop (S i) p)
  | None => (EmptyString, p)
  end.

Definition basename (p : string) : string := snd (split_at_sep p).

Definition dirname (p : string) : string :=
  let head := fst (split_at_sep p) in
  match Str.rstrip sep head with
  | EmptyString => head          (* empty, or separators only *)
  | stripped => stripped
  end.

Definition join (a b : string) : string :=
  if Str.startswith b "/" then b
  else if negb (Str.nonempty a) || Str.endswith_char sep a then a ++ b
  else a ++ "/" ++ b.

(** [genericpath._splitext]: the last dot of the last component opens
    the extension, unless only dots precede it there. *)
Definition splitext (p : string) : string * string :=
  let name_start :=
    match Str.rfind sep p with Some i => S i | None => 0%nat end in
  match Str.rfind "."%char p with
  | Some dot =>
      if (name_start <=? dot)%nat
         && negb (Str.all_chars (Ascii.eqb "."%char)
                    (Str.take (dot - name_start) (Str.drop name_start p)))
      then (Str.take dot p, Str.drop dot p)
      else (p, EmptyString)
  | None => (p, EmptyString)
  end.

End Path.


(* ================================================================== *)
(** * The file system *)
(* ================================================================== *)

Module FS.

Inductive kind : Type := File | Dir.

(** Every existing entry, by its full path. *)
Definition t : Type := list (string * kind).

Fixpoint lookup (fs : t) (p : string) : option kind :=
  match fs with
  | [] => None
  | (q, k) :: fs' => if String.eqb q p then Some k else lookup fs' p
  end.

(** [os.path.exists(p)] *)
Definition exists_ (fs : t) (p : string) : bool :=
  match lookup fs p with Some _ => true | None => false end.

Definition is_child_of (d : string) (e : string * kind) : bool :=
  String.eqb (Path.dirname (fst e)) d && negb (String.eqb (fst e) d).

(** [os.listdir(d)]; [None] when it raises (no such directory). *)
Definition listdir (fs : t) (d : string) : option (list string) :=
  match lookup fs d with
  | Some Dir => Some (map (fun e => Path.basename (fst e))
                          (filter (is_child_of d) fs))
  | _ => None
  end.

Definition add (p : string) (k : kind) (fs : t) : t :=
  if exists_ fs p then fs else fs ++ [(p, k)].

(** [os.makedirs(d, exist_ok=True)]: [d] and the ancestors it lacks. *)
Fixpoint makedirs_fuel (fuel : nat) (d : string) (fs : t) : t :=
  match fuel with
  | O => fs
  | S fuel' =>
      if exists_ fs d || negb (Str.nonempty d) then fs
      else
        let parent := Path.dirname d in
        let fs' := if String.eqb parent d then fs
                   else makedirs_fuel fuel' parent fs in
        add d Dir fs'
  end.

Definition makedirs (d : string) (fs : t) : t :=
  makedirs_fuel (S (String.length d)) d fs.

(** [os.remove(p)] *)
Definition remove (p : string) (fs : t) : t :=
  filter (fun e => negb (String.eqb (fst e) p)) fs.

End FS.

(* ================================================================== *)
(** * Incremental version numbers *)
(* ================================================================== *)

(** [r'(.+?)_v\d+' + re.escape(extension) + r'$'] *)
Definition base_pattern (extension : string) : list Re.regex :=
  [Re.Group (Re.LazyPlus Re.Dot); Re.Lit "_v"; Re.Plus Re.Digit;
   Re.Lit extension; Re.Eol].

(** [rf"{re.escape(basename)}_v(\d+)" + re.escape(extension) + r"$"] *)
Definition version_pattern (basename extension : string) : list Re.regex :=
  [Re.Lit basename; Re.Lit "_v"; Re.Group (Re.Plus Re.Digit);
   Re.Lit extension; Re.Eol].

(** The loop over [existing_files] that fills [versions]. *)
Fixpoint collect_versions (u : Unicode.table) (pat : list Re.regex)
  (existing_files : list string) : list nat :=
  match existing_files with
  | [] => []
  | f :: rest =>
      match Re.re_match u pat f with
      | Some (g1 :: _) =>
          Unicode.int_of_digits u g1 :: collect_versions u pat rest
      | _ => collect_versions u pat rest
      end
  end.

Definition get_next_version_number (u : Unicode.table) (fs : FS.t)
  (filepath extension : string) : nat :=
  let directory := Path.dirname filepath in
  let filename := Path.basename filepath in
  match Re.re_match u (base_pattern extension) filename with
  | Some (basename :: _) =>
      let pat := version_pattern basename extension in
      if FS.exists_ fs directory then
        match FS.listdir fs directory with
        | Some existing_files =>
            match collect_versions u pat existing_files with
            | [] => 1%nat
            | versions => (list_max versions + 1)%nat
            end
        | None => 1%nat                   (* except Exception *)
        end
      else 1%nat
  | _ => 1%nat
  end.

(** Some decimal digits above U+007F: the Arabic-Indic, the
    Devanagari and the fullwidth ones. *)
Definition demo_digits : Unicode.table :=
  fun cp =>
    if (1632 <=? cp)%N && (cp <=? 1641)%N then Some (N.to_nat (cp - 1632))
    else if (2406 <=? cp)%N && (cp <=? 2415)%N
    then Some (N.to_nat (cp - 2406))
    else if (65296 <=? cp)%N && (cp <=? 65305)%N
    then Some (N.to_nat (cp - 65296))
    else None.

(** The digit nine of the Arabic-Indic digits (U+0669), and a file
    with version nine in these digits. *)
Definition arabic_nine : string := String "217"%char (String "169"%char "").
Definition arabic_nine_name : string :=
  ("shot_v" ++ arabic_nine ++ ".mov")%string.

Definition demo_fs : FS.t :=
  [("/out", FS.Dir); ("/out/shot_v001.mov", FS.File);
   ("/out/shot_v007.mov", FS.File); ("/out/shot_v003.mp4", FS.File);
   ("/out/other_v042.mov", FS.File); ("/out/shot_v1_v002.mov", FS.File);
   (("/out/" ++ arabic_nine_name)%string, FS.File)].

(** A directory whose one file has a name that ends in a line feed. *)
Definition line_feed_fs : FS.t :=
  [("/out", FS.Dir);
   (("/out/shot_v007.mov" ++ String Str.LF "")%string, FS.File)].

(* ================================================================== *)
(** * Python values and dictionaries *)
(* ================================================================== *)

(** The values [json] reads and writes.  A float keeps its text. *)
#[local] Set Warnings "-register-all".
Inductive json : Type :=
| JNull
| JBool (b : bool)
| JInt (z : Z)
| JFloat (repr : string)
| JStr (s : string)
| JList (items : list json)
| JDict (entries : list (string * json)).
#[local] Set Warnings "register-all".

(** A [dict] with [str] keys, in insertion order. *)
Module Dict.
Section WithValue.
Context {V : Type}.

Definition t : Type := list (string * V).

Fixpoint get (k : string) (d : t) : option V :=
  match d with
  | [] => None
  | (k', v) :: d' => if String.eqb k' k then Some v else get k d'
  end.

(** [k in d] *)
Definition mem (k : string) (d : t) : bool :=
  match get k d with Some _ => true | None => false end.

(** [d[k] = v]: an existing key keeps its place. *)
Fixpoint set (k : string) (v : V) (d : t) : t :=
  match d with
  | [] => [(k, v)]
  | (k', v') :: d' =>
      if String.eqb k' k then (k', v) :: d' else (k', v') :: set k v d'
  end.

(** [del d[k]] *)
Fixpoint del (k : string) (d : t) : t :=
  match d with
  | [] => []
  | (k', v') :: d' =>
      if String.eqb k' k then del k d' else (k', v') :: del k d'
  end.

End WithValue.
Arguments t : clear implicits.
End Dict.

(* ================================================================== *)
(** * The host's scene *)
(* ================================================================== *)

(** The attributes of [scene], [scene.render],
    [scene.render.image_settings] and [scene.render.ffmpeg] that the
    add-on touches. *)
Module Attr.

Inductive t : Type :=
(* scene *)
| frame_start | frame_end | frame_current | camera
(* scene.render *)
| fps | resolution_percentage | filepath
| use_stamp | use_stamp_frame | use_stamp_frame_range | use_stamp_camera
| use_stamp_lens | use_stamp_scene | stamp_font_size
| use_stamp_date | use_stamp_time | use_stamp_render_time | use_stamp_memory
| use_stamp_hostname | use_stamp_marker | use_stamp_filename
| use_sequencer | use_simplify
(* scene.render.image_settings *)
| file_format | color_mode | color_depth | compression | quality
(* scene.render.ffmpeg *)
| ffmpeg_format | ffmpeg_codec | ffmpeg_audio_codec
| ffmpeg_constant_rate_factor | ffmpeg_ffmpeg_preset | ffmpeg_gopsize
| ffmpeg_use_autosplit | ffmpeg_audio_channels | ffmpeg_audio_bitrate
| ffmpeg_audio_mixrate.

Definition eq_dec (a b : t) : {a = b} + {a <> b}.
Proof. decide equality. Defined.

Definition eqb (a b : t) : bool := if eq_dec a b then true else false.

Inductive kind : Type := KInt | KBool | KStr | KEnum | KObject.

Definition kind_of (a : t) : kind :=
  match a with
  | frame_start | frame_end | frame_current | fps | resolution_percentage
  | stamp_font_size | compression | quality | ffmpeg_gopsize
  | ffmpeg_audio_bitrate | ffmpeg_audio_mixrate => KInt
  | use_stamp | use_stamp_frame | use_stamp_frame_range | use_stamp_camera
  | use_stamp_lens | use_stamp_scene | use_stamp_date | use_stamp_time
  | use_stamp_render_time | use_stamp_memory | use_stamp_hostname
  | use_stamp_marker | use_stamp_filename | use_sequencer | use_simplify
  | ffmpeg_use_autosplit => KBool
  | filepath => KStr
  | file_format | color_mode | color_depth | ffmpeg_format
  | ffmpeg_codec | ffmpeg_audio_codec | ffmpeg_constant_rate_factor
  | ffmpeg_ffmpeg_preset | ffmpeg_audio_channels => KEnum
  | camera => KObject
  end.

End Attr.

(** The value of every attribute; [None] for one that this host
    version does not have ([hasattr] is false). *)
Definition Rna : Type := Attr.t -> option json.

Definition rna_set (a : Attr.t) (v : json) (r : Rna) : Rna :=
  fun b => if Attr.eqb b a then Some v else r b.

Inductive save_mode : Type := INCREMENTAL | OVERWRITE.
Inductive output_format : Type := MP4_H264 | MOV_H264 | PNG_SEQ | JPEG_SEQ.
Inductive video_quality : Type := HIGH | MEDIUM | LOW.
Inductive frame_range_mode : Type := TIMELINE | CUSTOM.
Inductive status : Type := PENDING | PROCESSING | COMPLETED | FAILED.
Inductive report_type : Type := INFO | WARNING | ERROR.
(** What an operator returns. *)
Inductive op_result : Type := FINISHED | CANCELLED.

(** [QuickPreviewQueueItem] *)
Module Item.
Record t : Type := mk {
  camera_name : string;
  frame_start : Z;
  frame_end : Z;
  output_path : string;
  enabled : bool;
  status_ : status
}.
Definition set_status (st : status) (i : t) : t :=
  mk (camera_name i) (frame_start i) (frame_end i) (output_path i)
     (enabled i) st.
End Item.
Definition QuickPreviewQueueItem : Type := Item.t.

(** The scene properties that [register] declares and only the user
    changes. *)
Record Options : Type := mkOptions {
  quickpreview_use_simplify : bool;
  quickpreview_burn_metadata : bool;
  quickpreview_metadata_fontsize : Z;
  quickpreview_frame_range : frame_range_mode;
  quickpreview_include_camera : bool;
  quickpreview_include_scene_name : bool;
  quickpreview_full_scene_name : bool;
  quickpreview_save_mode : save_mode;
  quickpreview_override_fps : bool;
  quickpreview_fps : Z;
  quickpreview_override_resolution_scale : bool;
  quickpreview_resolution_scale : Z;
  quickpreview_open_after_render : bool;
  quickpreview_open_output_folder : bool;
  quickpreview_output_format : output_format;
  quickpreview_video_quality : video_quality;
  quickpreview_image_quality : Z
}.

(** What the add-on reads from [bpy.data], [bpy.app], [tempfile] and
    [time], and the tables of the host and of the interpreter. *)
Record Data : Type := mkData {
  is_saved : bool;                      (* bpy.data.is_saved *)
  blend_filepath : string;              (* bpy.data.filepath *)
  objects : list (string * string);     (* name and type of each object *)
  sequence_editor : option (list (string * bool));
    (* type of each strip of the sequencer, and whether it has [sound] *)
  tempdir : string;                     (* bpy.app.tempdir *)
  system_tempdir : string;              (* tempfile.gettempdir() *)
  clock : Z;                            (* int(time.time()) *)
  timers_available : bool;              (* hasattr(bpy.app, 'timers') *)
  enum_items : Rna -> Attr.t -> list string;
    (* the identifiers an enum attribute takes while the attributes
       are as given *)
  int_range : Attr.t -> Z * Z;
    (* the bounds the host keeps an integer attribute in *)
  unicode_decimal : Unicode.table       (* the decimal digits above U+007F *)
}.

(** ** Writing a host attribute *)

(** A C [int]. *)
Definition int32 (z : Z) : bool :=
  (-2147483648 <=? z)%Z && (z <=? 2147483647)%Z.

(** [CLAMP(z, lo, hi)] *)
Definition clamp (range : Z * Z) (z : Z) : Z :=
  if (z <? fst range)%Z then fst range
  else if (snd range <? z)%Z then snd range
  else z.

(** What the host makes of the Python value [v] assigned to the
    attribute [a] while the attributes are [r]; [None] when it
    refuses.  An integer must fit a C [int] and is clamped to the
    bounds of the attribute; a Python [bool] is an [int], and a
    boolean attribute takes [0] and [1]; an enum attribute takes the
    identifiers of its items. *)
Definition accept (d : Data) (r : Rna) (a : Attr.t) (v : json)
  : option json :=
  match Attr.kind_of a, v with
  | Attr.KInt, JInt z =>
      if int32 z then Some (JInt (clamp (int_range d a) z)) else None
  | Attr.KInt, JBool b => Some (JInt (clamp (int_range d a) (Z.b2z b)))
  | Attr.KBool, JBool b => Some (JBool b)
  | Attr.KBool, JInt z =>
      if (z =? 0)%Z then Some (JBool false)
      else if (z =? 1)%Z then Some (JBool true)
      else None
  | Attr.KStr, JStr s => Some (JStr s)
  | Attr.KEnum, JStr s =>
      if existsb (String.eqb s) (enum_items d r a) then Some (JStr s)
      else None
  | Attr.KObject, JStr s => Some (JStr s)
  | Attr.KObject, JNull => Some JNull
  | _, _ => None
  end.

(** The exception of a refused assignment: an integer that does not
    fit is a [ValueError]. *)
Definition refusal (a : Attr.t) (v : json) : string :=
  match Attr.kind_of a, v with
  | Attr.KInt, JInt _ => "ValueError"
  | _, _ => "TypeError"
  end.

(** The attributes after the host has stored [v] in [a].  The
    setters of [frame_start] and [frame_end] keep
    [frame_start <= frame_end]: a start above the end raises the end,
    an end below the start lowers the start. *)
Definition host_store (a : Attr.t) (v : json) (r : Rna) : Rna :=
  let r' := rna_set a v r in
  match a, v with
  | Attr.frame_start, JInt z =>
      match r Attr.frame_end with
      | Some (JInt e) =>
          if (e <? z)%Z then rna_set Attr.frame_end (JInt z) r' else r'
      | _ => r'
      end
  | Attr.frame_end, JInt z =>
      match r Attr.frame_start with
      | Some (JInt b) =>
          if (z <? b)%Z then rna_set Attr.frame_start (JInt z) r' else r'
      | _ => r'
      end
  | _, _ => r'
  end.
Record State : Type := mkState {
  data : Data;  (* bpy.data, bpy.app and the clock: read only for the add-on *)
  options : Options;  (* the user's choices, which the add-on only reads *)
  rna : Rna;  (* the host's scene and render attributes *)
  view_perspective : option string;  (* region_3d.view_perspective of the first 3D view, if there is one *)
  quickpreview_progress : Q;
  quickpreview_is_rendering : bool;
  quickpreview_output_path : string;
  quickpreview_camera_ranges : string;
  quickpreview_camera : string;
  quickpreview_frame_start : Z;
  quickpreview_frame_end : Z;
  quickpreview_queue : list QuickPreviewQueueItem;
  updating : bool;  (* the module global [updating] *)
  fs : FS.t;  (* the file system *)
  timer_registered : bool;  (* [update_render_progress] is a registered timer *)
  reports : list (report_type * string);  (* [self.report] calls, oldest first *)
  rendered : list Rna;  (* the attributes at each [bpy.ops.render.opengl] call, oldest first *)
  opened : list string  (* paths handed to the system viewer, oldest first *)
}.

Definition set_data (v : Data) (s : State) : State :=
  {| data := v; options := options s; rna := rna s;
     view_perspective := view_perspective s;
     quickpreview_progress := quickpreview_progress s;
     quickpreview_is_rendering := quickpreview_is_rendering s;
     quickpreview_output_path := quickpreview_output_path s;
     quickpreview_camera_ranges := quickpreview_camera_ranges s;
     quickpreview_camera := quickpreview_camera s;
     quickpreview_frame_start := quickpreview_frame_start s;
     quickpreview_frame_end := quickpreview_frame_end s;
     quickpreview_queue := quickpreview_queue s; updating := updating s;
     fs := fs s; timer_registered := timer_registered s;
     reports := reports s; rendered := rendered s; opened := opened s |}.

Definition set_options (v : Options) (s : State) : State :=
  {| data := data s; options := v; rna := rna s;
     view_perspective := view_perspective s;
     quickpreview_progress := quickpreview_progress s;
     quickpreview_is_rendering := quickpreview_is_rendering s;
     quickpreview_output_path := quickpreview_output_path s;
     quickpreview_camera_ranges := quickpreview_camera_ranges s;
     quickpreview_camera := quickpreview_camera s;
     quickpreview_frame_start := quickpreview_frame_start s;
     quickpreview_frame_end := quickpreview_frame_end s;
     quickpreview_queue := quickpreview_queue s; updating := updating s;
     fs := fs s; timer_registered := timer_registered s;
     reports := reports s; rendered := rendered s; opened := opened s |}.

Definition set_rna (v : Rna) (s : State) : State :=
  {| data := data s; options := options s; rna := v;
     view_perspective := view_perspective s;
     quickpreview_progress := quickpreview_progress s;
     quickpreview_is_rendering := quickpreview_is_rendering s;
     quickpreview_output_path := quickpreview_output_path s;
     quickpreview_camera_ranges := quickpreview_camera_ranges s;
     quickpreview_camera := quickpreview_camera s;
     quickpreview_frame_start := quickpreview_frame_start s;
     quickpreview_frame_end := quickpreview_frame_end s;
     quickpreview_queue := quickpreview_queue s; updating := updating s;
     fs := fs s; timer_registered := timer_registered s;
     reports := reports s; rendered := rendered s; opened := opened s |}.

Definition set_view_perspective (v : option string) (s : State) : State :=
  {| data := data s; options := options s; rna := rna s;
     view_perspective := v;
     quickpreview_progress := quickpreview_progress s;
     quickpreview_is_rendering := quickpreview_is_rendering s;
     quickpreview_output_path := quickpreview_output_path s;
     quickpreview_camera_ranges := quickpreview_camera_ranges s;
     quickpreview_camera := quickpreview_camera s;
     quickpreview_frame_start := quickpreview_frame_start s;
     quickpreview_frame_end := quickpreview_frame_end s;
     quickpreview_queue := quickpreview_queue s; updating := updating s;
     fs := fs s; timer_registered := timer_registered s;
     reports := reports s; rendered := rendered s; opened := opened s |}.

Definition set_quickpreview_progress (v : Q) (s : State) : State :=
  {| data := data s; options := options s; rna := rna s;
     view_perspective := view_perspective s; quickpreview_progress := v;
     quickpreview_is_rendering := quickpreview_is_rendering s;
     quickpreview_output_path := quickpreview_output_path s;
     quickpreview_camera_ranges := quickpreview_camera_ranges s;
     quickpreview_camera := quickpreview_camera s;
     quickpreview_frame_start := quickpreview_frame_start s;
     quickpreview_frame_end := quickpreview_frame_end s;
     quickpreview_queue := quickpreview_queue s; updating := updating s;
     fs := fs s; timer_registered := timer_registered s;
     reports := reports s; rendered := rendered s; opened := opened s |}.

Definition set_quickpreview_is_rendering (v : bool) (s : State) : State :=
  {| data := data s; options := options s; rna := rna s;
     view_perspective := view_perspective s;
     quickpreview_progress := quickpreview_progress s;
     quickpreview_is_rendering := v;
     quickpreview_output_path := quickpreview_output_path s;
     quickpreview_camera_ranges := quickpreview_camera_ranges s;
     quickpreview_camera := quickpreview_camera s;
     quickpreview_frame_start := quickpreview_frame_start s;
     quickpreview_frame_end := quickpreview_frame_end s;
     quickpreview_queue := quickpreview_queue s; updating := updating s;
     fs := fs s; timer_registered := timer_registered s;
     reports := reports s; rendered := rendered s; opened := opened s |}.

Definition set_quickpreview_output_path (v : string) (s : State) : State :=
  {| data := data s; options := options s; rna := rna s;
     view_perspective := view_perspective s;
     quickpreview_progress := quickpreview_progress s;
     quickpreview_is_rendering := quickpreview_is_rendering s;
     quickpreview_output_path := v;
     quickpreview_camera_ranges := quickpreview_camera_ranges s;
     quickpreview_camera := quickpreview_camera s;
     quickpreview_frame_start := quickpreview_frame_start s;
     quickpreview_frame_end := quickpreview_frame_end s;
     quickpreview_queue := quickpreview_queue s; updating := updating s;
     fs := fs s; timer_registered := timer_registered s;
     reports := reports s; rendered := rendered s; opened := opened s |}.

Definition set_quickpreview_camera_ranges (v : string) (s : State) : State :=
  {| data := data s; options := options s; rna := rna s;
     view_perspective := view_perspective s;
     quickpreview_progress := quickpreview_progress s;
     quickpreview_is_rendering := quickpreview_is_rendering s;
     quickpreview_output_path := quickpreview_output_path s;
     quickpreview_camera_ranges := v;
     quickpreview_camera := quickpreview_camera s;
     quickpreview_frame_start := quickpreview_frame_start s;
     quickpreview_frame_end := quickpreview_frame_end s;
     quickpreview_queue := quickpreview_queue s; updating := updating s;
     fs := fs s; timer_registered := timer_registered s;
     reports := reports s; rendered := rendered s; opened := opened s |}.

Definition set_quickpreview_camera (v : string) (s : State) : State :=
  {| data := data s; options := options s; rna := rna s;
     view_perspective := view_perspective s;
     quickpreview_progress := quickpreview_progress s;
     quickpreview_is_rendering := quickpreview_is_rendering s;
     quickpreview_output_path := quickpreview_output_path s;
     quickpreview_camera_ranges := quickpreview_camera_ranges s;
     quickpreview_camera := v;
     quickpreview_frame_start := quickpreview_frame_start s;
     quickpreview_frame_end := quickpreview_frame_end s;
     quickpreview_queue := quickpreview_queue s; updating := updating s;
     fs := fs s; timer_registered := timer_registered s;
     reports := reports s; rendered := rendered s; opened := opened s |}.

Definition set_quickpreview_frame_start (v : Z) (s : State) : State :=
  {| data := data s; options := options s; rna := rna s;
     view_perspective := view_perspective s;
     quickpreview_progress := quickpreview_progress s;
     quickpreview_is_rendering := quickpreview_is_rendering s;
     quickpreview_output_path := quickpreview_output_path s;
     quickpreview_camera_ranges := quickpreview_camera_ranges s;
     quickpreview_camera := quickpreview_camera s;
     quickpreview_frame_start := v;
     quickpreview_frame_end := quickpreview_frame_end s;
     quickpreview_queue := quickpreview_queue s; updating := updating s;
     fs := fs s; timer_registered := timer_registered s;
     reports := reports s; rendered := rendered s; opened := opened s |}.

Definition set_quickpreview_frame_end (v : Z) (s : State) : State :=
  {| data := data s; options := options s; rna := rna s;
     view_perspective := view_perspective s;
     quickpreview_progress := quickpreview_progress s;
     quickpreview_is_rendering := quickpreview_is_rendering s;
     quickpreview_output_path := quickpreview_output_path s;
     quickpreview_camera_ranges := quickpreview_camera_ranges s;
     quickpreview_camera := quickpreview_camera s;
     quickpreview_frame_start := quickpreview_frame_start s;
     quickpreview_frame_end := v;
     quickpreview_queue := quickpreview_queue s; updating := updating s;
     fs := fs s; timer_registered := timer_registered s;
     reports := reports s; rendered := rendered s; opened := opened s |}.

Definition set_quickpreview_queue (v : list QuickPreviewQueueItem) (s : State) : State :=
  {| data := data s; options := options s; rna := rna s;
     view_perspective := view_perspective s;
     quickpreview_progress := quickpreview_progress s;
     quickpreview_is_rendering := quickpreview_is_rendering s;
     quickpreview_output_path := quickpreview_output_path s;
     quickpreview_camera_ranges := quickpreview_camera_ranges s;
     quickpreview_camera := quickpreview_camera s;
     quickpreview_frame_start := quickpreview_frame_start s;
     quickpreview_frame_end := quickpreview_frame_end s;
     quickpreview_queue := v; updating := updating s; fs := fs s;
     timer_registered := timer_registered s; reports := reports s;
     rendered := rendered s; opened := opened s |}.

Definition set_updating (v : bool) (s : State) : State :=
  {| data := data s; options := options s; rna := rna s;
     view_perspective := view_perspective s;
     quickpreview_progress := quickpreview_progress s;
     quickpreview_is_rendering := quickpreview_is_rendering s;
     quickpreview_output_path := quickpreview_output_path s;
     quickpreview_camera_ranges := quickpreview_camera_ranges s;
     quickpreview_camera := quickpreview_camera s;
     quickpreview_frame_start := quickpreview_frame_start s;
     quickpreview_frame_end := quickpreview_frame_end s;
     quickpreview_queue := quickpreview_queue s; updating := v;
     fs := fs s; timer_registered := timer_registered s;
     reports := reports s; rendered := rendered s; opened := opened s |}.

Definition set_fs (v : FS.t) (s : State) : State :=
  {| data := data s; options := options s; rna := rna s;
     view_perspective := view_perspective s;
     quickpreview_progress := quickpreview_progress s;
     quickpreview_is_rendering := quickpreview_is_rendering s;
     quickpreview_output_path := quickpreview_output_path s;
     quickpreview_camera_ranges := quickpreview_camera_ranges s;
     quickpreview_camera := quickpreview_camera s;
     quickpreview_frame_start := quickpreview_frame_start s;
     quickpreview_frame_end := quickpreview_frame_end s;
     quickpreview_queue := quickpreview_queue s; updating := updating s;
     fs := v; timer_registered := timer_registered s;
     reports := reports s; rendered := rendered s; opened := opened s |}.

Definition set_timer_registered (v : bool) (s : State) : State :=
  {| data := data s; options := options s; rna := rna s;
     view_perspective := view_perspective s;
     quickpreview_progress := quickpreview_progress s;
     quickpreview_is_rendering := quickpreview_is_rendering s;
     quickpreview_output_path := quickpreview_output_path s;
     quickpreview_camera_ranges := quickpreview_camera_ranges s;
     quickpreview_camera := quickpreview_camera s;
     quickpreview_frame_start := quickpreview_frame_start s;
     quickpreview_frame_end := quickpreview_frame_end s;
     quickpreview_queue := quickpreview_queue s; updating := updating s;
     fs := fs s; timer_registered := v; reports := reports s;
     rendered := rendered s; opened := opened s |}.

Definition set_reports (v : list (report_type * string)) (s : State) : State :=
  {| data := data s; options := options s; rna := rna s;
     view_perspective := view_perspective s;
     quickpreview_progress := quickpreview_progress s;
     quickpreview_is_rendering := quickpreview_is_rendering s;
     quickpreview_output_path := quickpreview_output_path s;
     quickpreview_camera_ranges := quickpreview_camera_ranges s;
     quickpreview_camera := quickpreview_camera s;
     quickpreview_frame_start := quickpreview_frame_start s;
     quickpreview_frame_end := quickpreview_frame_end s;
     quickpreview_queue := quickpreview_queue s; updating := updating s;
     fs := fs s; timer_registered := timer_registered s; reports := v;
     rendered := rendered s; opened := opened s |}.

Definition set_rendered (v : list Rna) (s : State) : State :=
  {| data := data s; options := options s; rna := rna s;
     view_perspective := view_perspective s;
     quickpreview_progress := quickpreview_progress s;
     quickpreview_is_rendering := quickpreview_is_rendering s;
     quickpreview_output_path := quickpreview_output_path s;
     quickpreview_camera_ranges := quickpreview_camera_ranges s;
     quickpreview_camera := quickpreview_camera s;
     quickpreview_frame_start := quickpreview_frame_start s;
     quickpreview_frame_end := quickpreview_frame_end s;
     quickpreview_queue := quickpreview_queue s; updating := updating s;
     fs := fs s; timer_registered := timer_registered s;
     reports := reports s; rendered := v; opened := opened s |}.

Definition set_opened (v : list string) (s : State) : State :=
  {| data := data s; options := options s; rna := rna s;
     view_perspective := view_perspective s;
     quickpreview_progress := quickpreview_progress s;
     quickpreview_is_rendering := quickpreview_is_rendering s;
     quickpreview_output_path := quickpreview_output_path s;
     quickpreview_camera_ranges := quickpreview_camera_ranges s;
     quickpreview_camera := quickpreview_camera s;
     quickpreview_frame_start := quickpreview_frame_start s;
     quickpreview_frame_end := quickpreview_frame_end s;
     quickpreview_queue := quickpreview_queue s; updating := updating s;
     fs := fs s; timer_registered := timer_registered s;
     reports := reports s; rendered := rendered s; opened := v |}.

(* ================================================================== *)
(** * Computations: state and exceptions *)
(* ================================================================== *)

Inductive result (A : Type) : Type :=
| Ok (a : A)
| Raise (msg : string).
Arguments Ok {A} a.
Arguments Raise {A} msg.

Definition M (A : Type) : Type := State -> result A * State.

Definition ret {A} (a : A) : M A := fun s => (Ok a, s).

Definition bind {A B} (m : M A) (f : A -> M B) : M B :=
  fun s =>
    match m s with
    | (Ok a, s') => f a s'
    | (Raise e, s') => (Raise e, s')
    end.

Definition raise {A} (msg : string) : M A := fun s => (Raise msg, s).

Definition gets {A} (f : State -> A) : M A := fun s => (Ok (f s), s).

Definition modify (f : State -> State) : M unit := fun s => (Ok tt, f s).

Declare Scope monad_scope.
Delimit Scope monad_scope with monad.
Notation "x <- m ;; k" := (bind m (fun x => k))
  (at level 61, m at next level, right associativity) : monad_scope.
Notation "' pat <- m ;; k" := (bind m (fun x => match x with pat => k end))
  (at level 61, pat pattern, m at next level, right associativity)
  : monad_scope.
Notation "m ;; k" := (bind m (fun _ => k))
  (at level 61, right associativity) : monad_scope.
Local Open Scope monad_scope.

(** [try: body except Exception as e: handler(e)] *)
Definition try_except {A} (body : M A) (handler : string -> M A) : M A :=
  fun s =>
    match body s with
    | (Ok a, s') => (Ok a, s')
    | (Raise e, s') => handler e s'
    end.

(** [try: body finally: fin]; [body] may leave by [return] or by an
    exception, [fin] runs in both cases. *)
Definition try_finally {A} (body : M A) (fin : M unit) : M A :=
  fun s =>
    let (r, s') := body s in
    match fin s' with
    | (Ok _, s'') => (r, s'')
    | (Raise e, s'') => (Raise e, s'')
    end.

Definition when (b : bool) (m : M unit) : M unit :=
  if b then m else ret tt.

(** The host calls an update callback and prints what it raises. *)
Definition callback (m : M unit) : M unit :=
  try_except m (fun _ => ret tt).

(** [self.report({ty}, msg)] *)
Definition report (ty : report_type) (msg : string) : M unit :=
  modify (fun s => set_reports (reports s ++ [(ty, msg)]) s).

(** ** Host attributes *)

Definition hasattr (a : Attr.t) : M bool :=
  gets (fun s => match rna s a with Some _ => true | None => false end).

Definition getattr (a : Attr.t) : M json :=
  fun s =>
    match rna s a with
    | Some v => (Ok v, s)
    | None => (Raise "AttributeError", s)
    end.

(** [obj.a = v]: the host checks the value, stores what it makes of
    it and adjusts the attributes that depend on it. *)
Definition setattr (a : Attr.t) (v : json) : M unit :=
  fun s =>
    match rna s a with
    | None => (Raise "AttributeError", s)
    | Some _ =>
        match accept (data s) (rna s) a v with
        | Some v' => (Ok tt, set_rna (host_store a v' (rna s)) s)
        | None => (Raise (refusal a v), s)
        end
    end.

(** An integer attribute, as Python reads it. *)
Definition getattr_int (a : Attr.t) : M Z :=
  v <- getattr a ;;
  match v with
  | JInt z => ret z
  | _ => raise "TypeError"
  end.

(** [name in bpy.data.objects] *)
Definition object_exists (name : string) (s : State) : bool :=
  Dict.mem name (objects (data s)).

(** [bpy.path.abspath(path)]: a leading ["//"] stands for the
    directory of the blend file. *)
Definition abspath (path : string) (s : State) : string :=
  match Str.strip_prefix "//" path with
  | Some rest => Path.join (Path.dirname (blend_filepath (data s))) rest
  | None => path
  end.

(** [bpy.path.basename(path)]: [os.path.basename] past a leading ["//"]. *)
Definition bpy_path_basename (path : string) : string :=
  match Str.strip_prefix "//" path with
  | Some rest => Path.basename rest
  | None => Path.basename path
  end.

(** ** Files *)

(** [open(path, 'w')] and a write: the directory must be there. *)
Definition write_file (path : string) : M unit :=
  fun s =>
    match FS.lookup (fs s) (Path.dirname path), FS.lookup (fs s) path with
    | Some FS.Dir, Some FS.Dir => (Raise "IsADirectoryError", s)
    | Some FS.Dir, _ => (Ok tt, set_fs (FS.add path FS.File (fs s)) s)
    | _, _ => (Raise "FileNotFoundError", s)
    end.

(** An ancestor of [d], or [d] itself, is a plain file. *)
Fixpoint blocked_by_file (fuel : nat) (d : string) (files : FS.t) : bool :=
  match fuel with
  | O => false
  | S fuel' =>
      match FS.lookup files d with
      | Some FS.File => true
      | Some FS.Dir => false
      | None =>
          let parent := Path.dirname d in
          if String.eqb parent d then false
          else blocked_by_file fuel' parent files
      end
  end.

(** [os.makedirs(d, exist_ok=True)] *)
Definition os_makedirs (d : string) : M unit :=
  fun s =>
    if negb (Str.nonempty d) then (Raise "FileNotFoundError", s)
    else if blocked_by_file (S (String.length d)) d (fs s)
    then (Raise "NotADirectoryError", s)
    else (Ok tt, set_fs (FS.makedirs d (fs s)) s).

(** [if not os.path.exists(d): os.makedirs(d, exist_ok=True)] *)
Definition ensure_directory (d : string) : M unit :=
  ex <- gets (fun s => FS.exists_ (fs s) d) ;;
  when (negb ex) (os_makedirs d).

(* ================================================================== *)
(** * What the host decides *)
(* ================================================================== *)

Record Host : Type := mkHost {
  json_loads : string -> option json;     (* [None]: JSONDecodeError *)
  json_dumps : json -> string;
  render_opengl : Rna -> option (list string);
    (* the files [bpy.ops.render.opengl(animation=True)] writes for
       these attributes; [None] when the operator raises *)
  glob_glob : FS.t -> string -> list string
}.

(* ================================================================== *)
(** * The add-on *)
(* ================================================================== *)

Section AddOn.

Variable H : Host.

(** ** [store_original_settings] *)

(** [settings[key] = <attribute>] *)
Definition store (key : string) (a : Attr.t) (settings : Dict.t json)
  : M (Dict.t json) :=
  v <- getattr a ;;
  ret (Dict.set key v settings).

(** [if hasattr(..., a): settings[key] = <attribute>] *)
Definition store_if_present (key : string) (a : Attr.t)
  (settings : Dict.t json) : M (Dict.t json) :=
  h <- hasattr a ;;
  if h then store key a settings else ret settings.

Definition backup_file_path (s : State) : string :=
  let blend_name :=
    if is_saved (data s)
    then fst (Path.splitext (Path.basename (blend_filepath (data s))))
    else "unsaved" in
  Path.join (tempdir (data s))
    ("quickpreview_backup_" ++ blend_name ++ "_"
       ++ Str.of_Z (clock (data s)) ++ ".json")%string.

Definition store_original_settings : M (option string * Dict.t json) :=
  try_except
    (let settings := [] in
     settings <- store "frame_start" Attr.frame_start settings ;;
     settings <- store "frame_end" Attr.frame_end settings ;;
     cam <- getattr Attr.camera ;;
     let settings :=
       Dict.set "camera"
         (match cam with JStr name => JStr name | _ => JStr "None" end)
         settings in
     settings <- store "fps" Attr.fps settings ;;
     settings <- store "resolution_percentage" Attr.resolution_percentage settings ;;
     settings <- store "filepath" Attr.filepath settings ;;
     settings <- store "file_format" Attr.file_format settings ;;
     settings <- store "color_mode" Attr.color_mode settings ;;
     settings <- store "color_depth" Attr.color_depth settings ;;
     settings <- store_if_present "compression" Attr.compression settings ;;
     settings <- store "use_stamp" Attr.use_stamp settings ;;
     settings <- store "use_stamp_frame" Attr.use_stamp_frame settings ;;
     settings <- store "use_stamp_frame_range" Attr.use_stamp_frame_range settings ;;
     settings <- store "use_stamp_camera" Attr.use_stamp_camera settings ;;
     settings <- store "use_stamp_lens" Attr.use_stamp_lens settings ;;
     settings <- store "use_stamp_scene" Attr.use_stamp_scene settings ;;
     settings <- store "stamp_font_size" Attr.stamp_font_size settings ;;
     settings <- store "ffmpeg_format" Attr.ffmpeg_format settings ;;
     settings <- store "ffmpeg_codec" Attr.ffmpeg_codec settings ;;
     settings <- store "ffmpeg_audio_codec" Attr.ffmpeg_audio_codec settings ;;
     settings <- store "ffmpeg_constant_rate_factor"
                   Attr.ffmpeg_constant_rate_factor settings ;;
     settings <- store "ffmpeg_ffmpeg_preset" Attr.ffmpeg_ffmpeg_preset settings ;;
     settings <- store "ffmpeg_gopsize" Attr.ffmpeg_gopsize settings ;;
     settings <- store "ffmpeg_use_autosplit" Attr.ffmpeg_use_autosplit settings ;;
     settings <- store "ffmpeg_audio_channels" Attr.ffmpeg_audio_channels settings ;;
     settings <- store "ffmpeg_audio_bitrate" Attr.ffmpeg_audio_bitrate settings ;;
     settings <- store_if_present "audio_mixrate" Attr.ffmpeg_audio_mixrate settings ;;
     settings <- store_if_present "use_sequencer" Attr.use_sequencer settings ;;
     settings <- store "use_simplify" Attr.use_simplify settings ;;
     file_path <- gets backup_file_path ;;
     write_file file_path ;;
     ret (Some file_path, settings))
    (fun _ => ret (None, [])).

(** ** [restore_original_settings] *)

(** [if key in settings: <attribute> = settings[key]] *)
Definition restore (settings : Dict.t json) (key : string) (a : Attr.t)
  : M unit :=
  match Dict.get key settings with
  | Some v => setattr a v
  | None => ret tt
  end.

(** [if key in settings and hasattr(..., a): <attribute> = settings[key]] *)
Definition restore_if_present (settings : Dict.t json) (key : string)
  (a : Attr.t) : M unit :=
  match Dict.get key settings with
  | Some v => h <- hasattr a ;; when h (setattr a v)
  | None => ret tt
  end.

(** [isinstance(v, (int, str))] *)
Definition isinstance_int_str (v : json) : bool :=
  match v with
  | JInt _ | JBool _ | JStr _ => true
  | _ => false
  end.

(** [v in (text, number)] *)
Definition in_pair (text : string) (number : Z) (v : json) : bool :=
  match v with
  | JStr s => String.eqb s text
  | JInt z => Z.eqb z number
  | _ => false
  end.

(** The first block of the function. *)
Definition restore_constant_rate_factor (settings : Dict.t json) : M unit :=
  match Dict.get "ffmpeg_constant_rate_factor" settings with
  | Some v =>
      if isinstance_int_str v then
        if in_pair "15" 15 v
        then setattr Attr.ffmpeg_constant_rate_factor (JStr "HIGH")
        else if in_pair "23" 23 v
        then setattr Attr.ffmpeg_constant_rate_factor (JStr "MEDIUM")
        else if in_pair "28" 28 v
        then setattr Attr.ffmpeg_constant_rate_factor (JStr "LOW")
        else setattr Attr.ffmpeg_constant_rate_factor (JStr "MEDIUM")
      else setattr Attr.ffmpeg_constant_rate_factor v
  | None => ret tt
  end.

(** The camera, by name; the result is what [errors] gains. *)
Definition restore_camera (settings : Dict.t json) : M (list string) :=
  match Dict.get "camera" settings with
  | Some (JStr name) =>
      if String.eqb name "None" then ret []
      else
        present <- gets (object_exists name) ;;
        if present
        then setattr Attr.camera (JStr name) ;; ret []
        else ret [("Camera " ++ name ++ " no longer exists")%string]
  | Some _ => raise "TypeError"      (* not a name to look up *)
  | None => ret []
  end.

(** The body of the [try] block. *)
Definition restore_body (settings : Dict.t json) : M bool :=
    (restore_constant_rate_factor settings ;;
     restore settings "frame_start" Attr.frame_start ;;
     restore settings "frame_end" Attr.frame_end ;;
     errors <- restore_camera settings ;;
     restore settings "fps" Attr.fps ;;
     restore settings "resolution_percentage" Attr.resolution_percentage ;;
     restore settings "filepath" Attr.filepath ;;
     restore settings "file_format" Attr.file_format ;;
     restore settings "color_mode" Attr.color_mode ;;
     restore settings "color_depth" Attr.color_depth ;;
     restore_if_present settings "compression" Attr.compression ;;
     restore settings "use_stamp" Attr.use_stamp ;;
     restore settings "use_stamp_frame" Attr.use_stamp_frame ;;
     restore settings "use_stamp_frame_range" Attr.use_stamp_frame_range ;;
     restore settings "use_stamp_camera" Attr.use_stamp_camera ;;
     restore settings "use_stamp_lens" Attr.use_stamp_lens ;;
     restore settings "use_stamp_scene" Attr.use_stamp_scene ;;
     restore settings "stamp_font_size" Attr.stamp_font_size ;;
     restore settings "ffmpeg_format" Attr.ffmpeg_format ;;
     restore settings "ffmpeg_codec" Attr.ffmpeg_codec ;;
     restore settings "ffmpeg_audio_codec" Attr.ffmpeg_audio_codec ;;
     restore settings "ffmpeg_constant_rate_factor"
       Attr.ffmpeg_constant_rate_factor ;;
     restore settings "ffmpeg_ffmpeg_preset" Attr.ffmpeg_ffmpeg_preset ;;
     restore settings "ffmpeg_gopsize" Attr.ffmpeg_gopsize ;;
     restore settings "ffmpeg_use_autosplit" Attr.ffmpeg_use_autosplit ;;
     restore settings "ffmpeg_audio_channels" Attr.ffmpeg_audio_channels ;;
     restore settings "ffmpeg_audio_bitrate" Attr.ffmpeg_audio_bitrate ;;
     restore_if_present settings "audio_mixrate" Attr.ffmpeg_audio_mixrate ;;
     restore_if_present settings "use_sequencer" Attr.use_sequencer ;;
     restore settings "use_simplify" Attr.use_simplify ;;
     match errors with
     | [] => ret true
     | _ => ret false
     end).

Definition restore_original_settings (settings : Dict.t json) : M bool :=
  try_except (restore_body settings) (fun _ => ret false).

(** ** Output path *)

Definition get_default_output_folder (s : State) : string :=
  let default_folder := abspath "//previews/" s in
  if Str.startswith default_folder "//" && negb (is_saved (data s))
  then Path.join (system_tempdir (data s)) "blender_previews"
  else default_folder.

(** [r'[_-]?v\d+$'] *)
Definition version_suffix : list Re.regex :=
  [Re.Opt (Re.OneOf ["_"%char; "-"%char]); Re.Lit "v"; Re.Plus Re.Digit;
   Re.Eol].

Definition get_scene_name (s : State) : string :=
  if is_saved (data s) then
    let filename := bpy_path_basename (blend_filepath (data s)) in
    let scene_name := fst (Path.splitext filename) in
    if negb (quickpreview_full_scene_name (options s))
    then Re.re_sub_delete (unicode_decimal (data s)) version_suffix
           scene_name
    else scene_name
  else "untitled".

Definition extension_of (f : output_format) : string :=
  match f with
  | MP4_H264 => ".mp4"
  | PNG_SEQ => ".png"
  | JPEG_SEQ => ".jpg"
  | MOV_H264 => ".mov"            (* the default *)
  end.

(** The local [basename] of [update_output_path]. *)
Definition preview_basename (s : State) : string :=
  let parts :=
    (if quickpreview_include_scene_name (options s)
     then [get_scene_name s] else [])
    ++ (if quickpreview_include_camera (options s)
           && negb (String.eqb (quickpreview_camera s) "VIEWPORT")
        then [quickpreview_camera s] else [])
    ++ [(Str.format_03d (quickpreview_frame_start s) ++ "-"
           ++ Str.format_03d (quickpreview_frame_end s))%string] in
  Str.join "_" parts.

(** The local [output_folder]. *)
Definition preview_output_folder (s : State) : string :=
  let current_path := quickpreview_output_path s in
  let from_current :=
    if Str.nonempty current_path && Str.nonempty (Path.dirname current_path)
    then
      let directory := Path.dirname (abspath current_path s) in
      if FS.exists_ (fs s) directory then directory else ""
    else "" in
  if negb (Str.nonempty from_current)
  then get_default_output_folder s
  else from_current.

(** The local [output_file]. *)
Definition preview_output_file (s : State) : string :=
  let basename := preview_basename s in
  let extension := extension_of (quickpreview_output_format (options s)) in
  match quickpreview_output_format (options s) with
  | PNG_SEQ | JPEG_SEQ =>
      match quickpreview_save_mode (options s) with
      | INCREMENTAL => basename ++ "_v001/" ++ basename ++ "_v001_####"
      | OVERWRITE => basename ++ "/" ++ basename ++ "_####"
      end
  | _ =>
      match quickpreview_save_mode (options s) with
      | INCREMENTAL => basename ++ "_v001" ++ extension
      | OVERWRITE => basename ++ extension
      end
  end%string.

(** [is_path_manually_edited] stands for the test on [self].  Nothing
    in the [try] block raises, so its [except] branch is not modelled.
    The function has no [global updating]: the assignment in its
    [finally] block binds a local name and leaves the module's flag
    alone. *)
Definition update_output_path (is_path_manually_edited : bool) : M unit :=
  if is_path_manually_edited then ret tt
  else
    modify (fun s =>
      set_quickpreview_output_path
        (Path.join (preview_output_folder s) (preview_output_file s)) s).

(** ** Per-camera frame ranges *)

(** [key in container] *)
Definition py_contains (key : string) (container : json) : M bool :=
  match container with
  | JDict d => ret (Dict.mem key d)
  | JList l =>
      ret (existsb (fun v => match v with
                             | JStr s => String.eqb s key
                             | _ => false
                             end) l)
  | JStr s => ret (Str.contains key s)
  | _ => raise "TypeError"
  end.

(** [container[key]] *)
Definition py_getitem (container : json) (key : string) : M json :=
  match container with
  | JDict d =>
      match Dict.get key d with
      | Some v => ret v
      | None => raise "KeyError"
      end
  | _ => raise "TypeError"
  end.

(** [container[key] = v] *)
Definition py_setitem (container : json) (key : string) (v : json)
  : M json :=
  match container with
  | JDict d => ret (JDict (Dict.set key v d))
  | _ => raise "TypeError"
  end.

(** [del container[key]] *)
Definition py_delitem (container : json) (key : string) : M json :=
  match container with
  | JDict d =>
      if Dict.mem key d then ret (JDict (Dict.del key d))
      else raise "KeyError"
  | _ => raise "TypeError"
  end.

(** [text or "{}"] *)
Definition or_empty_object (text : string) : string :=
  if Str.nonempty text then text else "{}".

(** [try: data = json.loads(<ranges> or "{}")] with [data = {}] when
    that raises. *)
Definition stored_ranges (s : State) : json :=
  match json_loads H (or_empty_object (quickpreview_camera_ranges s)) with
  | Some d => d
  | None => JDict []
  end.

Definition save_camera_frame_range (camera_name : string) : M unit :=
  if String.eqb camera_name "VIEWPORT" then ret tt
  else
    try_finally
      (modify (set_updating true) ;;
       data <- gets stored_ranges ;;
       fs_ <- gets quickpreview_frame_start ;;
       fe_ <- gets quickpreview_frame_end ;;
       data <- py_setitem data camera_name
                 (JDict [("start", JInt fs_); ("end", JInt fe_)]) ;;
       modify (set_quickpreview_camera_ranges (json_dumps H data)))
      (modify (set_updating false)).

(** [update_frame_start_end], the update callback of
    [quickpreview_frame_start] and [quickpreview_frame_end]. *)
Definition update_frame_start_end : M unit :=
  u <- gets updating ;;
  if u then ret tt
  else
    try_finally
      (modify (set_updating true) ;;
       camera_name <- gets quickpreview_camera ;;
       save_camera_frame_range camera_name ;;
       update_output_path false)
      (modify (set_updating false)).

(** The value an [IntProperty] takes from a Python value. *)
Definition int_property_value (v : json) : M Z :=
  match v with
  | JInt z => ret z
  | JBool b => ret (Z.b2z b)
  | _ => raise "TypeError"
  end.

(** [scene.quickpreview_frame_start = v]: the value is stored, then
    the host runs the update callback. *)
Definition assign_quickpreview_frame_start (v : Z) : M unit :=
  modify (set_quickpreview_frame_start v) ;;
  callback update_frame_start_end.

Definition assign_quickpreview_frame_end (v : Z) : M unit :=
  modify (set_quickpreview_frame_end v) ;;
  callback update_frame_start_end.

Definition load_camera_frame_range (camera_name : string) : M unit :=
  u <- gets updating ;;
  if u then ret tt
  else if String.eqb camera_name "VIEWPORT" then ret tt
  else
    try_finally
      (modify (set_updating true) ;;
       text <- gets quickpreview_camera_ranges ;;
       match json_loads H text with
       | None => ret tt                     (* except: return *)
       | Some data =>
           found <- py_contains camera_name data ;;
           if found then
             ranges <- py_getitem data camera_name ;;
             v <- py_getitem ranges "start" ;;
             z <- int_property_value v ;;
             assign_quickpreview_frame_start z ;;
             v <- py_getitem ranges "end" ;;
             z <- int_property_value v ;;
             assign_quickpreview_frame_end z
           else ret tt
       end)
      (modify (set_updating false)).

(** [update_camera], the update callback of [quickpreview_camera]. *)
Definition update_camera : M unit :=
  u <- gets updating ;;
  if u then ret tt
  else
    camera_name <- gets quickpreview_camera ;;
    load_camera_frame_range camera_name ;;
    present <- gets (object_exists camera_name) ;;
    when (negb (String.eqb camera_name "VIEWPORT") && present)
      (setattr Attr.camera (JStr camera_name) ;;
       modify (fun s =>
         match view_perspective s with
         | Some _ => set_view_perspective (Some "CAMERA") s
         | None => s
         end)) ;;
    update_output_path false.

(** The items of the enum [quickpreview_camera]: the viewport and the
    cameras of the file. *)
Definition camera_items (s : State) : list string :=
  "VIEWPORT"
  :: map fst (filter (fun o => String.eqb (snd o) "CAMERA") (objects (data s))).

(** [scene.quickpreview_camera = v]: the host refuses what is not an
    item, stores the value and runs the update callback. *)
Definition assign_quickpreview_camera (v : string) : M unit :=
  items <- gets camera_items ;;
  if existsb (String.eqb v) items then
    modify (set_quickpreview_camera v) ;;
    callback update_camera
  else raise "TypeError".

(** [update_frame_range], the update callback of
    [quickpreview_frame_range]. *)
Definition update_frame_range : M unit :=
  u <- gets updating ;;
  if u then ret tt
  else
    try_finally
      (modify (set_updating true) ;;
       mode <- gets (fun s => quickpreview_frame_range (options s)) ;;
       match mode with
       | TIMELINE =>
           a <- getattr Attr.frame_start ;;
           z <- int_property_value a ;;
           assign_quickpreview_frame_start z ;;
           b <- getattr Attr.frame_end ;;
           z <- int_property_value b ;;
           assign_quickpreview_frame_end z
       | CUSTOM => ret tt
       end ;;
       camera_name <- gets quickpreview_camera ;;
       save_camera_frame_range camera_name ;;
       update_output_path false)
      (modify (set_updating false)).

(** ** Progress timer *)

(** [max(0.0, min(1.0, progress))] *)
Definition clamp01 (progress : Q) : Q := Qmax 0 (Qmin 1 progress).

(** [a / b] for two [int]s: the double nearest to the quotient. *)
Definition true_divide (a b : Z) : Q :=
  Float.binary64 (inject_Z a / inject_Z b).

(** [scene.quickpreview_progress = value]: the property holds a 32-bit
    float and the host keeps it between its [min] and its [max]. *)
Definition assign_quickpreview_progress (value : Q) : M unit :=
  modify (set_quickpreview_progress (clamp01 (Float.binary32 value))).

(** The result is the delay until the next call; [None] removes the
    timer. *)
Definition update_render_progress : M (option Q) :=
  rendering <- gets quickpreview_is_rendering ;;
  if negb rendering then ret None
  else
    frame_end <- getattr_int Attr.frame_end ;;
    frame_start <- getattr_int Attr.frame_start ;;
    (if (frame_end >? frame_start)%Z then
       current_frame <- getattr_int Attr.frame_current ;;
       let total_frames := (frame_end - frame_start + 1)%Z in
       let progress :=
         true_divide (current_frame - frame_start) total_frames in
       assign_quickpreview_progress (clamp01 progress)
     else ret tt) ;;
    ret (Some (1 # 10)%Q).

(** [bpy.app.timers.register(update_render_progress)] *)
Definition timers_register : M unit :=
  avail <- gets (fun s => timers_available (data s)) ;;
  if avail then modify (set_timer_registered true)
  else raise "AttributeError".

(** [bpy.app.timers.unregister(update_render_progress)] *)
Definition timers_unregister : M unit :=
  registered <- gets timer_registered ;;
  if registered then modify (set_timer_registered false)
  else raise "ValueError".

(** ** [QUICKPREVIEW_OT_render] *)

Definition detect_audio_sources (s : State) : bool * bool :=
  let has_vse_audio :=
    match sequence_editor (data s) with
    | Some sequences_all =>
        existsb (fun q =>
                   (String.eqb (fst q) "SOUND" || String.eqb (fst q) "MOVIE"
                    || String.eqb (fst q) "SCENE") && snd q)
                sequences_all
    | None => false
    end in
  let has_scene_audio :=
    existsb (fun o => String.eqb (snd o) "SPEAKER") (objects (data s)) in
  (has_vse_audio, has_scene_audio).

(** [bpy.ops.render.opengl(animation=True)]: the host renders with the
    attributes as they are now. *)
Definition bpy_ops_render_opengl : M unit :=
  fun s =>
    let s1 := set_rendered (rendered s ++ [rna s]) s in
    match render_opengl H (rna s) with
    | Some files =>
        (Ok tt,
         set_fs (fold_left (fun f p => FS.add p FS.File f) files (fs s1)) s1)
    | None => (Raise "RuntimeError", s1)
    end.

(** [self.open_file(filepath)] *)
Definition open_file (filepath : string) : M unit :=
  modify (fun s => set_opened (opened s ++ [filepath]) s).

(** [open_folder(path)] *)
Definition open_folder (path : string) : M unit :=
  modify (fun s =>
    let directory := Path.dirname (abspath path s) in
    if FS.exists_ (fs s) directory
    then set_opened (opened s ++ [directory]) s
    else s).

(** The block under [if scene.quickpreview_save_mode == 'INCREMENTAL']
    that picks the version of a video file. *)
Definition next_incremental_path (init_path : string) (s : State) : string :=
  let directory := Path.dirname init_path in
  let filename := Path.basename init_path in
  let extension := snd (Path.splitext filename) in
  if Str.contains "_v001" filename || negb (Str.contains "_v" filename) then
    let basename :=
      if Str.contains "_v" filename
      then Str.split_head "_v" filename
      else fst (Path.splitext filename) in
    let next_version_path :=
      Path.join directory (basename ++ "_v001" ++ extension)%string in
    let next_version :=
      get_next_version_number (unicode_decimal (data s)) (fs s)
        next_version_path extension in
    Path.join directory
      (basename ++ "_v" ++ Str.format_03d (Z.of_nat next_version)
         ++ extension)%string
  else init_path.

(** The version of an image sequence: [base_filename] after the block
    under [# Handle incremental save mode]. *)
Definition sequence_base_filename (full_path output_dir : string) (s : State)
  : string :=
  let base_filename := fst (Path.splitext (Path.basename full_path)) in
  match quickpreview_save_mode (options s) with
  | INCREMENTAL =>
      match Re.re_search (unicode_decimal (data s))
              [Re.Lit "_v"; Re.Group (Re.Plus Re.Digit)] base_filename with
      | Some (base_name, (g :: _, _)) =>
          let current_version :=
            Unicode.int_of_digits (unicode_decimal (data s)) g in
          let pattern :=
            Path.join output_dir (base_name ++ "_v*_0001.*")%string in
          match glob_glob H (fs s) pattern with
          | [] => base_filename
          | existing_files =>
              let highest_version :=
                fold_left
                  (fun hv file =>
                     match Re.re_search (unicode_decimal (data s))
                             [Re.Lit "_v"; Re.Group (Re.Plus Re.Digit);
                              Re.Lit "_"] (Path.basename file) with
                     | Some (_, (v :: _, _)) =>
                         Nat.max hv
                           (Unicode.int_of_digits (unicode_decimal (data s)) v)
                     | _ => hv
                     end)
                  existing_files 0%nat in
              if (current_version <=? highest_version)%nat
              then (base_name ++ "_v"
                      ++ Str.format_03d (Z.of_nat (highest_version + 1)))%string
              else base_filename
          end
      | _ => base_filename
      end
  | OVERWRITE => base_filename
  end.

(** The [try] block of [execute] falls into four parts.  The first
    starts the progress display and settles the output path and the
    output format; its result is [full_path]. *)
Definition render_prepare_output : M string :=
  modify (set_quickpreview_progress 0) ;;
  modify (set_quickpreview_is_rendering true) ;;
  try_except timers_register (fun _ => ret tt) ;;
  opts <- gets options ;;
  setattr Attr.use_simplify (JBool (quickpreview_use_simplify opts)) ;;
  init_path <- gets (fun s => abspath (quickpreview_output_path s) s) ;;
  init_path <-
    (if negb (Str.nonempty init_path)
     then update_output_path false ;;
          gets (fun s => abspath (quickpreview_output_path s) s)
     else ret init_path) ;;
  init_path <-
    gets (fun s =>
            match quickpreview_save_mode opts with
            | INCREMENTAL => next_incremental_path init_path s
            | OVERWRITE => init_path
            end) ;;
  let full_path := init_path in
  let output_dir := Path.dirname full_path in
  ensure_directory output_dir ;;
  setattr Attr.filepath (JStr full_path) ;;
  match quickpreview_output_format opts with
  | PNG_SEQ | JPEG_SEQ =>
      match quickpreview_output_format opts with
      | PNG_SEQ => setattr Attr.file_format (JStr "PNG")
      | _ =>
          setattr Attr.file_format (JStr "JPEG") ;;
          setattr Attr.quality (JInt (quickpreview_image_quality opts))
      end ;;
      ensure_directory output_dir ;;
      base_filename <- gets (sequence_base_filename full_path output_dir) ;;
      setattr Attr.filepath
        (JStr (Path.join output_dir (base_filename ++ "_")%string))
  | _ =>
      setattr Attr.file_format (JStr "FFMPEG") ;;
      match quickpreview_output_format opts with
      | MP4_H264 =>
          setattr Attr.ffmpeg_format (JStr "MPEG4") ;;
          setattr Attr.ffmpeg_codec (JStr "H264")
      | _ =>
          setattr Attr.ffmpeg_format (JStr "QUICKTIME") ;;
          setattr Attr.ffmpeg_codec (JStr "H264")
      end ;;
      match quickpreview_video_quality opts with
      | HIGH => setattr Attr.ffmpeg_constant_rate_factor (JStr "HIGH")
      | MEDIUM => setattr Attr.ffmpeg_constant_rate_factor (JStr "MEDIUM")
      | LOW => setattr Attr.ffmpeg_constant_rate_factor (JStr "LOW")
      end
  end ;;
  ret full_path.

(** [# Apply frame range from camera's stored settings] *)
Definition render_apply_frame_range : M unit :=
  frame_start <- gets quickpreview_frame_start ;;
  setattr Attr.frame_start (JInt frame_start) ;;
  frame_end <- gets quickpreview_frame_end ;;
  setattr Attr.frame_end (JInt frame_end).

(** Camera, frame rate, resolution scale, metadata and audio codec. *)
Definition render_apply_overrides : M unit :=
  opts <- gets options ;;
  camera <- gets quickpreview_camera ;;
  present <- gets (object_exists camera) ;;
  when (negb (String.eqb camera "VIEWPORT") && present)
    (setattr Attr.camera (JStr camera)) ;;
  when (quickpreview_override_fps opts)
    (setattr Attr.fps (JInt (quickpreview_fps opts))) ;;
  when (quickpreview_override_resolution_scale opts)
    (setattr Attr.resolution_percentage
       (JInt (quickpreview_resolution_scale opts))) ;;
  (if quickpreview_burn_metadata opts then
     setattr Attr.use_stamp (JBool true) ;;
     setattr Attr.use_stamp_frame (JBool true) ;;
     setattr Attr.use_stamp_frame_range (JBool true) ;;
     setattr Attr.use_stamp_camera (JBool true) ;;
     setattr Attr.use_stamp_lens (JBool true) ;;
     setattr Attr.use_stamp_scene (JBool true) ;;
     setattr Attr.use_stamp_date (JBool false) ;;
     setattr Attr.use_stamp_time (JBool false) ;;
     setattr Attr.use_stamp_render_time (JBool false) ;;
     setattr Attr.use_stamp_memory (JBool false) ;;
     setattr Attr.use_stamp_hostname (JBool false) ;;
     setattr Attr.use_stamp_marker (JBool false) ;;
     setattr Attr.use_stamp_filename (JBool false) ;;
     setattr Attr.stamp_font_size (JInt (quickpreview_metadata_fontsize opts))
   else
     setattr Attr.use_stamp (JBool false)) ;;
  setattr Attr.ffmpeg_audio_codec (JStr "AAC").

(** What follows the viewport render. *)
Definition render_finish (full_path : string) : M op_result :=
  opts <- gets options ;;
  modify (set_quickpreview_progress 1) ;;
  file_there <- gets (fun s => FS.exists_ (fs s) full_path) ;;
  when (quickpreview_open_after_render opts && file_there)
    (open_file full_path) ;;
  folder_there <- gets (fun s => FS.exists_ (fs s) (Path.dirname full_path)) ;;
  when (quickpreview_open_output_folder opts && folder_there)
    (open_folder full_path) ;;
  report INFO ("Preview saved to: " ++ Path.basename full_path) ;;
  ret FINISHED.

(** The viewport render, with the audio the scene has. *)
Definition render_viewport : M unit :=
  '(has_vse_audio, has_scene_audio) <- gets detect_audio_sources ;;
  if has_vse_audio then
    setattr Attr.ffmpeg_audio_codec (JStr "AAC") ;;
    bpy_ops_render_opengl
  else if has_scene_audio then
    setattr Attr.ffmpeg_audio_codec (JStr "AAC") ;;
    bpy_ops_render_opengl
  else
    bpy_ops_render_opengl.

(** The body of the [try] block of [execute]. *)
Definition render_body : M op_result :=
  full_path <- render_prepare_output ;;
  render_apply_frame_range ;;
  render_apply_overrides ;;
  render_viewport ;;
  render_finish full_path.

(** [# Clean up progress tracking] and the timer. *)
Definition render_stop_progress : M unit :=
  modify (set_quickpreview_is_rendering false) ;;
  avail <- gets (fun s => timers_available (data s)) ;;
  when avail (try_except timers_unregister (fun _ => ret tt)).

(** The [finally] block of [execute]. *)
Definition render_finally (backup_file : option string)
  (original_settings : Dict.t json) : M unit :=
  render_stop_progress ;;
  restore_success <- restore_original_settings original_settings ;;
  if negb restore_success then
    report WARNING
      "Some settings may not have been completely restored. Check the console for details."
  else
    match backup_file with
    | Some f =>
        there <- gets (fun s => FS.exists_ (fs s) f) ;;
        when there (modify (fun s => set_fs (FS.remove f (fs s)) s))
    | None => ret tt
    end.

(** [QUICKPREVIEW_OT_render.execute] *)
Definition render_execute : M op_result :=
  saved <- gets (fun s => is_saved (data s)) ;;
  if negb saved then
    report ERROR "Please save your Blender file before using Quick Preview" ;;
    ret CANCELLED
  else
    '(backup_file, original_settings) <- store_original_settings ;;
    try_finally
      (try_except render_body
         (fun e =>
            report ERROR ("Rendering failed: " ++ e) ;;
            modify (set_quickpreview_progress 0) ;;
            ret CANCELLED))
      (render_finally backup_file original_settings).

(** ** The other operators *)

(** [QUICKPREVIEW_OT_set_output_path.execute] *)
Definition set_output_path_execute (filepath : string) : M op_result :=
  modify (set_quickpreview_output_path filepath) ;;
  ret FINISHED.

(** [QUICKPREVIEW_OT_delete_camera_range.execute] *)
Definition delete_camera_range_execute (camera_name : string) : M op_result :=
  data <- gets stored_ranges ;;
  found <- py_contains camera_name data ;;
  (if found then
     data <- py_delitem data camera_name ;;
     modify (set_quickpreview_camera_ranges (json_dumps H data)) ;;
     report INFO ("Deleted range for " ++ camera_name)
   else
     report WARNING ("No stored range for " ++ camera_name)) ;;
  ret FINISHED.

(** [QUICKPREVIEW_OT_add_to_queue.execute] *)
Definition add_to_queue_execute : M op_result :=
  modify (fun s =>
    set_quickpreview_queue
      (quickpreview_queue s
         ++ [Item.mk (quickpreview_camera s) (quickpreview_frame_start s)
               (quickpreview_frame_end s) (quickpreview_output_path s)
               true PENDING]) s) ;;
  item_text <- gets (fun s =>
    (quickpreview_camera s ++ " " ++ Str.of_Z (quickpreview_frame_start s)
       ++ "-" ++ Str.of_Z (quickpreview_frame_end s))%string) ;;
  report INFO ("Queued " ++ item_text) ;;
  ret FINISHED.

Fixpoint remove_nth {A} (n : nat) (l : list A) : list A :=
  match n, l with
  | _, [] => []
  | O, _ :: l' => l'
  | S n', x :: l' => x :: remove_nth n' l'
  end.

(** [QUICKPREVIEW_OT_remove_queue_item.execute] *)
Definition remove_queue_item_execute (index : Z) : M op_result :=
  n <- gets (fun s => List.length (quickpreview_queue s)) ;;
  when ((0 <=? index)%Z && (index <? Z.of_nat n)%Z)
    (modify (fun s =>
       set_quickpreview_queue
         (remove_nth (Z.to_nat index) (quickpreview_queue s)) s) ;;
     report INFO "Removed from queue") ;;
  ret FINISHED.

(** [QUICKPREVIEW_OT_clear_queue.execute] *)
Definition clear_queue_execute : M op_result :=
  modify (set_quickpreview_queue []) ;;
  report INFO "Queue cleared" ;;
  ret FINISHED.

(** ** [QUICKPREVIEW_OT_process_queue] *)

Fixpoint update_nth {A} (n : nat) (f : A -> A) (l : list A) : list A :=
  match n, l with
  | _, [] => []
  | O, x :: l' => f x :: l'
  | S n', x :: l' => x :: update_nth n' f l'
  end.

(** [item.status = st] for the item at position [i] of the queue. *)
Definition set_item_status (i : nat) (st : status) : M unit :=
  modify (fun s =>
    set_quickpreview_queue
      (update_nth i (Item.set_status st) (quickpreview_queue s)) s).

Definition is_error (r : report_type * string) : bool :=
  match fst r with
  | ERROR => true
  | _ => false
  end.

(** [bpy.ops.quickpreview.render('INVOKE_DEFAULT')]: the operator has
    no [invoke], so the host runs [execute].  When the operator has
    reported an [ERROR] the call raises [RuntimeError]; else it hands
    the result back. *)
Definition bpy_ops_quickpreview_render : M op_result :=
  before <- gets (fun s => List.length (reports s)) ;;
  result <- render_execute ;;
  new <- gets (fun s => skipn before (reports s)) ;;
  if existsb is_error new then raise "RuntimeError" else ret result.

(** [# apply this item's settings] *)
Definition apply_item_settings (item : Item.t) : M unit :=
  assign_quickpreview_camera (Item.camera_name item) ;;
  assign_quickpreview_frame_start (Item.frame_start item) ;;
  assign_quickpreview_frame_end (Item.frame_end item) ;;
  modify (set_quickpreview_output_path (Item.output_path item)).

(** One turn of the loop, for the item at position [i]. *)
Definition process_item (i : nat) : M unit :=
  queue <- gets quickpreview_queue ;;
  match nth_error queue i with
  | None => ret tt
  | Some item =>
      if negb (Item.enabled item) then ret tt        (* continue *)
      else
        set_item_status i PROCESSING ;;
        report INFO
          ("Rendering " ++ Item.camera_name item ++ " "
             ++ Str.of_Z (Item.frame_start item) ++ "-"
             ++ Str.of_Z (Item.frame_end item)) ;;
        apply_item_settings item ;;
        result <- bpy_ops_quickpreview_render ;;
        set_item_status i
          (match result with FINISHED => COMPLETED | _ => FAILED end)
  end.

(** [for item in queue: ...], by position. *)
Fixpoint for_each (positions : list nat) (body : nat -> M unit) : M unit :=
  match positions with
  | [] => ret tt
  | i :: rest => body i ;; for_each rest body
  end.

(** [QUICKPREVIEW_OT_process_queue.execute] *)
Definition process_queue_execute : M op_result :=
  queue <- gets quickpreview_queue ;;
  match queue with
  | [] =>
      report WARNING "Queue is empty" ;;
      ret CANCELLED
  | _ =>
      orig_cam <- getattr Attr.camera ;;
      orig_start <- getattr Attr.frame_start ;;
      orig_end <- getattr Attr.frame_end ;;
      orig_filepath <- gets quickpreview_output_path ;;
      for_each (seq 0 (List.length queue)) process_item ;;
      setattr Attr.camera orig_cam ;;
      setattr Attr.frame_start orig_start ;;
      setattr Attr.frame_end orig_end ;;
      modify (set_quickpreview_output_path orig_filepath) ;;
      report INFO "Queue complete" ;;
      ret FINISHED
  end.

(** The host's timer tick: it runs the function if it is registered
    and drops the timer when the function returns [None] or raises. *)
Definition timer_tick : M unit :=
  registered <- gets timer_registered ;;
  when registered
    (try_except
       (next <- update_render_progress ;;
        match next with
        | Some _ => ret tt
        | None => modify (set_timer_registered false)
        end)
       (fun _ => modify (set_timer_registered false))).

End AddOn.

(* ================================================================== *)
(** * A concrete host *)
(* ================================================================== *)

(** A writer and a reader for JSON texts with integer numbers, in the
    layout [json.dumps] uses ([", "] and [": "]). *)
Module Json.

Definition quote_string (s : string) : string :=
  String Str.quote
    ((fix esc (s : string) : string :=
        match s with
        | EmptyString => String Str.quote EmptyString
        | String c s' =>
            if Ascii.eqb c Str.quote || Ascii.eqb c "\"%char
            then String "\"%char (String c (esc s'))
            else String c (esc s')
        end) s).

Fixpoint dumps (v : json) : string :=
  match v with
  | JNull => "null"
  | JBool true => "true"
  | JBool false => "false"
  | JInt z => Str.of_Z z
  | JFloat repr => repr
  | JStr s => quote_string s
  | JList items =>
      "[" ++ (fix go (l : list json) : string :=
                match l with
                | [] => ""
                | [x] => dumps x
                | x :: l' => dumps x ++ ", " ++ go l'
                end) items ++ "]"
  | JDict entries =>
      "{" ++ (fix go (l : list (string * json)) : string :=
                match l with
                | [] => ""
                | [(k, x)] => quote_string k ++ ": " ++ dumps x
                | (k, x) :: l' =>
                    quote_string k ++ ": " ++ dumps x ++ ", " ++ go l'
                end) entries ++ "}"
  end%string.

Fixpoint skip_ws (s : string) : string :=
  match s with
  | String c s' =>
      if Ascii.eqb c " "%char || Ascii.eqb c Str.LF then skip_ws s' else s
  | EmptyString => s
  end.

(** The text of a string literal after its opening quote. *)
Fixpoint read_string (s : string) : option (string * string) :=
  match s with
  | EmptyString => None
  | String c s' =>
      if Ascii.eqb c Str.quote then Some (EmptyString, s')
      else if Ascii.eqb c "\"%char then
        match s' with
        | String e s'' =>
            match read_string s'' with
            | Some (t, rest) => Some (String e t, rest)
            | None => None
            end
        | EmptyString => None
        end
      else
        match read_string s' with
        | Some (t, rest) => Some (String c t, rest)
        | None => None
        end
  end.

Fixpoint span_digits (s : string) : string * string :=
  match s with
  | String c s' =>
      if Str.is_digit c
      then let (d, rest) := span_digits s' in (String c d, rest)
      else (EmptyString, s)
  | EmptyString => (EmptyString, s)
  end.

Definition read_int (s : string) : option (Z * string) :=
  let (neg, body) :=
    match s with
    | String "-" s' => (true, s')
    | _ => (false, s)
    end in
  match span_digits body with
  | (EmptyString, _) => None
  | (d, rest) =>
      let n :=
        (fix go (acc : Z) (d : string) : Z :=
           match d with
           | EmptyString => acc
           | String c d' => go (10 * acc + Z.of_nat (Str.digit_val c))%Z d'
           end) 0%Z d in
      Some (if neg then (- n)%Z else n, rest)
  end.

Inductive mode : Type :=
| Value
| Items (acc : list json)
| Members (acc : Dict.t json).

Fixpoint parse (fuel : nat) (m : mode) (s : string) : option (json * string) :=
  match fuel with
  | O => None
  | S fuel' =>
      let s := skip_ws s in
      match m with
      | Value =>
          match s with
          | String "[" rest =>
              match skip_ws rest with
              | String "]" rest' => Some (JList [], rest')
              | _ => parse fuel' (Items []) rest
              end
          | String "{" rest =>
              match skip_ws rest with
              | String "}" rest' => Some (JDict [], rest')
              | _ => parse fuel' (Members []) rest
              end
          | String c rest =>
              if Ascii.eqb c Str.quote then
                match read_string rest with
                | Some (t, rest') => Some (JStr t, rest')
                | None => None
                end
              else
                match Str.strip_prefix "null" s, Str.strip_prefix "true" s,
                      Str.strip_prefix "false" s with
                | Some r, _, _ => Some (JNull, r)
                | _, Some r, _ => Some (JBool true, r)
                | _, _, Some r => Some (JBool false, r)
                | _, _, _ =>
                    match read_int s with
                    | Some (z, r) => Some (JInt z, r)
                    | None => None
                    end
                end
          | EmptyString => None
          end
      | Items acc =>
          match parse fuel' Value s with
          | Some (v, rest) =>
              match skip_ws rest with
              | String "," rest' => parse fuel' (Items (acc ++ [v])) rest'
              | String "]" rest' => Some (JList (acc ++ [v]), rest')
              | _ => None
              end
          | None => None
          end
      | Members acc =>
          match s with
          | String c rest =>
              if Ascii.eqb c Str.quote then
                match read_string rest with
                | Some (k, rest1) =>
                    match skip_ws rest1 with
                    | String ":" rest2 =>
                        match parse fuel' Value rest2 with
                        | Some (v, rest3) =>
                            match skip_ws rest3 with
                            | String "," rest4 =>
                                parse fuel' (Members (Dict.set k v acc)) rest4
                            | String "}" rest4 =>
                                Some (JDict (Dict.set k v acc), rest4)
                            | _ => None
                            end
                        | None => None
                        end
                    | _ => None
                    end
                | None => None
                end
              else None
          | EmptyString => None
          end
      end
  end.

Definition loads (s : string) : option json :=
  match parse (S (2 * String.length s)) Value s with
  | Some (v, rest) =>
      match skip_ws rest with
      | EmptyString => Some v
      | _ => None
      end
  | None => None
  end.

End Json.

(** [fnmatch] with [*] only, which stays inside one path component. *)
Fixpoint wildcard_match (fuel : nat) (pat s : string) : bool :=
  match fuel with
  | O => false
  | S fuel' =>
      match pat, s with
      | EmptyString, EmptyString => true
      | String "*" pat', EmptyString => wildcard_match fuel' pat' s
      | String "*" pat', String c s' =>
          wildcard_match fuel' pat' s
          || (negb (Ascii.eqb c Path.sep) && wildcard_match fuel' pat s')
      | String a pat', String c s' =>
          Ascii.eqb a c && wildcard_match fuel' pat' s'
      | _, _ => false
      end
  end.

Definition simple_glob (files : FS.t) (pattern : string) : list string :=
  map fst
    (filter (fun e =>
               wildcard_match
                 (S (String.length pattern + String.length (fst e)))
                 pattern (fst e))
            files).

(** A renderer that writes one file, named by [render.filepath]. *)
Definition render_to_filepath (r : Rna) : option (list string) :=
  match r Attr.filepath with
  | Some (JStr p) => Some [p]
  | _ => Some []
  end.

Definition demo_host : Host :=
  mkHost Json.loads Json.dumps render_to_filepath simple_glob.

(** The same host with a viewport render that always raises. *)
Definition failing_host : Host :=
  mkHost Json.loads Json.dumps (fun _ => None) simple_glob.

Definition demo_rna : Rna :=
  fun a =>
    match a with
    | Attr.frame_start => Some (JInt 1)
    | Attr.frame_end => Some (JInt 250)
    | Attr.frame_current => Some (JInt 1)
    | Attr.camera => Some (JStr "Camera")
    | Attr.fps => Some (JInt 24)
    | Attr.resolution_percentage => Some (JInt 100)
    | Attr.filepath => Some (JStr "/tmp/")
    | Attr.use_stamp => Some (JBool false)
    | Attr.use_stamp_frame => Some (JBool true)
    | Attr.use_stamp_frame_range => Some (JBool false)
    | Attr.use_stamp_camera => Some (JBool true)
    | Attr.use_stamp_lens => Some (JBool false)
    | Attr.use_stamp_scene => Some (JBool true)
    | Attr.stamp_font_size => Some (JInt 12)
    | Attr.use_stamp_date => Some (JBool true)
    | Attr.use_stamp_time => Some (JBool true)
    | Attr.use_stamp_render_time => Some (JBool true)
    | Attr.use_stamp_memory => Some (JBool false)
    | Attr.use_stamp_hostname => Some (JBool false)
    | Attr.use_stamp_marker => Some (JBool false)
    | Attr.use_stamp_filename => Some (JBool true)
    | Attr.use_sequencer => Some (JBool true)
    | Attr.use_simplify => Some (JBool false)
    | Attr.file_format => Some (JStr "PNG")
    | Attr.color_mode => Some (JStr "RGB")
    | Attr.color_depth => Some (JStr "8")
    | Attr.compression => Some (JInt 15)
    | Attr.quality => Some (JInt 90)
    | Attr.ffmpeg_format => Some (JStr "MKV")
    | Attr.ffmpeg_codec => Some (JStr "H264")
    | Attr.ffmpeg_audio_codec => Some (JStr "NONE")
    | Attr.ffmpeg_constant_rate_factor => Some (JStr "HIGH")
    | Attr.ffmpeg_ffmpeg_preset => Some (JStr "GOOD")
    | Attr.ffmpeg_gopsize => Some (JInt 18)
    | Attr.ffmpeg_use_autosplit => Some (JBool false)
    | Attr.ffmpeg_audio_channels => Some (JStr "STEREO")
    | Attr.ffmpeg_audio_bitrate => Some (JInt 192)
    | Attr.ffmpeg_audio_mixrate => Some (JInt 48000)
    end.

(** The defaults of [register]. *)
Definition default_options : Options :=
  {| quickpreview_use_simplify := false;
     quickpreview_burn_metadata := true;
     quickpreview_metadata_fontsize := 24;
     quickpreview_frame_range := TIMELINE;
     quickpreview_include_camera := true;
     quickpreview_include_scene_name := true;
     quickpreview_full_scene_name := false;
     quickpreview_save_mode := INCREMENTAL;
     quickpreview_override_fps := false;
     quickpreview_fps := 30;
     quickpreview_override_resolution_scale := false;
     quickpreview_resolution_scale := 50;
     quickpreview_open_after_render := false;
     quickpreview_open_output_folder := false;
     quickpreview_output_format := MP4_H264;
     quickpreview_video_quality := MEDIUM;
     quickpreview_image_quality := 90 |}.

(** The items of the enum attributes; the colour modes depend on the
    file format. *)
Definition demo_enum_items (r : Rna) (a : Attr.t) : list string :=
  match a with
  | Attr.file_format =>
      ["BMP"; "IRIS"; "PNG"; "JPEG"; "JPEG2000"; "TARGA"; "TARGA_RAW";
       "CINEON"; "DPX"; "OPEN_EXR_MULTILAYER"; "OPEN_EXR"; "HDR"; "TIFF";
       "WEBP"; "AVI_JPEG"; "AVI_RAW"; "FFMPEG"]
  | Attr.color_mode =>
      match r Attr.file_format with
      | Some (JStr f) =>
          if String.eqb f "JPEG" || String.eqb f "FFMPEG"
          then ["BW"; "RGB"] else ["BW"; "RGB"; "RGBA"]
      | _ => ["BW"; "RGB"; "RGBA"]
      end
  | Attr.color_depth => ["8"; "10"; "12"; "16"; "32"]
  | Attr.ffmpeg_format =>
      ["MPEG1"; "MPEG2"; "MPEG4"; "AVI"; "QUICKTIME"; "DV"; "OGG"; "MKV";
       "FLASH"; "WEBM"]
  | Attr.ffmpeg_codec =>
      ["NONE"; "DNXHD"; "DV"; "FFV1"; "FLASH"; "H264"; "HUFFYUV"; "MPEG1";
       "MPEG2"; "MPEG4"; "PNG"; "QTRLE"; "THEORA"; "WEBM"; "AV1"]
  | Attr.ffmpeg_audio_codec =>
      ["NONE"; "AAC"; "AC3"; "FLAC"; "MP2"; "MP3"; "OPUS"; "PCM"; "VORBIS"]
  | Attr.ffmpeg_constant_rate_factor =>
      ["NONE"; "LOSSLESS"; "PERC_LOSSLESS"; "HIGH"; "MEDIUM"; "LOW";
       "VERYLOW"; "LOWEST"]
  | Attr.ffmpeg_ffmpeg_preset => ["BEST"; "GOOD"; "REALTIME"]
  | Attr.ffmpeg_audio_channels =>
      ["MONO"; "STEREO"; "SURROUND4"; "SURROUND51"; "SURROUND71"]
  | _ => []
  end.

(** The bounds of the integer attributes. *)
Definition demo_int_range (a : Attr.t) : Z * Z :=
  match a with
  | Attr.frame_start | Attr.frame_end => (0, 1048574)
  | Attr.frame_current => (-1048574, 1048574)
  | Attr.fps | Attr.resolution_percentage => (1, 32767)
  | Attr.stamp_font_size => (8, 64)
  | Attr.compression | Attr.quality => (0, 100)
  | Attr.ffmpeg_gopsize => (0, 500)
  | Attr.ffmpeg_audio_bitrate => (32, 384)
  | Attr.ffmpeg_audio_mixrate => (8000, 192000)
  | _ => (-2147483648, 2147483647)
  end%Z.

Definition demo_data : Data :=
  {| is_saved := true;
     blend_filepath := "/proj/shot_v003.blend";
     objects := [("Camera", "CAMERA"); ("Cam2", "CAMERA"); ("Cube", "MESH")];
     sequence_editor := None;
     tempdir := "/tmp/blender_a1";
     system_tempdir := "/tmp";
     clock := 1700000000;
     timers_available := true;
     enum_items := demo_enum_items;
     int_range := demo_int_range;
     unicode_decimal := demo_digits |}.

(** A saved scene with the add-on's defaults. *)
Definition demo_state : State :=
  {| data := demo_data;
     options := default_options;
     rna := demo_rna;
     view_perspective := Some "PERSP";
     quickpreview_progress := 0;
     quickpreview_is_rendering := false;
     quickpreview_output_path := "";
     quickpreview_camera_ranges := "{}";
     quickpreview_camera := "Camera";
     quickpreview_frame_start := 1;
     quickpreview_frame_end := 250;
     quickpreview_queue := [];
     updating := false;
     fs := [("/", FS.Dir); ("/tmp", FS.Dir); ("/tmp/blender_a1", FS.Dir);
            ("/proj", FS.Dir); ("/proj/shot_v003.blend", FS.File)];
     timer_registered := false;
     reports := [];
     rendered := [];
     opened := [] |}.

(** The same scene in a file that was never saved. *)
Definition unsaved_state : State :=
  set_data
    {| is_saved := false;
       blend_filepath := "";
       objects := objects demo_data;
       sequence_editor := None;
       tempdir := tempdir demo_data;
       system_tempdir := system_tempdir demo_data;
       clock := clock demo_data;
       timers_available := true;
       enum_items := demo_enum_items;
       int_range := demo_int_range;
       unicode_decimal := demo_digits |}
    demo_state.

(** The same scene in the middle of a render, at frame 50 of 1-250. *)
Definition rendering_state : State :=
  set_quickpreview_is_rendering true
    (set_rna (rna_set Attr.frame_current (JInt 50) demo_rna) demo_state).

(** The same scene with the preview range 10-20. *)
Definition short_range_state : State :=
  set_quickpreview_frame_start 10 (set_quickpreview_frame_end 20 demo_state).

(** The same scene with a preview range that ends before it starts. *)
Definition reversed_range_state : State :=
  set_quickpreview_frame_start 300 (set_quickpreview_frame_end 250 demo_state).

(** Two stored camera ranges. *)
Definition two_ranges : Dict.t json :=
  [("Camera", JDict [("start", JInt 1); ("end", JInt 250)]);
   ("Cam2", JDict [("start", JInt 10); ("end", JInt 20)])].

Definition two_ranges_state : State :=
  set_quickpreview_camera_ranges (Json.dumps (JDict two_ranges)) demo_state.

(** A backup with the rate factor as a number, the form that the first
    block of [restore_original_settings] maps to an enum value, and a
    changed simplify flag. *)
Definition numeric_rate_backup : Dict.t json :=
  [("ffmpeg_constant_rate_factor", JInt 23); ("use_simplify", JBool true)].

(** The same with the rate factor as the text of a number, which the
    first block maps too and which is no item of the enum. *)
Definition text_rate_backup : Dict.t json :=
  [("ffmpeg_constant_rate_factor", JStr "15"); ("use_simplify", JBool true)].

(** A queue of three items, the second one switched off. *)
Definition demo_queue : list Item.t :=
  [Item.mk "Camera" 1 10 "/proj/out/a_v001.mp4" true PENDING;
   Item.mk "Cam2" 5 6 "/proj/out/b_v001.mp4" false PENDING;
   Item.mk "Cam2" 20 30 "/proj/out/c_v001.mp4" true PENDING].

Definition queue_state : State := set_quickpreview_queue demo_queue demo_state.

(** The same queue in the file that was never saved. *)
Definition unsaved_queue_state : State :=
  set_quickpreview_queue demo_queue unsaved_state.

(** A queue whose first item asks for the second camera. *)
Definition second_camera_queue_state : State :=
  set_quickpreview_queue
    [Item.mk "Cam2" 20 30 "/proj/out/c_v001.mp4" true PENDING;
     Item.mk "Camera" 1 10 "/proj/out/a_v001.mp4" true PENDING]
    demo_state.


(* ================================================================== *)
(** * What can happen to a scene *)
(* ================================================================== *)

(** The update callback that an edited option carries. *)
Inductive option_callback : Type :=
| NoCallback            (* e.g. quickpreview_override_fps *)
| UpdateOutputPath      (* e.g. quickpreview_save_mode *)
| UpdateFrameRange.     (* quickpreview_frame_range *)

Inductive action : Type :=
| Render                                    (* quickpreview.render *)
| ProcessQueue                              (* quickpreview.process_queue *)
| DeleteCameraRange (camera_name : string)  (* quickpreview.delete_camera_range *)
| AddToQueue                                (* quickpreview.add_to_queue *)
| RemoveQueueItem (index : Z)               (* quickpreview.remove_queue_item *)
| ClearQueue                                (* quickpreview.clear_queue *)
| SetOutputPath (filepath : string)         (* quickpreview.set_output_path *)
| TimerTick                                 (* the host runs the timer *)
| PickCamera (name : string)                (* the user edits a property *)
| EditFrameStart (z : Z)
| EditFrameEnd (z : Z)
| EditOptions (o : Options) (cb : option_callback)
| HostEdit (r : Rna) (files : FS.t).        (* the host changes the scene *)

Local Open Scope monad_scope.

Definition perform (H : Host) (a : action) : M unit :=
  match a with
  | Render => render_execute H ;; ret tt
  | ProcessQueue => process_queue_execute H ;; ret tt
  | DeleteCameraRange c => delete_camera_range_execute H c ;; ret tt
  | AddToQueue => add_to_queue_execute ;; ret tt
  | RemoveQueueItem i => remove_queue_item_execute i ;; ret tt
  | ClearQueue => clear_queue_execute ;; ret tt
  | SetOutputPath p => set_output_path_execute p ;; ret tt
  | TimerTick => timer_tick
  | PickCamera c => assign_quickpreview_camera H c
  | EditFrameStart z => assign_quickpreview_frame_start H z
  | EditFrameEnd z => assign_quickpreview_frame_end H z
  | EditOptions o cb =>
      modify (set_options o) ;;
      match cb with
      | NoCallback => ret tt
      | UpdateOutputPath => callback (update_output_path false)
      | UpdateFrameRange => callback (update_frame_range H)
      end
  | HostEdit r files => modify (fun s => set_fs files (set_rna r s))
  end.

(** The scene after an action; what an exception leaves behind stays. *)
Definition run_action (H : Host) (a : action) (s : State) : State :=
  snd (perform H a s).

Inductive reachable (H : Host) (s0 : State) : State -> Prop :=
| reach_start : reachable H s0 s0
| reach_step s a :
    reachable H s0 s -> reachable H s0 (run_action H a s).

Local Close Scope monad_scope.

(* ================================================================== *)
(** * Vocabulary of the properties *)
(* ================================================================== *)

(** A non-empty run of decimal digits. *)
Definition digits (u : Unicode.table) (d : string) : Prop :=
  d <> "" /\ Unicode.decimals u d <> None.

(** [name] is [<base>_v<d><ext>]. *)
Definition versioned (u : Unicode.table) (base ext name d : string) : Prop :=
  base <> "" /\ digits u d /\ name = (base ++ "_v" ++ d ++ ext)%string.

(** [s] is a run of characters of the class [c] followed by [rest]. *)
Inductive run (u : Unicode.table) (c : Re.cclass) : string -> string -> Prop :=
| run_end s : run u c s s
| run_char s s1 rest :
    Re.step u c s = Some s1 -> run u c s1 rest -> run u c s rest.

(** The same with one character at least. *)
Definition run1 (u : Unicode.table) (c : Re.cclass) (s rest : string) : Prop :=
  exists s1, Re.step u c s = Some s1 /\ run u c s1 rest.

(** A byte of a character above U+007F. *)
Definition high (c : ascii) : bool := (128 <=? Utf8.byte c)%N.

(** A byte of a decimal digit. *)
Definition digit_byte (c : ascii) : bool := Str.is_digit c || high c.

(** A character starts where [t] starts. *)
Definition boundary (t : string) : Prop :=
  match t with
  | EmptyString => True
  | String a _ => high a = false
  end.

(** A Hoare triple for [M]: from a state in [P], [m] ends normally in
    a state in [Q a] with result [a], or by an exception in a state in
    [E]. *)
Definition triple {A} (P : State -> Prop) (m : M A)
  (Q : A -> State -> Prop) (E : State -> Prop) : Prop :=
  forall s, P s ->
    match m s with
    | (Ok a, s') => Q a s'
    | (Raise _, s') => E s'
    end.

(** [m] keeps [I], however it ends. *)
Definition preserves {A} (I : State -> Prop) (m : M A) : Prop :=
  triple I m (fun _ => I) I.

(** [m] keeps [I] and raises nothing. *)
Definition safe {A} (I : State -> Prop) (m : M A) : Prop :=
  triple I m (fun _ => I) (fun _ => False).

(** The progress value is a fraction of the whole. *)
Definition progress_ok (s : State) : Prop :=
  (0 <= quickpreview_progress s)%Q /\ (quickpreview_progress s <= 1)%Q.

(** From [s] to [s'] the progress value was left alone or set to
    [0.0] or [1.0]. *)
Definition progress_reset (s s' : State) : Prop :=
  quickpreview_progress s' = quickpreview_progress s
  \/ quickpreview_progress s' = 0%Q
  \/ quickpreview_progress s' = 1%Q.

(** The file name that the output path is documented to end in, for a
    base name, a format and a save mode. *)
Definition documented_output_file (f : output_format) (m : save_mode)
  (base : string) : string :=
  match f, m with
  | MP4_H264, INCREMENTAL => base ++ "_v001" ++ ".mp4"
  | MP4_H264, OVERWRITE => base ++ ".mp4"
  | MOV_H264, INCREMENTAL => base ++ "_v001" ++ ".mov"
  | MOV_H264, OVERWRITE => base ++ ".mov"
  | (PNG_SEQ | JPEG_SEQ), INCREMENTAL =>
      base ++ "_v001/" ++ base ++ "_v001_####"
  | (PNG_SEQ | JPEG_SEQ), OVERWRITE => base ++ "/" ++ base ++ "_####"
  end%string.

(** The renders that [s'] logged beyond those of [s] all ran with the
    frame range [first]-[last]. *)
Definition rendered_with_range (first last : Z) (s s' : State) : Prop :=
  exists new,
    rendered s' = rendered s ++ new
    /\ Forall (fun r => r Attr.frame_start = Some (JInt first)
                        /\ r Attr.frame_end = Some (JInt last)) new.

(** The preview range as the host bounds it. *)
Definition host_frame_start (s : State) : Z :=
  clamp (int_range (data s) Attr.frame_start) (quickpreview_frame_start s).

Definition host_frame_end (s : State) : Z :=
  clamp (int_range (data s) Attr.frame_end) (quickpreview_frame_end s).

(** [z] lies within the bounds. *)
Definition within (range : Z * Z) (z : Z) : Prop :=
  (fst range <= z)%Z /\ (z <= snd range)%Z.

(** The preview range lies within the bounds of the host and is in
    order. *)
Definition range_in_order (s : State) : Prop :=
  within (int_range (data s) Attr.frame_start) (quickpreview_frame_start s)
  /\ within (int_range (data s) Attr.frame_end) (quickpreview_frame_end s)
  /\ (quickpreview_frame_start s <= quickpreview_frame_end s)%Z.

(** What [save_camera_frame_range] stores for a camera. *)
Definition range_entry (s : State) : json :=
  JDict [("start", JInt (quickpreview_frame_start s));
         ("end", JInt (quickpreview_frame_end s))].

(** [json] reads back the text it writes for [v]. *)
Definition reads_back (H : Host) (v : json) : Prop :=
  json_loads H (json_dumps H v) = Some v.

(** ** The steps of [restore_original_settings] *)

Inductive restore_step : Type :=
| RateFactor                                  (* the first block *)
| Field (key : string) (a : Attr.t) (optional : bool)
| Camera.

(** The statements of the [try] block, in order. *)
Definition restore_plan : list restore_step :=
  [RateFactor;
   Field "frame_start" Attr.frame_start false;
   Field "frame_end" Attr.frame_end false;
   Camera;
   Field "fps" Attr.fps false;
   Field "resolution_percentage" Attr.resolution_percentage false;
   Field "filepath" Attr.filepath false;
   Field "file_format" Attr.file_format false;
   Field "color_mode" Attr.color_mode false;
   Field "color_depth" Attr.color_depth false;
   Field "compression" Attr.compression true;
   Field "use_stamp" Attr.use_stamp false;
   Field "use_stamp_frame" Attr.use_stamp_frame false;
   Field "use_stamp_frame_range" Attr.use_stamp_frame_range false;
   Field "use_stamp_camera" Attr.use_stamp_camera false;
   Field "use_stamp_lens" Attr.use_stamp_lens false;
   Field "use_stamp_scene" Attr.use_stamp_scene false;
   Field "stamp_font_size" Attr.stamp_font_size false;
   Field "ffmpeg_format" Attr.ffmpeg_format false;
   Field "ffmpeg_codec" Attr.ffmpeg_codec false;
   Field "ffmpeg_audio_codec" Attr.ffmpeg_audio_codec false;
   Field "ffmpeg_constant_rate_factor" Attr.ffmpeg_constant_rate_factor false;
   Field "ffmpeg_ffmpeg_preset" Attr.ffmpeg_ffmpeg_preset false;
   Field "ffmpeg_gopsize" Attr.ffmpeg_gopsize false;
   Field "ffmpeg_use_autosplit" Attr.ffmpeg_use_autosplit false;
   Field "ffmpeg_audio_channels" Attr.ffmpeg_audio_channels false;
   Field "ffmpeg_audio_bitrate" Attr.ffmpeg_audio_bitrate false;
   Field "audio_mixrate" Attr.ffmpeg_audio_mixrate true;
   Field "use_sequencer" Attr.use_sequencer true;
   Field "use_simplify" Attr.use_simplify false].

(** The attribute a step may write. *)
Definition step_attr (st : restore_step) : Attr.t :=
  match st with
  | RateFactor => Attr.ffmpeg_constant_rate_factor
  | Field _ a _ => a
  | Camera => Attr.camera
  end.

(** One step; the result is what [errors] gains. *)
Definition run_step (settings : Dict.t json) (st : restore_step)
  : M (list string) :=
  match st with
  | RateFactor => bind (restore_constant_rate_factor settings) (fun _ => ret [])
  | Field key a false => bind (restore settings key a) (fun _ => ret [])
  | Field key a true => bind (restore_if_present settings key a) (fun _ => ret [])
  | Camera => restore_camera settings
  end.

(** The [try] block as the run of a plan. *)
Fixpoint run_plan (settings : Dict.t json) (plan : list restore_step)
  (errors : list string) : M bool :=
  match plan with
  | [] => match errors with [] => ret true | _ => ret false end
  | RateFactor :: rest =>
      bind (restore_constant_rate_factor settings)
        (fun _ => run_plan settings rest errors)
  | Field key a false :: rest =>
      bind (restore settings key a) (fun _ => run_plan settings rest errors)
  | Field key a true :: rest =>
      bind (restore_if_present settings key a)
        (fun _ => run_plan settings rest errors)
  | Camera :: rest =>
      bind (restore_camera settings)
        (fun e => run_plan settings rest (errors ++ e))
  end.

(** The steps of a plan ran one after the other from [s] to [s'],
    none raised, and [errors] is what they added to the list. *)
Inductive runs (settings : Dict.t json)
  : list restore_step -> State -> list string -> State -> Prop :=
| runs_nil s : runs settings [] s [] s
| runs_cons st rest s e1 s1 e2 s2 :
    run_step settings st s = (Ok e1, s1) ->
    runs settings rest s1 e2 s2 ->
    runs settings (st :: rest) s (e1 ++ e2) s2.

(** The backup names a camera that the file no longer has. *)
Definition camera_missing (settings : Dict.t json) (s : State) : Prop :=
  exists name,
    Dict.get "camera" settings = Some (JStr name)
    /\ name <> "None" /\ object_exists name s = false.

(** The host has the same attributes in both scenes. *)
Definition same_attributes (s s' : State) : Prop :=
  forall a, rna s' a = None <-> rna s a = None.

(** [s'] is [s] but for attributes. *)
Definition only_rna (s s' : State) : Prop := s' = set_rna (rna s') s.

(** [b] is the other end of the frame range, which a write to [a] may
    move. *)
Definition partner (a b : Attr.t) : Prop :=
  (a = Attr.frame_start /\ b = Attr.frame_end)
  \/ (a = Attr.frame_end /\ b = Attr.frame_start).

(** From [s] to [s'] the stored value of [key] went into the
    attribute [a], if the host has it: it holds what the host made of
    the value. *)
Definition field_applied (settings : Dict.t json) (key : string) (a : Attr.t)
  (s s' : State) : Prop :=
  forall v,
    Dict.get key settings = Some v ->
    rna s a <> None ->
    exists v', accept (data s) (rna s) a v = Some v' /\ rna s' a = Some v'.

(** The stored camera is in place, if the file still has it. *)
Definition camera_applied (settings : Dict.t json) (s : State) : Prop :=
  forall name,
    Dict.get "camera" settings = Some (JStr name) ->
    name <> "None" -> object_exists name s = true ->
    rna s Attr.camera = Some (JStr name).

(** What a step that ended normally has done between [s] and [s']. *)
Definition step_applied (settings : Dict.t json) (st : restore_step)
  (s s' : State) (errors : list string) : Prop :=
  match st with
  | RateFactor => errors = []
  | Field key a _ => errors = [] /\ field_applied settings key a s s'
  | Camera =>
      camera_applied settings s'
      /\ (errors <> [] <-> camera_missing settings s)
  end.

(** A write to [a] may change [b]: [b] is [a] or the other end of the
    frame range. *)
Definition disturbs (a b : Attr.t) : bool :=
  Attr.eqb b a
  || (Attr.eqb a Attr.frame_start && Attr.eqb b Attr.frame_end)
  || (Attr.eqb a Attr.frame_end && Attr.eqb b Attr.frame_start).

(** What a step leaves alone: everything but attributes, and every
    attribute but its own and the other end of the frame range; it
    neither adds nor removes an attribute. *)
Definition step_frame (st : restore_step) (s s' : State) : Prop :=
  only_rna s s'
  /\ (forall b, disturbs (step_attr st) b = false -> rna s' b = rna s b)
  /\ same_attributes s s'.

(** The outcome of a step: an exception changes nothing. *)
Definition step_done (settings : Dict.t json) (st : restore_step) (s : State)
  (out : result (list string) * State) : Prop :=
  let (r, s') := out in
  step_frame st s s'
  /\ match r with
     | Raise _ => s' = s
     | Ok errors => step_applied settings st s s' errors
     end.

(** No later step of the plan changes what a [Camera] step or a
    [Field] step has written; the start of the frame range, which the
    restoration of the end may move, is set aside. *)
Fixpoint settled (plan : list restore_step) : bool :=
  match plan with
  | [] => true
  | st :: rest =>
      match st with
      | RateFactor => true
      | _ =>
          Attr.eqb (step_attr st) Attr.frame_start
          || forallb (fun st' => negb (disturbs (step_attr st') (step_attr st)))
               rest
      end
      && settled rest
  end.

(** Best effort, in the words of the documentation: after the
    restoration every stored field that the host accepts is in
    place. *)
Definition best_effort (settings : Dict.t json) (s : State) : Prop :=
  forall key a opt v v',
    In (Field key a opt) restore_plan ->
    Dict.get key settings = Some v ->
    rna s a <> None ->
    accept (data s) (rna s) a v = Some v' ->
    rna (snd (restore_original_settings settings s)) a = Some v'.

Definition restore_warning : string :=
  "Some settings may not have been completely restored. Check the console for details.".

(** No item of the queue [q0] has become FAILED in [s]. *)
Definition no_new_failure (q0 : list Item.t) (s : State) : Prop :=
  Forall2
    (fun before after =>
       Item.status_ after = FAILED -> Item.status_ before = FAILED)
    q0 (quickpreview_queue s).

(* ================================================================== *)
(** * Running a computation forwards *)
(* ================================================================== *)

(** [m], started in [s], ends normally with a result and a state in
    [Q], or by an exception in a state in [E]. *)
Definition wp {A} (m : M A) (Q : A -> State -> Prop) (E : State -> Prop)
  (s : State) : Prop :=
  match m s with
  | (Ok a, s') => Q a s'
  | (Raise _, s') => E s'
  end.

(* ================================================================== *)
(** * The outcome of a render *)
(* ================================================================== *)

(** The progress value that belongs to a result. *)
Definition progress_of (r : op_result) : Q :=
  match r with FINISHED => 1%Q | CANCELLED => 0%Q end.

(** The report that belongs to a result. *)
Definition result_report (r : op_result) (msg : report_type * string) : Prop :=
  match r with
  | FINISHED => exists name, msg = (INFO, "Preview saved to: " ++ name)%string
  | CANCELLED => exists e, msg = (ERROR, "Rendering failed: " ++ e)%string
  end.

(** The viewport renders that belong to a result: one for FINISHED,
    one at most for CANCELLED. *)
Definition result_renders (r : op_result) (before after : list Rna) : Prop :=
  match r with
  | FINISHED => exists x, after = before ++ [x]
  | CANCELLED => after = before \/ exists x, after = before ++ [x]
  end.

(* ================================================================== *)
(** * What a viewport render runs with *)
(* ================================================================== *)

(** The enum value of [ffmpeg.constant_rate_factor] for a quality. *)
Definition quality_name (q : video_quality) : string :=
  match q with HIGH => "HIGH" | MEDIUM => "MEDIUM" | LOW => "LOW" end.

(** The integer that the host keeps when [z] is assigned to [a]. *)
Definition host_int (d : Data) (a : Attr.t) (z : Z) : json :=
  JInt (clamp (int_range d a) z).

(** The attributes that the output format asks for. *)
Definition format_attributes (d : Data) (o : Options) (r : Rna) : Prop :=
  match quickpreview_output_format o with
  | PNG_SEQ => r Attr.file_format = Some (JStr "PNG")
  | JPEG_SEQ =>
      r Attr.file_format = Some (JStr "JPEG")
      /\ r Attr.quality
         = Some (host_int d Attr.quality (quickpreview_image_quality o))
  | MP4_H264 =>
      r Attr.file_format = Some (JStr "FFMPEG")
      /\ r Attr.ffmpeg_format = Some (JStr "MPEG4")
      /\ r Attr.ffmpeg_codec = Some (JStr "H264")
      /\ r Attr.ffmpeg_constant_rate_factor
         = Some (JStr (quality_name (quickpreview_video_quality o)))
  | MOV_H264 =>
      r Attr.file_format = Some (JStr "FFMPEG")
      /\ r Attr.ffmpeg_format = Some (JStr "QUICKTIME")
      /\ r Attr.ffmpeg_codec = Some (JStr "H264")
      /\ r Attr.ffmpeg_constant_rate_factor
         = Some (JStr (quality_name (quickpreview_video_quality o)))
  end.

(** The metadata stamp that the burn-in option asks for. *)
Definition stamp_attributes (d : Data) (o : Options) (r : Rna) : Prop :=
  if quickpreview_burn_metadata o then
    Forall (fun a => r a = Some (JBool true))
      [Attr.use_stamp; Attr.use_stamp_frame; Attr.use_stamp_frame_range;
       Attr.use_stamp_camera; Attr.use_stamp_lens; Attr.use_stamp_scene]
    /\ Forall (fun a => r a = Some (JBool false))
         [Attr.use_stamp_date; Attr.use_stamp_time; Attr.use_stamp_render_time;
          Attr.use_stamp_memory; Attr.use_stamp_hostname;
          Attr.use_stamp_marker; Attr.use_stamp_filename]
    /\ r Attr.stamp_font_size
       = Some (host_int d Attr.stamp_font_size
                 (quickpreview_metadata_fontsize o))
  else r Attr.use_stamp = Some (JBool false).

(** The frame rate and the resolution scale, where they are overridden. *)
Definition override_attributes (d : Data) (o : Options) (r : Rna) : Prop :=
  (quickpreview_override_fps o = true ->
   r Attr.fps = Some (host_int d Attr.fps (quickpreview_fps o)))
  /\ (quickpreview_override_resolution_scale o = true ->
      r Attr.resolution_percentage
      = Some (host_int d Attr.resolution_percentage
                (quickpreview_resolution_scale o))).

(** The chosen camera, when it is an object of the file. *)
Definition camera_attribute (s : State) (r : Rna) : Prop :=
  quickpreview_camera s <> "VIEWPORT" ->
  object_exists (quickpreview_camera s) s = true ->
  r Attr.camera = Some (JStr (quickpreview_camera s)).

(** The attributes [r] are what the options of [s] ask for. *)
Definition rendered_as_chosen (s : State) (r : Rna) : Prop :=
  r Attr.use_simplify = Some (JBool (quickpreview_use_simplify (options s)))
  /\ format_attributes (data s) (options s) r
  /\ stamp_attributes (data s) (options s) r
  /\ override_attributes (data s) (options s) r
  /\ camera_attribute s r
  /\ r Attr.ffmpeg_audio_codec = Some (JStr "AAC").

(* ================================================================== *)
(** * The backup and the scene *)
(* ================================================================== *)







(* ================================================================== *)
(** * Properties *)
(* ================================================================== *)

(** ** Sanity checks of the library models *)

Example dirname_ex : Path.dirname "/a/b/c_v001.mov" = "/a/b".
Proof. reflexivity. Qed.
Example basename_ex : Path.basename "/a/b/c_v001.mov" = "c_v001.mov".
Proof. reflexivity. Qed.
Example splitext_ex : Path.splitext "/a.b/c_v001.mov" = ("/a.b/c_v001", ".mov").
Proof. reflexivity. Qed.
Example splitext_hidden : Path.splitext "/a.b/.bashrc" = ("/a.b/.bashrc", "").
Proof. reflexivity. Qed.
Example format_ex : Str.format_03d 7 = "007" /\ Str.format_03d (-7) = "-07"
                    /\ Str.format_03d 1234 = "1234" /\ Str.format_03d 0 = "000".
Proof. repeat split; reflexivity. Qed.
Example next_version_ex1 :
  get_next_version_number demo_digits demo_fs "/out/shot_v001.mov" ".mov"
  = 10%nat.
Proof. reflexivity. Qed.
Example next_version_ex2 :
  get_next_version_number demo_digits demo_fs "/out/shot_v001.mp4" ".mp4" = 4%nat.
Proof. reflexivity. Qed.
Example next_version_ex3 :
  get_next_version_number demo_digits demo_fs "/out/shot_v1_v001.mov" ".mov" = 3%nat.
Proof. reflexivity. Qed.
Example next_version_ex4 :
  get_next_version_number demo_digits demo_fs "/nowhere/shot_v001.mov" ".mov" = 1%nat.
Proof. reflexivity. Qed.
Example next_version_ex5 :
  get_next_version_number demo_digits demo_fs "/out/shot.mov" ".mov" = 1%nat.
Proof. reflexivity. Qed.
Example base_pattern_ex :
  Re.re_match demo_digits (base_pattern ".mov") "a_v1_v22.mov" = Some ["a_v1"].
Proof. reflexivity. Qed.

Local Open Scope string_scope.

(** ** Reasoning about computations *)

Section Logic.

Local Open Scope monad_scope.

Context {A B : Type}.

Lemma triple_conseq (P P' : State -> Prop) (m : M A)
  (Q Q' : A -> State -> Prop) (E E' : State -> Prop) :
  triple P' m Q' E' ->
  (forall s, P s -> P' s) ->
  (forall a s, Q' a s -> Q a s) ->
  (forall s, E' s -> E s) ->
  triple P m Q E.
Proof.
  intros T HP HQ HE s Hs. specialize (T s (HP s Hs)).
  destruct (m s) as [[a|e] s']; auto.
Qed.

Lemma triple_ret (P : State -> Prop) (a : A) Q E :
  (forall s, P s -> Q a s) -> triple P (ret a) Q E.
Proof. intros HQ s Hs. simpl. auto. Qed.

Lemma triple_raise (P : State -> Prop) msg (Q : A -> State -> Prop) E :
  (forall s, P s -> E s) -> triple P (raise msg) Q E.
Proof. intros HE s Hs. simpl. auto. Qed.

Lemma triple_gets (P : State -> Prop) (f : State -> A) Q E :
  (forall s, P s -> Q (f s) s) -> triple P (gets f) Q E.
Proof. intros HQ s Hs. simpl. auto. Qed.

Lemma triple_bind (P : State -> Prop) (m : M A) (f : A -> M B)
  (R : A -> State -> Prop) (Q : B -> State -> Prop) E :
  triple P m R E ->
  (forall a, triple (R a) (f a) Q E) ->
  triple P (bind m f) Q E.
Proof.
  intros Tm Tf s Hs. unfold bind. specialize (Tm s Hs).
  destruct (m s) as [[a|e] s']; [apply (Tf a s' Tm) | exact Tm].
Qed.

Lemma triple_try_except (P : State -> Prop) (body : M A) handler
  (Q : A -> State -> Prop) E E' :
  triple P body Q E' ->
  (forall e, triple E' (handler e) Q E) ->
  triple P (try_except body handler) Q E.
Proof.
  intros Tb Th s Hs. unfold try_except. specialize (Tb s Hs).
  destruct (body s) as [[a|e] s']; [exact Tb | apply (Th e s' Tb)].
Qed.

Lemma triple_try_finally (P : State -> Prop) (body : M A) (fin : M unit)
  (Q Q' : A -> State -> Prop) (E E' : State -> Prop) :
  triple P body Q' E' ->
  (forall a, triple (Q' a) fin (fun _ => Q a) E) ->
  triple E' fin (fun _ => E) E ->
  triple P (try_finally body fin) Q E.
Proof.
  intros Tb Tq Te s Hs. unfold try_finally. specialize (Tb s Hs).
  destruct (body s) as [[a|e] s'].
  - specialize (Tq a s' Tb). now destruct (fin s') as [[[]|e'] s''].
  - specialize (Te s' Tb). now destruct (fin s') as [[[]|e'] s''].
Qed.

End Logic.

Lemma triple_modify (P : State -> Prop) (f : State -> State) Q E :
  (forall s, P s -> Q tt (f s)) -> triple P (modify f) Q E.
Proof. intros HQ s Hs. simpl. auto. Qed.

Section Invariants.

Local Open Scope monad_scope.

Variable I : State -> Prop.

Lemma preserves_ret {A} (a : A) : preserves I (ret a).
Proof. now apply triple_ret. Qed.

Lemma preserves_raise {A} msg : preserves I (@raise A msg).
Proof. now apply triple_raise. Qed.

Lemma preserves_gets {A} (f : State -> A) : preserves I (gets f).
Proof. now apply triple_gets. Qed.

Lemma preserves_modify f :
  (forall s, I s -> I (f s)) -> preserves I (modify f).
Proof. intros. now apply triple_modify. Qed.

Lemma preserves_bind {A B} (m : M A) (f : A -> M B) :
  preserves I m -> (forall a, preserves I (f a)) -> preserves I (bind m f).
Proof. intros. now apply triple_bind with (R := fun _ => I). Qed.

Lemma preserves_try_except {A} (body : M A) handler :
  preserves I body -> (forall e, preserves I (handler e)) ->
  preserves I (try_except body handler).
Proof. intros. now apply triple_try_except with (E' := I). Qed.

Lemma preserves_try_finally {A} (body : M A) fin :
  preserves I body -> preserves I fin -> preserves I (try_finally body fin).
Proof.
  intros. now apply triple_try_finally with (Q' := fun _ => I) (E' := I).
Qed.

Lemma preserves_when b m : preserves I m -> preserves I (when b m).
Proof. destruct b; simpl; auto using preserves_ret. Qed.

Lemma preserves_callback m : preserves I m -> preserves I (callback m).
Proof.
  intros. apply preserves_try_except; auto using preserves_ret.
Qed.

Lemma preserves_triple {A} (m : M A) :
  preserves I m -> triple I m (fun _ => I) I.
Proof. exact (fun T => T). Qed.

Lemma preserves_snd {A} (m : M A) s :
  preserves I m -> I s -> I (snd (m s)).
Proof. intros T Hs. specialize (T s Hs). now destruct (m s) as [[a|e] s']. Qed.

Lemma safe_preserves {A} (m : M A) : safe I m -> preserves I m.
Proof. intros T. apply (triple_conseq _ _ _ _ _ _ _ T); tauto. Qed.

Lemma safe_ret {A} (a : A) : safe I (ret a).
Proof. now apply triple_ret. Qed.

Lemma safe_gets {A} (f : State -> A) : safe I (gets f).
Proof. now apply triple_gets. Qed.

Lemma safe_modify f : (forall s, I s -> I (f s)) -> safe I (modify f).
Proof. intros. now apply triple_modify. Qed.

Lemma safe_bind {A B} (m : M A) (f : A -> M B) :
  safe I m -> (forall a, safe I (f a)) -> safe I (bind m f).
Proof. intros. now apply triple_bind with (R := fun _ => I). Qed.

Lemma safe_try_except {A} (body : M A) handler :
  preserves I body -> (forall e, safe I (handler e)) ->
  safe I (try_except body handler).
Proof. intros. now apply triple_try_except with (E' := I). Qed.

Lemma safe_try_finally {A} (body : M A) fin :
  safe I body -> safe I fin -> safe I (try_finally body fin).
Proof.
  intros Hb Hf.
  apply triple_try_finally
    with (Q' := fun _ => I) (E' := fun _ => False); auto.
  now intros s [].
Qed.

Lemma safe_when b m : safe I m -> safe I (when b m).
Proof. destruct b; simpl; auto using safe_ret. Qed.

Lemma safe_callback m : preserves I m -> safe I (callback m).
Proof. intros. apply safe_try_except; auto using safe_ret. Qed.

End Invariants.

(** ** The primitive computations *)

Section HostStore.

Lemma rna_set_other a b v r : b <> a -> rna_set a v r b = r b.
Proof.
  intros N. unfold rna_set, Attr.eqb. now destruct (Attr.eq_dec b a).
Qed.

Lemma rna_set_same a v r : rna_set a v r a = Some v.
Proof. unfold rna_set, Attr.eqb. now destruct (Attr.eq_dec a a). Qed.

(** The host stores the value, and moves the other end of the frame
    range at most. *)
Lemma host_store_cases a v r :
  host_store a v r = rna_set a v r
  \/ (exists z b, v = JInt z /\ partner a b
                  /\ r b <> None
                  /\ host_store a v r = rna_set b (JInt z) (rna_set a v r)).
Proof.
  unfold host_store, partner.
  destruct a; auto; destruct v; auto.
  - destruct (r Attr.frame_end) as [[]|] eqn:E; auto.
    destruct (_ <? _)%Z; auto.
    right. exists z, Attr.frame_end. rewrite E. repeat split; auto; discriminate.
  - destruct (r Attr.frame_start) as [[]|] eqn:E; auto.
    destruct (_ <? _)%Z; auto.
    right. exists z, Attr.frame_start. rewrite E.
    repeat split; auto; discriminate.
Qed.

Lemma host_store_same a v r : host_store a v r a = Some v.
Proof.
  destruct (host_store_cases a v r) as [->|(z & b & -> & P & _ & ->)].
  - apply rna_set_same.
  - rewrite rna_set_other, rna_set_same; [reflexivity|].
    destruct P as [[-> ->]|[-> ->]]; discriminate.
Qed.

Lemma host_store_other a b v r :
  b <> a -> ~ partner a b -> host_store a v r b = r b.
Proof.
  intros N P.
  destruct (host_store_cases a v r) as [->|(z & b' & -> & P' & _ & ->)].
  - now apply rna_set_other.
  - rewrite !rna_set_other; auto.
    intros ->. auto.
Qed.

Lemma host_store_none a b v r :
  r a <> None -> (host_store a v r b = None <-> r b = None).
Proof.
  intros Ha.
  destruct (host_store_cases a v r) as [->|(z & b' & -> & P' & Hb & ->)].
  - unfold rna_set. destruct (Attr.eqb b a) eqn:E; [|tauto].
    unfold Attr.eqb in E. destruct (Attr.eq_dec b a) as [->|]; [|discriminate].
    split; [discriminate|tauto].
  - unfold rna_set. destruct (Attr.eqb b b') eqn:E.
    + unfold Attr.eqb in E. destruct (Attr.eq_dec b b') as [->|]; [|discriminate].
      split; [discriminate|tauto].
    + destruct (Attr.eqb b a) eqn:E2; [|tauto].
      unfold Attr.eqb in E2. destruct (Attr.eq_dec b a) as [->|]; [|discriminate].
      split; [discriminate|tauto].
Qed.


End HostStore.

Section Primitives.

Variable I : State -> Prop.

Lemma preserves_report ty msg :
  (forall s l, I s -> I (set_reports l s)) -> preserves I (report ty msg).
Proof. intros St. apply preserves_modify. auto. Qed.

Lemma safe_report ty msg :
  (forall s l, I s -> I (set_reports l s)) -> safe I (report ty msg).
Proof. intros St. apply safe_modify. auto. Qed.

Lemma preserves_hasattr a : preserves I (hasattr a).
Proof. apply preserves_gets. Qed.

Lemma preserves_getattr a : preserves I (getattr a).
Proof. intros s Hs. unfold getattr. now destruct (rna s a). Qed.

Lemma preserves_getattr_int a : preserves I (getattr_int a).
Proof.
  apply preserves_bind; [apply preserves_getattr|].
  intros []; auto using preserves_ret, preserves_raise.
Qed.

Lemma preserves_setattr a v :
  (forall s v', I s -> rna s a <> None ->
                I (set_rna (host_store a v' (rna s)) s)) ->
  preserves I (setattr a v).
Proof.
  intros St s Hs. unfold setattr. destruct (rna s a) eqn:R; [|exact Hs].
  destruct (accept _ _ a v); auto. apply St; congruence.
Qed.

Lemma preserves_write_file path :
  (forall s p, I s -> I (set_fs (FS.add p FS.File (fs s)) s)) ->
  preserves I (write_file path).
Proof.
  intros St s Hs. unfold write_file.
  destruct (FS.lookup (fs s) (Path.dirname path)) as [[]|]; auto.
  destruct (FS.lookup (fs s) path) as [[]|]; auto.
Qed.

Lemma preserves_os_makedirs d :
  (forall s d', I s -> I (set_fs (FS.makedirs d' (fs s)) s)) ->
  preserves I (os_makedirs d).
Proof.
  intros St s Hs. unfold os_makedirs.
  destruct (negb (Str.nonempty d)); [exact Hs|].
  destruct (blocked_by_file _ d (fs s)); auto.
Qed.

Lemma preserves_ensure_directory d :
  (forall s d', I s -> I (set_fs (FS.makedirs d' (fs s)) s)) ->
  preserves I (ensure_directory d).
Proof.
  intros St. apply preserves_bind; [apply preserves_gets|].
  intros ex. apply preserves_when. now apply preserves_os_makedirs.
Qed.

Lemma preserves_int_property_value v : preserves I (int_property_value v).
Proof. destruct v; simpl; auto using preserves_ret, preserves_raise. Qed.

Lemma preserves_py_contains k c : preserves I (py_contains k c).
Proof. destruct c; simpl; auto using preserves_ret, preserves_raise. Qed.

Lemma preserves_py_getitem c k : preserves I (py_getitem c k).
Proof.
  destruct c; simpl; auto using preserves_raise.
  destruct (Dict.get k entries); auto using preserves_ret, preserves_raise.
Qed.

Lemma preserves_py_setitem c k v : preserves I (py_setitem c k v).
Proof. destruct c; simpl; auto using preserves_ret, preserves_raise. Qed.

Lemma preserves_py_delitem c k : preserves I (py_delitem c k).
Proof.
  destruct c; simpl; auto using preserves_raise.
  destruct (Dict.mem k entries); auto using preserves_ret, preserves_raise.
Qed.

Lemma preserves_opengl H :
  (forall s l, I s -> I (set_rendered (l ++ [rna s]) s)) ->
  (forall s f, I s -> I (set_fs f s)) ->
  preserves I (bpy_ops_render_opengl H).
Proof.
  intros Sl Sf s Hs. unfold bpy_ops_render_opengl.
  destruct (render_opengl H (rna s)); auto.
Qed.

Lemma preserves_for_each positions body :
  (forall i, preserves I (body i)) -> preserves I (for_each positions body).
Proof.
  intros Hb. induction positions as [|i rest IH]; simpl.
  - apply preserves_ret.
  - apply preserves_bind; auto.
Qed.

End Primitives.

(** One step of a proof that a computation keeps an invariant: a rule
    of the logic, a case analysis, or the unfolding of a function of
    the add-on.  [side] settles the conditions on the invariant. *)
Ltac keeps_step side :=
  lazymatch goal with
  | |- preserves _ (bind _ _) => apply preserves_bind; [|intros]
  | |- preserves _ (ret _) => apply preserves_ret
  | |- preserves _ (raise _) => apply preserves_raise
  | |- preserves _ (gets _) => apply preserves_gets
  | |- preserves _ (modify _) => apply preserves_modify; side
  | |- preserves _ (try_except _ _) =>
      apply preserves_try_except; [|intros]
  | |- preserves _ (try_finally _ _) => apply preserves_try_finally
  | |- preserves _ (when _ _) => apply preserves_when
  | |- preserves _ (callback _) => apply preserves_callback
  | |- preserves _ (report _ _) => apply preserves_report; side
  | |- preserves _ (hasattr _) => apply preserves_hasattr
  | |- preserves _ (getattr _) => apply preserves_getattr
  | |- preserves _ (getattr_int _) => apply preserves_getattr_int
  | |- preserves _ (setattr _ _) => apply preserves_setattr; side
  | |- preserves _ (write_file _) => apply preserves_write_file; side
  | |- preserves _ (ensure_directory _) =>
      apply preserves_ensure_directory; side
  | |- preserves _ (os_makedirs _) => apply preserves_os_makedirs; side
  | |- preserves _ (int_property_value _) => apply preserves_int_property_value
  | |- preserves _ (py_contains _ _) => apply preserves_py_contains
  | |- preserves _ (py_getitem _ _) => apply preserves_py_getitem
  | |- preserves _ (py_setitem _ _ _) => apply preserves_py_setitem
  | |- preserves _ (py_delitem _ _) => apply preserves_py_delitem
  | |- preserves _ (bpy_ops_render_opengl _) =>
      apply preserves_opengl; side
  | |- preserves _ (for_each _ _) => apply preserves_for_each; intros
  | |- preserves _ (if ?b then _ else _) => destruct b
  | |- preserves _ (match ?x with _ => _ end) => destruct x
  | |- preserves _ (let _ := _ in _) => cbv zeta
  | |- preserves _ ((fun _ => _) _) => cbv beta
  | |- preserves _ ?m =>
      let h := lazymatch m with
               | ?f _ _ _ _ => f | ?f _ _ _ => f | ?f _ _ => f | ?f _ => f
               | ?f => f
               end in
      unfold h
  end.

Ltac keeps side := repeat (keeps_step side).

(** The same for computations that raise nothing. *)
Ltac safe_step side :=
  lazymatch goal with
  | |- safe _ (bind _ _) => apply safe_bind; [|intros]
  | |- safe _ (ret _) => apply safe_ret
  | |- safe _ (gets _) => apply safe_gets
  | |- safe _ (modify _) => apply safe_modify; side
  | |- safe _ (try_except _ _) =>
      apply safe_try_except; [keeps side|intros]
  | |- safe _ (try_finally _ _) => apply safe_try_finally
  | |- safe _ (when _ _) => apply safe_when
  | |- safe _ (callback _) => apply safe_callback; keeps side
  | |- safe _ (report _ _) => apply safe_report; side
  | |- safe _ (hasattr _) => apply safe_gets
  | |- safe _ (if ?b then _ else _) => destruct b
  | |- safe _ (match ?x with _ => _ end) => destruct x
  | |- safe _ (let _ := _ in _) => cbv zeta
  | |- safe _ ((fun _ => _) _) => cbv beta
  | |- safe _ ?m =>
      let h := lazymatch m with
               | ?f _ _ _ _ => f | ?f _ _ _ => f | ?f _ _ => f | ?f _ => f
               | ?f => f
               end in
      unfold h
  end.

Ltac safes side := repeat (safe_step side).

(** ** Incremental version numbers *)

Section StringFacts.

Lemma length_app (a b : string) :
  String.length (a ++ b) = (String.length a + String.length b)%nat.
Proof. induction a as [|c a IH]; simpl; [reflexivity | now rewrite IH]. Qed.

Lemma app_assoc_s (a b c : string) : (a ++ b) ++ c = a ++ (b ++ c).
Proof. induction a as [|x a IH]; simpl; [reflexivity | now rewrite IH]. Qed.

Lemma app_empty_r (a : string) : a ++ "" = a.
Proof. induction a as [|x a IH]; simpl; [reflexivity | now rewrite IH]. Qed.

Lemma app_inv_head (a b c : string) : a ++ b = a ++ c -> b = c.
Proof. induction a as [|x a IH]; simpl; intros H; [assumption | injection H; auto]. Qed.

Lemma app_eq_length (a b c d : string) :
  a ++ b = c ++ d -> String.length a = String.length c -> a = c /\ b = d.
Proof.
  revert c; induction a as [|x a IH]; intros [|y c]; simpl; intros H L;
    try discriminate; [now split|].
  injection H as -> H. injection L as L.
  destruct (IH _ H L) as [-> ->]. now split.
Qed.

Lemma app_inv_tail (a b c : string) : a ++ c = b ++ c -> a = b.
Proof.
  intros H. apply (app_eq_length a c b c H).
  apply (f_equal String.length) in H. rewrite !length_app in H. lia.
Qed.

(** Two ways of splitting one text: the shorter head is a prefix of
    the longer one. *)
Lemma app_eq_split (a b c d : string) :
  a ++ b = c ++ d -> (String.length a <= String.length c)%nat ->
  exists m, c = a ++ m /\ b = m ++ d.
Proof.
  revert c; induction a as [|x a IH]; intros c H L; simpl in *.
  - exists c. now split.
  - destruct c as [|y c]; simpl in *; [lia|].
    injection H as -> H. destruct (IH c H ltac:(lia)) as (m & -> & ->).
    exists m. now split.
Qed.

Lemma all_chars_app p (a b : string) :
  Str.all_chars p (a ++ b) = Str.all_chars p a && Str.all_chars p b.
Proof.
  induction a as [|x a IH]; simpl; [reflexivity|].
  now rewrite IH, andb_assoc.
Qed.

Lemma strip_prefix_app (p r : string) : Str.strip_prefix p (p ++ r) = Some r.
Proof.
  induction p as [|a p IH]; simpl; [reflexivity|].
  now rewrite Ascii.eqb_refl.
Qed.

Lemma strip_prefix_some (p s r : string) :
  Str.strip_prefix p s = Some r -> s = p ++ r.
Proof.
  revert s; induction p as [|a p IH]; intros s; simpl.
  - now intros [= ->].
  - destruct s as [|b s]; [discriminate|].
    destruct (Ascii.eqb_spec a b) as [->|]; [|discriminate].
    intros H. now rewrite (IH _ H).
Qed.

Lemma take_app_length (a b : string) : Str.take (String.length a) (a ++ b) = a.
Proof. induction a as [|x a IH]; simpl; [now destruct b | now rewrite IH]. Qed.

End StringFacts.

Section DecodeFacts.

Ltac bools H :=
  repeat rewrite ?andb_true_iff, ?orb_true_iff, ?negb_true_iff,
    ?andb_false_iff, ?orb_false_iff, ?negb_false_iff,
    ?N.leb_le, ?N.ltb_lt, ?N.eqb_eq, ?N.eqb_neq, ?N.leb_gt, ?N.ltb_ge in H.

Lemma continuation_high b : Utf8.continuation b = true -> high b = true.
Proof.
  unfold Utf8.continuation, high. intros C. bools C. apply N.leb_le. lia.
Qed.

(** What [decode] takes from a text: one byte below 128, one byte
    that stands alone, or the bytes of a character above U+007F, all
    128 or more, which decode to it whatever follows. *)
Lemma decode_shape s x rest :
  Utf8.decode s = Some (x, rest) ->
  exists ch, s = ch ++ rest /\ ch <> ""
    /\ ((exists b, ch = String b "" /\ high b = false
                   /\ x = Utf8.Char (Utf8.byte b))
        \/ (exists b, ch = String b "" /\ high b = true /\ x = Utf8.Stray b)
        \/ (exists cp, x = Utf8.Char cp /\ (128 <= cp)%N
                       /\ Str.all_chars high ch = true
                       /\ forall t, Utf8.decode (ch ++ t)
                                    = Some (Utf8.Char cp, t))).
Proof.
  unfold Utf8.decode. destruct s as [|b0 s1]; [discriminate|].
  assert (forall r0 : string,
            (Utf8.byte b0 <? 128)%N = false ->
            Some (Utf8.Stray b0, s1) = Some (x, r0) ->
            exists ch, String b0 s1 = ch ++ r0 /\ ch <> ""
              /\ ((exists b, ch = String b "" /\ high b = false
                             /\ x = Utf8.Char (Utf8.byte b))
                  \/ (exists b, ch = String b "" /\ high b = true
                                /\ x = Utf8.Stray b)
                  \/ (exists cp, x = Utf8.Char cp /\ (128 <= cp)%N
                        /\ Str.all_chars high ch = true
                        /\ forall t, Utf8.decode (ch ++ t)
                                     = Some (Utf8.Char cp, t)))) as Stray.
  { intros r0 A [= <- <-]. exists (String b0 "").
    split; [reflexivity|]. split; [discriminate|]. right. left.
    exists b0. repeat split. unfold high. bools A. apply N.leb_le. lia. }
  destruct (Utf8.byte b0 <? 128)%N eqn:A.
  { intros [= <- <-]. exists (String b0 "").
    split; [reflexivity|]. split; [discriminate|]. left.
    exists b0. repeat split. unfold high. bools A. apply N.leb_gt. lia. }
  destruct ((194 <=? Utf8.byte b0)%N && (Utf8.byte b0 <? 224)%N) eqn:B2.
  { destruct s1 as [|b1 s2]; [now apply Stray|].
    destruct (Utf8.continuation b1) eqn:C1; [|now apply Stray].
    intros [= <- <-]. exists (String b0 (String b1 "")).
    split; [reflexivity|]. split; [discriminate|]. right. right.
    eexists. split; [reflexivity|].
    pose proof (continuation_high _ C1) as H1.
    unfold Utf8.continuation in C1. bools B2. bools C1.
    split; [lia|]. split.
    - cbn. rewrite H1. unfold high.
      replace (128 <=? Utf8.byte b0)%N with true
        by (symmetry; apply N.leb_le; lia). reflexivity.
    - intros t. cbn [append]. unfold Utf8.decode. rewrite A.
      replace ((194 <=? Utf8.byte b0)%N && (Utf8.byte b0 <? 224)%N) with true
        by (symmetry; apply andb_true_iff; split;
            [apply N.leb_le|apply N.ltb_lt]; lia).
      unfold Utf8.continuation.
      replace ((128 <=? Utf8.byte b1)%N && (Utf8.byte b1 <? 192)%N) with true
        by (symmetry; apply andb_true_iff; split;
            [apply N.leb_le|apply N.ltb_lt]; lia).
      reflexivity. }
  destruct ((224 <=? Utf8.byte b0)%N && (Utf8.byte b0 <? 240)%N) eqn:B3.
  { destruct s1 as [|b1 [|b2 s3]]; [now apply Stray|now apply Stray|].
    destruct (Utf8.continuation b1 && Utf8.continuation b2
              && (negb (Utf8.byte b0 =? 224)%N || (160 <=? Utf8.byte b1)%N)
              && (negb (Utf8.byte b0 =? 237)%N || (Utf8.byte b1 <? 160)%N))
      eqn:C; [|now apply Stray].
    intros [= <- <-]. exists (String b0 (String b1 (String b2 ""))).
    split; [reflexivity|]. split; [discriminate|]. right. right.
    eexists. split; [reflexivity|].
    pose proof C as C'.
    apply andb_true_iff in C' as [C' _]. apply andb_true_iff in C' as [C' G].
    apply andb_true_iff in C' as [C1 C2].
    pose proof (continuation_high _ C1) as H1.
    pose proof (continuation_high _ C2) as H2.
    unfold Utf8.continuation in C1, C2. bools B3. bools C1. bools C2. bools G.
    split; [lia|]. split.
    - cbn. rewrite H1, H2. unfold high.
      replace (128 <=? Utf8.byte b0)%N with true
        by (symmetry; apply N.leb_le; lia). reflexivity.
    - intros t. cbn [append]. unfold Utf8.decode. rewrite A, B2.
      replace ((224 <=? Utf8.byte b0)%N && (Utf8.byte b0 <? 240)%N) with true
        by (symmetry; apply andb_true_iff; split;
            [apply N.leb_le|apply N.ltb_lt]; lia).
      rewrite C. reflexivity. }
  destruct ((240 <=? Utf8.byte b0)%N && (Utf8.byte b0 <? 245)%N) eqn:B4;
    [|now apply Stray].
  destruct s1 as [|b1 [|b2 [|b3 s4]]];
    [now apply Stray|now apply Stray|now apply Stray|].
  destruct (Utf8.continuation b1 && Utf8.continuation b2
            && Utf8.continuation b3
            && (negb (Utf8.byte b0 =? 240)%N || (144 <=? Utf8.byte b1)%N)
            && (negb (Utf8.byte b0 =? 244)%N || (Utf8.byte b1 <? 144)%N))
    eqn:C; [|now apply Stray].
  intros [= <- <-]. exists (String b0 (String b1 (String b2 (String b3 "")))).
  split; [reflexivity|]. split; [discriminate|]. right. right.
  eexists. split; [reflexivity|].
  pose proof C as C'.
  apply andb_true_iff in C' as [C' _]. apply andb_true_iff in C' as [C' G].
  apply andb_true_iff in C' as [C' C3]. apply andb_true_iff in C' as [C1 C2].
  pose proof (continuation_high _ C1) as H1.
  pose proof (continuation_high _ C2) as H2.
  pose proof (continuation_high _ C3) as H3.
  unfold Utf8.continuation in C1, C2, C3.
  bools B4. bools C1. bools C2. bools C3. bools G.
  split; [lia|]. split.
  - cbn. rewrite H1, H2, H3. unfold high.
    replace (128 <=? Utf8.byte b0)%N with true
      by (symmetry; apply N.leb_le; lia). reflexivity.
  - intros t. cbn [append]. unfold Utf8.decode. rewrite A, B2, B3.
    replace ((240 <=? Utf8.byte b0)%N && (Utf8.byte b0 <? 245)%N) with true
      by (symmetry; apply andb_true_iff; split;
          [apply N.leb_le|apply N.ltb_lt]; lia).
    rewrite C. reflexivity.
Qed.

Lemma decode_shorter s x rest :
  Utf8.decode s = Some (x, rest) ->
  (String.length rest < String.length s)%nat.
Proof.
  intros D. destruct (decode_shape _ _ _ D) as (ch & -> & Hne & _).
  rewrite length_app. destruct ch; [congruence|simpl; lia].
Qed.

Lemma decode_some s : s <> "" -> Utf8.decode s <> None.
Proof.
  destruct s as [|b0 s1]; [congruence|]. intros _. unfold Utf8.decode.
  repeat match goal with
         | |- context [if ?b then _ else _] => destruct b
         | |- context [match ?x with EmptyString => _ | String _ _ => _ end] =>
             destruct x
         end; discriminate.
Qed.

(** A character above U+007F does not reach into a text that starts
    with a byte below 128. *)
Lemma high_prefix ch : forall rest base t,
  ch ++ rest = base ++ t ->
  Str.all_chars high ch = true -> boundary t ->
  exists m, base = ch ++ m /\ rest = m ++ t.
Proof.
  induction ch as [|x ch IH]; intros rest base t E Hh Ht.
  - exists base. auto.
  - simpl in Hh. apply andb_true_iff in Hh as [Hx Hh].
    destruct base as [|y base]; simpl in E.
    + subst t. simpl in Ht. congruence.
    + injection E as -> E. destruct (IH _ _ _ E Hh Ht) as (m & -> & ->).
      exists m. auto.
Qed.

Lemma byte_line_feed b : Ascii.eqb b Str.LF = false -> Utf8.byte b <> 10%N.
Proof.
  intros E Hb. apply Ascii.eqb_neq in E. apply E.
  rewrite <- (ascii_N_embedding b). unfold Utf8.byte in Hb. now rewrite Hb.
Qed.

End DecodeFacts.

Section RegexFacts.

Variable u : Unicode.table.
Variable c : Re.cclass.
Variable k : Re.cont.

Lemma step_shorter s s1 :
  Re.step u c s = Some s1 -> (String.length s1 < String.length s)%nat.
Proof.
  unfold Re.step. destruct (Utf8.decode s) as [[x rest]|] eqn:D; [|discriminate].
  destruct (Re.in_class u c x); [|discriminate]. intros [= <-].
  eapply decode_shorter; eauto.
Qed.

Lemma step_suffix s s1 :
  Re.step u c s = Some s1 -> exists ch, ch <> "" /\ s = ch ++ s1.
Proof.
  unfold Re.step. destruct (Utf8.decode s) as [[x rest]|] eqn:D; [|discriminate].
  destruct (Re.in_class u c x); [|discriminate]. intros [= <-].
  destruct (decode_shape _ _ _ D) as (ch & -> & Hne & _). eauto.
Qed.

Lemma run_suffix s rest : run u c s rest -> exists d, s = d ++ rest.
Proof.
  induction 1 as [s|s s1 rest St _ [d ->]].
  - now exists "".
  - destruct (step_suffix _ _ St) as (ch & _ & ->).
    exists (ch ++ d). now rewrite app_assoc_s.
Qed.

Lemma run1_suffix s rest :
  run1 u c s rest -> exists d, d <> "" /\ s = d ++ rest.
Proof.
  intros (s1 & St & R). destruct (step_suffix _ _ St) as (ch & Hne & ->).
  destruct (run_suffix _ _ R) as [d ->].
  exists (ch ++ d). rewrite app_assoc_s. split; [|reflexivity].
  destruct ch; [congruence|discriminate].
Qed.

Lemma run_run1 s rest : run u c s rest -> s <> rest -> run1 u c s rest.
Proof.
  intros R N. destruct R as [s|s s1 rest St R]; [congruence|].
  exists s1. auto.
Qed.

Lemma greedy_fuel_sound n : forall s r,
  Re.greedy_fuel u n c k s = Some r ->
  exists rest, run u c s rest /\ k rest = Some r.
Proof.
  induction n as [|n IH]; intros s r; simpl.
  - intros K. exists s. split; [constructor|assumption].
  - destruct (Re.step u c s) as [s1|] eqn:St.
    + destruct (Re.greedy_fuel u n c k s1) as [r'|] eqn:G.
      * intros [= <-]. destruct (IH _ _ G) as (rest & R & K).
        exists rest. split; [econstructor; eauto|assumption].
      * intros K. exists s. split; [constructor|assumption].
    + intros K. exists s. split; [constructor|assumption].
Qed.

Lemma greedy_fuel_complete n : forall s rest r,
  (String.length s <= n)%nat ->
  run u c s rest ->
  k rest = Some r ->
  (forall rest', run u c s rest' -> k rest' <> None -> rest' = rest) ->
  Re.greedy_fuel u n c k s = Some r.
Proof.
  induction n as [|n IH]; intros s rest r L R K U; simpl.
  - destruct R as [s|s s1 rest St R]; [assumption|].
    apply step_shorter in St. lia.
  - destruct (Re.step u c s) as [s1|] eqn:St.
    + destruct (Re.greedy_fuel u n c k s1) as [r'|] eqn:G.
      * destruct (greedy_fuel_sound _ _ _ G) as (rest2 & R2 & K2).
        assert (rest2 = rest) as ->.
        { apply U; [econstructor; eauto|congruence]. }
        congruence.
      * destruct R as [s|s s1' rest St' R]; [assumption|].
        assert (s1' = s1) as -> by congruence.
        enough (@None Re.outcome = Some r) by discriminate.
        rewrite <- G. apply (IH s1 rest r); auto.
        -- apply step_shorter in St. lia.
        -- intros rest' R' K'. apply U; [econstructor; eauto|assumption].
    + destruct R as [s|s s1 rest St' R]; [assumption|congruence].
Qed.

Lemma lazy_fuel_sound n : forall s r,
  Re.lazy_fuel u n c k s = Some r ->
  exists rest, run u c s rest /\ k rest = Some r.
Proof.
  induction n as [|n IH]; intros s r; simpl.
  - destruct (k s) eqn:K; [|discriminate]. intros [= <-].
    exists s. split; [constructor|assumption].
  - destruct (k s) eqn:K.
    + intros [= <-]. exists s. split; [constructor|assumption].
    + destruct (Re.step u c s) as [s1|] eqn:St; [|discriminate].
      intros L. destruct (IH _ _ L) as (rest & R & K').
      exists rest. split; [econstructor; eauto|assumption].
Qed.

Lemma lazy_fuel_complete s rest : run u c s rest -> forall n r,
  (String.length s <= n)%nat ->
  k rest = Some r ->
  (forall rest', run u c s rest' -> k rest' <> None -> rest' = rest) ->
  Re.lazy_fuel u n c k s = Some r.
Proof.
  induction 1 as [s|s s1 rest St R IH]; intros n r L K U.
  - destruct n; simpl; now rewrite K.
  - destruct (k s) as [r'|] eqn:Ks.
    + assert (s = rest) as E by (apply U; [constructor|congruence]).
      subst s. destruct n; simpl; rewrite Ks; congruence.
    + pose proof (step_shorter _ _ St) as Sh.
      destruct n as [|n]; [lia|]. simpl. rewrite Ks, St.
      apply IH; [lia|assumption|].
      intros rest' R' K'. apply U; [econstructor; eauto|assumption].
Qed.

Lemma plus_sound s r :
  Re.match_one u (Re.Plus c) k s = Some r ->
  exists rest, run1 u c s rest /\ k rest = Some r.
Proof.
  simpl. destruct (Re.step u c s) as [s1|] eqn:St; [|discriminate].
  intros G. destruct (greedy_fuel_sound _ _ _ G) as (rest & R & K).
  exists rest. split; [exists s1; auto|assumption].
Qed.

Lemma plus_complete s rest r :
  run1 u c s rest ->
  k rest = Some r ->
  (forall p rest', s = p ++ rest' -> k rest' <> None -> rest' = rest) ->
  Re.match_one u (Re.Plus c) k s = Some r.
Proof.
  intros (s1 & St & R) K U. simpl. rewrite St.
  apply (greedy_fuel_complete _ s1 rest); auto.
  intros rest' R' K'.
  destruct (step_suffix _ _ St) as (ch & _ & ->).
  destruct (run_suffix _ _ R') as [d ->].
  apply (U (ch ++ d)); [now rewrite app_assoc_s|assumption].
Qed.

Lemma lazy_plus_sound s r :
  Re.match_one u (Re.LazyPlus c) k s = Some r ->
  exists rest, run1 u c s rest /\ k rest = Some r.
Proof.
  simpl. destruct (Re.step u c s) as [s1|] eqn:St; [|discriminate].
  intros G. destruct (lazy_fuel_sound _ _ _ G) as (rest & R & K).
  exists rest. split; [exists s1; auto|assumption].
Qed.

Lemma lazy_plus_complete s rest r :
  run1 u c s rest ->
  k rest = Some r ->
  (forall p rest', s = p ++ rest' -> k rest' <> None -> rest' = rest) ->
  Re.match_one u (Re.LazyPlus c) k s = Some r.
Proof.
  intros (s1 & St & R) K U. simpl. rewrite St.
  apply (lazy_fuel_complete s1 rest); auto.
  intros rest' R' K'.
  destruct (step_suffix _ _ St) as (ch & _ & ->).
  destruct (run_suffix _ _ R') as [d ->].
  apply (U (ch ++ d)); [now rewrite app_assoc_s|assumption].
Qed.

End RegexFacts.

Section Runs.

Variable u : Unicode.table.

(** Any text without line feed is a run of [.], up to a place where a
    character starts. *)
Lemma dot_run t : boundary t -> forall n base,
  (String.length base <= n)%nat ->
  Str.no_newline base = true ->
  run u Re.Dot (base ++ t) t.
Proof.
  intros Ht. induction n as [|n IH]; intros base L Hnl.
  - destruct base; [constructor|simpl in L; lia].
  - destruct base as [|b0 base']; [constructor|].
    destruct (Utf8.decode (String b0 base' ++ t)) as [[x rest]|] eqn:D;
      [|now apply decode_some in D].
    destruct (decode_shape _ _ _ D)
      as (ch & E & Hne & [(b & -> & Hb & ->)|[(b & -> & Hb & ->)|(cp & -> & Hcp & Hh & _)]]).
    + simpl in E. injection E as <- <-.
      unfold Str.no_newline in Hnl. simpl in Hnl.
      apply andb_true_iff in Hnl as [Hb0 Hnl].
      apply run_char with (s1 := base' ++ t).
      * unfold Re.step. rewrite D. simpl.
        apply negb_true_iff in Hb0. apply byte_line_feed in Hb0.
        now apply N.eqb_neq in Hb0 as ->.
      * apply IH; [simpl in L; lia|exact Hnl].
    + simpl in E. injection E as <- <-.
      unfold Str.no_newline in Hnl. simpl in Hnl.
      apply andb_true_iff in Hnl as [_ Hnl].
      apply run_char with (s1 := base' ++ t).
      * unfold Re.step. rewrite D. reflexivity.
      * apply IH; [simpl in L; lia|exact Hnl].
    + symmetry in E. destruct (high_prefix _ _ _ _ E Hh Ht) as (m & Eb & ->).
      apply run_char with (s1 := m ++ t).
      * unfold Re.step. rewrite D. simpl.
        assert (cp <> 10%N) as N10 by lia. now apply N.eqb_neq in N10 as ->.
      * apply IH.
        -- apply (f_equal String.length) in Eb. rewrite length_app in Eb.
           destruct ch; [congruence|]. simpl in Eb, L. lia.
        -- rewrite Eb in Hnl. unfold Str.no_newline in *.
           rewrite all_chars_app in Hnl. now apply andb_true_iff in Hnl.
Qed.

Lemma decimals_fuel_enough n : forall m d,
  (String.length d <= n)%nat -> (String.length d <= m)%nat ->
  Unicode.decimals_fuel u n d = Unicode.decimals_fuel u m d.
Proof.
  induction n as [|n IH]; intros m d Ln Lm.
  - destruct d; [now destruct m|simpl in Ln; lia].
  - destruct d as [|b0 d']; [now destruct m|].
    destruct m as [|m]; [simpl in Lm; lia|].
    cbn [Unicode.decimals_fuel].
    destruct (Utf8.decode (String b0 d')) as [[[cp|] rest]|] eqn:D; auto.
    apply decode_shorter in D. simpl in D, Ln, Lm.
    rewrite (IH m rest) by lia. reflexivity.
Qed.

Lemma decimals_cons ch cp v d :
  (forall t, Utf8.decode (ch ++ t) = Some (Utf8.Char cp, t)) ->
  ch <> "" ->
  Unicode.decimal u cp = Some v ->
  Unicode.decimals u (ch ++ d)
  = match Unicode.decimals u d with
    | Some vs => Some (v :: vs)
    | None => None
    end.
Proof.
  intros Hd Hne Hv. unfold Unicode.decimals. rewrite length_app.
  destruct ch as [|b ch]; [congruence|].
  cbn [String.length Nat.add append Unicode.decimals_fuel].
  change (String b (ch ++ d)) with (String b ch ++ d). rewrite Hd, Hv.
  rewrite (decimals_fuel_enough _ (String.length d) d) by lia.
  reflexivity.
Qed.

(** The first character of a text that decodes, given whatever
    follows. *)
Lemma decode_char s cp rest :
  Utf8.decode s = Some (Utf8.Char cp, rest) ->
  exists ch, s = ch ++ rest /\ ch <> ""
    /\ (forall t, Utf8.decode (ch ++ t) = Some (Utf8.Char cp, t))
    /\ ((exists b, ch = String b "" /\ high b = false /\ cp = Utf8.byte b)
        \/ Str.all_chars high ch = true).
Proof.
  intros D.
  destruct (decode_shape _ _ _ D)
    as (ch & E & Hne & [(b & -> & Hb & [= ->])|[(b & _ & _ & [=])|(cp' & [= <-] & _ & Hh & Hd)]]).
  - exists (String b ""). repeat split; auto.
    + intros t. cbn [append]. unfold Utf8.decode.
      unfold high in Hb. apply N.leb_gt in Hb. apply N.ltb_lt in Hb.
      now rewrite Hb.
    + left. eauto.
  - exists ch. repeat split; auto.
Qed.

Lemma digits_run rest : forall n d,
  (String.length d <= n)%nat ->
  Unicode.decimals u d <> None ->
  run u Re.Digit (d ++ rest) rest.
Proof.
  induction n as [|n IH]; intros d L Hd.
  - destruct d; [constructor|simpl in L; lia].
  - destruct d as [|b0 d']; [constructor|].
    unfold Unicode.decimals in Hd. cbn [String.length Unicode.decimals_fuel] in Hd.
    destruct (Utf8.decode (String b0 d')) as [[[cp|] d1]|] eqn:D;
      try congruence.
    destruct (Unicode.decimal u cp) as [v|] eqn:V; [|congruence].
    destruct (Unicode.decimals_fuel u (String.length d') d1) eqn:F;
      [|congruence].
    pose proof (decode_shorter _ _ _ D) as Sh.
    destruct (decode_char _ _ _ D) as (ch & E & Hne & Hch & _).
    rewrite E, app_assoc_s.
    apply run_char with (s1 := d1 ++ rest).
    + unfold Re.step. rewrite Hch. simpl. now rewrite V.
    + apply IH; [simpl in Sh, L; lia|].
      unfold Unicode.decimals.
      rewrite (decimals_fuel_enough _ (String.length d') d1);
        [congruence|lia|simpl in Sh; lia].
Qed.

Lemma digits_run1 d rest : digits u d -> run1 u Re.Digit (d ++ rest) rest.
Proof.
  intros [Hne Hd]. apply run_run1.
  - now apply (digits_run rest (String.length d)).
  - intros E. apply (f_equal String.length) in E. rewrite length_app in E.
    destruct d; [congruence|simpl in E; lia].
Qed.

Lemma run_digits s rest :
  run u Re.Digit s rest ->
  exists d, s = d ++ rest /\ Unicode.decimals u d <> None.
Proof.
  induction 1 as [s|s s1 rest St R (d & -> & Hd)].
  - exists "". split; [reflexivity|discriminate].
  - unfold Re.step in St.
    destruct (Utf8.decode s) as [[[cp|] r0]|] eqn:D; try discriminate.
    cbn [Re.in_class] in St.
    destruct (Unicode.decimal u cp) as [v|] eqn:V; [|discriminate].
    injection St as ->.
    destruct (decode_char _ _ _ D) as (ch & -> & Hne & Hch & _).
    exists (ch ++ d). split; [now rewrite app_assoc_s|].
    rewrite (decimals_cons _ _ _ _ Hch Hne V).
    now destruct (Unicode.decimals u d).
Qed.

Lemma run1_digits s rest :
  run1 u Re.Digit s rest -> exists d, digits u d /\ s = d ++ rest.
Proof.
  intros R. destruct (run1_suffix _ _ _ _ R) as (d0 & Hne & E).
  destruct R as (s1 & St & R).
  assert (run u Re.Digit s rest) as R' by (econstructor; eauto).
  destruct (run_digits _ _ R') as (d & -> & Hd).
  exists d. split; [|reflexivity]. split; [|assumption].
  apply app_inv_tail in E. now subst d0.
Qed.

(** The bytes of a run of digits are digits or bytes of characters
    above U+007F. *)
Lemma digits_bytes : forall n d,
  (String.length d <= n)%nat ->
  Unicode.decimals u d <> None ->
  Str.all_chars digit_byte d = true.
Proof.
  induction n as [|n IH]; intros d L Hd.
  - destruct d; [reflexivity|simpl in L; lia].
  - destruct d as [|b0 d']; [reflexivity|].
    unfold Unicode.decimals in Hd. cbn [String.length Unicode.decimals_fuel] in Hd.
    destruct (Utf8.decode (String b0 d')) as [[[cp|] d1]|] eqn:D;
      try congruence.
    destruct (Unicode.decimal u cp) as [v|] eqn:V; [|congruence].
    destruct (Unicode.decimals_fuel u (String.length d') d1) eqn:F;
      [|congruence].
    pose proof (decode_shorter _ _ _ D) as Sh.
    destruct (decode_char _ _ _ D) as (ch & E & Hne & _ & Hb).
    rewrite E, all_chars_app. apply andb_true_iff. split.
    + destruct Hb as [(b & -> & Hb & ->)|Hh].
      * cbn. rewrite andb_true_r. unfold digit_byte. apply orb_true_iff. left.
        unfold Unicode.decimal in V. unfold high in Hb.
        apply N.leb_gt in Hb. apply N.ltb_lt in Hb. rewrite Hb in V.
        destruct ((48 <=? Utf8.byte b)%N && (Utf8.byte b <=? 57)%N) eqn:C;
          [|discriminate].
        apply andb_true_iff in C as [C1 C2].
        apply N.leb_le in C1, C2.
        unfold Str.is_digit, nat_of_ascii. unfold Utf8.byte in C1, C2.
        apply andb_true_iff. split; apply Nat.leb_le; lia.
      * clear - Hh. induction ch as [|x ch IHc]; [reflexivity|].
        simpl in *. apply andb_true_iff in Hh as [Hx Hh].
        unfold digit_byte. rewrite Hx, orb_true_r. simpl. auto.
    + apply IH; [simpl in Sh, L; lia|].
      unfold Unicode.decimals.
      rewrite (decimals_fuel_enough _ (String.length d') d1);
        [congruence|lia|simpl in Sh; lia].
Qed.

End Runs.

Section VersionPatterns.

Variable u : Unicode.table.

Lemma at_eol_no_newline t :
  Re.at_eol t = true -> Str.no_newline t = true -> t = "".
Proof.
  destruct t as [|a [|b t]]; [reflexivity| |discriminate].
  unfold Str.no_newline. cbn [Re.at_eol Str.all_chars].
  intros H1 H2. rewrite H1 in H2. discriminate H2.
Qed.

Lemma no_newline_app a b :
  Str.no_newline (a ++ b) = true ->
  Str.no_newline a = true /\ Str.no_newline b = true.
Proof. unfold Str.no_newline. rewrite all_chars_app. apply andb_true_iff. Qed.

Lemma no_newline_intro a b :
  Str.no_newline a = true -> Str.no_newline b = true ->
  Str.no_newline (a ++ b) = true.
Proof.
  unfold Str.no_newline. rewrite all_chars_app. intros -> ->. reflexivity.
Qed.

Lemma tail_sound ext s r :
  Re.match_seq u [Re.Lit ext; Re.Eol] s = Some r ->
  exists t, s = ext ++ t /\ Re.at_eol t = true /\ r = ([], t).
Proof.
  simpl. destruct (Str.strip_prefix ext s) as [t|] eqn:P; [|discriminate].
  destruct (Re.at_eol t) eqn:E; [|discriminate].
  intros [= <-]. exists t. apply strip_prefix_some in P. auto.
Qed.

Lemma tail_complete ext :
  Re.match_seq u [Re.Lit ext; Re.Eol] ext = Some ([], "").
Proof.
  simpl. rewrite <- (app_empty_r ext) at 2.
  now rewrite strip_prefix_app.
Qed.

(** In a text without line feed, what follows the digits is exactly
    the extension. *)
Lemma tail_unique ext s :
  Str.no_newline s = true ->
  Re.match_seq u [Re.Lit ext; Re.Eol] s <> None -> s = ext.
Proof.
  intros Hnl H. destruct (Re.match_seq u _ s) as [r|] eqn:M; [|congruence].
  destruct (tail_sound _ _ _ M) as (t & -> & Ht & _).
  apply no_newline_app in Hnl as [_ Hnl].
  rewrite (at_eol_no_newline _ Ht Hnl). apply app_empty_r.
Qed.

Lemma digit_byte_underscore : digit_byte "_"%char = false.
Proof. reflexivity. Qed.

(** [<base>_v<digits>] splits in one way only. *)
Lemma versioned_split_le b d b' d' :
  b ++ "_v" ++ d = b' ++ "_v" ++ d' ->
  Str.all_chars digit_byte d = true ->
  (String.length b <= String.length b')%nat ->
  b = b' /\ d = d'.
Proof.
  intros E Hd L. destruct (app_eq_split _ _ _ _ E L) as (m & -> & E').
  destruct m as [|x [|y m]]; simpl in E'.
  - injection E' as ->. now rewrite app_empty_r.
  - injection E' as _ E'. discriminate E'.
  - injection E' as _ _ ->. rewrite all_chars_app in Hd.
    apply andb_true_iff in Hd as [_ Hd].
    cbn [Str.all_chars append] in Hd.
    rewrite digit_byte_underscore in Hd. discriminate.
Qed.

Lemma versioned_split_unique b d b' d' :
  b ++ "_v" ++ d = b' ++ "_v" ++ d' ->
  digits u d -> digits u d' ->
  b = b' /\ d = d'.
Proof.
  intros E [_ Hd] [_ Hd'].
  apply (digits_bytes u _ _ (Nat.le_refl _)) in Hd, Hd'.
  destruct (Nat.le_ge_cases (String.length b) (String.length b')) as [L|L].
  - now apply versioned_split_le.
  - symmetry in E. destruct (versioned_split_le _ _ _ _ E Hd' L). now split.
Qed.

Lemma consumed_app d rest : Re.consumed (d ++ rest) rest = d.
Proof.
  unfold Re.consumed. rewrite length_app.
  replace (String.length d + String.length rest - String.length rest)%nat
    with (String.length d) by lia.
  apply take_app_length.
Qed.

Lemma match_seq_lit l p s :
  Re.match_seq u (Re.Lit l :: p) s =
  match Str.strip_prefix l s with
  | Some rest => Re.match_seq u p rest
  | None => None
  end.
Proof. reflexivity. Qed.

Lemma match_seq_step r p s :
  Re.match_seq u (r :: p) s = Re.match_one u r (Re.match_seq u p) s.
Proof. reflexivity. Qed.

Lemma match_one_group r k s :
  Re.match_one u (Re.Group r) k s =
  Re.match_one u r
    (fun rest =>
       match k rest with
       | Some (caps, final) => Some (Re.consumed s rest :: caps, final)
       | None => None
       end) s.
Proof. reflexivity. Qed.

(** A line feed is no digit. *)
Lemma no_newline_digits d : digits u d -> Str.no_newline d = true.
Proof.
  intros [_ Hd]. apply (digits_bytes u _ _ (Nat.le_refl _)) in Hd.
  unfold Str.no_newline.
  induction d as [|a d IH]; simpl in *; [reflexivity|].
  apply andb_true_iff in Hd as [Ha Hd]. rewrite (IH Hd), andb_true_r.
  destruct (Ascii.eqb_spec a Str.LF) as [->|]; [discriminate Ha|reflexivity].
Qed.

Lemma version_pattern_sound base ext f g gs :
  Str.no_newline f = true ->
  Re.re_match u (version_pattern base ext) f = Some (g :: gs) ->
  digits u g /\ f = base ++ "_v" ++ g ++ ext.
Proof.
  intros Hnl. unfold Re.re_match, version_pattern.
  destruct (Re.match_seq u _ f) as [[caps final]|] eqn:M; [|discriminate].
  simpl. intros [= ->]. rewrite match_seq_lit in M.
  destruct (Str.strip_prefix base f) as [s1|] eqn:P1; [|discriminate M].
  apply strip_prefix_some in P1. subst f. rewrite match_seq_lit in M.
  destruct (Str.strip_prefix "_v" s1) as [s2|] eqn:P2; [|discriminate M].
  apply strip_prefix_some in P2. subst s1.
  rewrite match_seq_step, match_one_group in M.
  apply plus_sound in M as (rest & R & Hk).
  destruct (run1_digits _ _ _ R) as (d & Hd & ->).
  destruct (Re.match_seq u _ rest) as [[caps' final']|] eqn:T; [|discriminate Hk].
  injection Hk as <- <- <-. rewrite consumed_app.
  assert (rest = ext) as ->.
  { apply tail_unique; [|congruence].
    apply no_newline_app in Hnl as [_ Hnl].
    apply no_newline_app in Hnl as [_ Hnl].
    now apply no_newline_app in Hnl as [_ Hnl]. }
  repeat split; auto; apply Hd.
Qed.

Lemma version_pattern_complete base ext d :
  Str.no_newline ext = true ->
  digits u d ->
  Re.re_match u (version_pattern base ext) (base ++ "_v" ++ d ++ ext)
  = Some [d].
Proof.
  intros Hnl Hd. unfold Re.re_match, version_pattern.
  rewrite match_seq_lit, strip_prefix_app, match_seq_lit, strip_prefix_app.
  rewrite match_seq_step, match_one_group.
  rewrite (plus_complete u Re.Digit _ (d ++ ext) ext ([d], ""));
    auto using digits_run1.
  - now rewrite tail_complete, consumed_app.
  - intros p rest' E Hk.
    apply tail_unique.
    + assert (Str.no_newline (d ++ ext) = true) as H
        by (apply no_newline_intro; auto using no_newline_digits).
      rewrite E in H. now apply no_newline_app in H.
    + destruct (Re.match_seq u [Re.Lit ext; Re.Eol] rest'); congruence.
Qed.

(** The tail [_v\d+<ext>$] of the base pattern. *)
Lemma base_tail_sound ext s r :
  Str.no_newline s = true ->
  Re.match_seq u [Re.Lit "_v"; Re.Plus Re.Digit; Re.Lit ext; Re.Eol] s
  = Some r ->
  exists d, digits u d /\ s = "_v" ++ d ++ ext /\ r = ([], "").
Proof.
  intros Hnl M. rewrite match_seq_lit in M.
  destruct (Str.strip_prefix "_v" s) as [s2|] eqn:P2; [|discriminate M].
  apply strip_prefix_some in P2. subst s.
  rewrite match_seq_step in M.
  apply plus_sound in M as (rest & R & Hk).
  destruct (run1_digits _ _ _ R) as (d & Hd & ->).
  apply no_newline_app in Hnl as [_ Hnl].
  apply no_newline_app in Hnl as [_ Hnl].
  assert (rest = ext) as -> by (apply tail_unique; [assumption|congruence]).
  rewrite tail_complete in Hk. injection Hk as <-.
  exists d. repeat split; auto; apply Hd.
Qed.

Lemma base_tail_complete ext d :
  Str.no_newline ext = true ->
  digits u d ->
  Re.match_seq u [Re.Lit "_v"; Re.Plus Re.Digit; Re.Lit ext; Re.Eol]
    ("_v" ++ d ++ ext) = Some ([], "").
Proof.
  intros Hnl Hd.
  rewrite match_seq_lit, strip_prefix_app, match_seq_step.
  apply plus_complete with (rest := ext); auto using tail_complete, digits_run1.
  intros p rest' E Hk. apply tail_unique; [|assumption].
  assert (Str.no_newline (d ++ ext) = true) as H
    by (apply no_newline_intro; auto using no_newline_digits).
  rewrite E in H. now apply no_newline_app in H.
Qed.

Lemma base_pattern_sound ext name g gs :
  Str.no_newline name = true ->
  Re.re_match u (base_pattern ext) name = Some (g :: gs) ->
  exists d, versioned u g ext name d.
Proof.
  intros Hnl. unfold Re.re_match, base_pattern.
  destruct (Re.match_seq u _ name) as [[caps final]|] eqn:M; [|discriminate].
  simpl. intros [= ->]. rewrite match_seq_step, match_one_group in M.
  apply lazy_plus_sound in M as (rest & R & Hk).
  destruct (run1_suffix _ _ _ _ R) as (b & Hne & ->).
  destruct (Re.match_seq u _ rest) as [r|] eqn:T; [|discriminate Hk].
  apply no_newline_app in Hnl as [_ Hnl].
  destruct (base_tail_sound _ _ _ Hnl T) as (d & Hd & -> & ->).
  injection Hk as <- <- <-. rewrite consumed_app.
  exists d. repeat split; auto; apply Hd.
Qed.

Lemma base_pattern_complete base ext name d :
  Str.no_newline name = true ->
  versioned u base ext name d ->
  Re.re_match u (base_pattern ext) name = Some [base].
Proof.
  intros Hnl (Hne & Hd & ->). unfold Re.re_match, base_pattern.
  rewrite match_seq_step, match_one_group.
  pose proof Hnl as Hnl'.
  apply no_newline_app in Hnl' as [Hb Hrest].
  pose proof Hrest as Hrest'.
  apply no_newline_app in Hrest' as [_ Hde].
  apply no_newline_app in Hde as [_ He].
  rewrite (lazy_plus_complete u Re.Dot _ _ ("_v" ++ d ++ ext) ([base], "")).
  - reflexivity.
  - apply run_run1.
    + apply (dot_run u ("_v" ++ d ++ ext) eq_refl (String.length base));
        auto.
    + intros E. apply (f_equal String.length) in E. rewrite length_app in E.
      destruct base; [congruence|simpl in E; lia].
  - now rewrite base_tail_complete, consumed_app.
  - intros b' rest' E Hk.
    destruct (Re.match_seq u _ rest') as [r|] eqn:T; [|congruence].
    assert (Str.no_newline rest' = true) as Hnl2
      by (rewrite E in Hnl; now apply no_newline_app in Hnl).
    destruct (base_tail_sound _ _ _ Hnl2 T) as (d' & Hd' & -> & _).
    assert (base ++ "_v" ++ d = b' ++ "_v" ++ d') as E2.
    { apply (app_inv_tail _ _ ext). now rewrite !app_assoc_s. }
    destruct (versioned_split_unique _ _ _ _ E2) as [_ ->]; auto.
Qed.

End VersionPatterns.

Section NextVersion.

Variable u : Unicode.table.

Lemma list_max_in (l : list nat) : l <> [] -> In (list_max l) l.
Proof.
  induction l as [|x l IH]; [congruence|]. intros _.
  destruct l as [|y l]; simpl in *.
  - left. lia.
  - destruct (Nat.max_spec x (Nat.max y (list_max l))) as [[_ ->]|[_ ->]].
    + right. apply IH. discriminate.
    + now left.
Qed.

Lemma list_max_ge (l : list nat) v : In v l -> (v <= list_max l)%nat.
Proof.
  intros H. assert (Forall (fun k => (k <= list_max l)%nat) l) as F
    by now apply list_max_le.
  rewrite Forall_forall in F. auto.
Qed.

Lemma listdir_exists fs d names :
  FS.listdir fs d = Some names -> FS.exists_ fs d = true.
Proof.
  unfold FS.listdir, FS.exists_. now destruct (FS.lookup fs d) as [[]|].
Qed.

Lemma collect_versions_in base ext names v :
  Str.no_newline ext = true ->
  Forall (fun n => Str.no_newline n = true) names ->
  In v (collect_versions u (version_pattern base ext) names) <->
  exists n d, In n names /\ digits u d
              /\ n = base ++ "_v" ++ d ++ ext
              /\ v = Unicode.int_of_digits u d.
Proof.
  intros He. induction 1 as [|n names Hn Hall IH]; cbn [collect_versions In].
  - split; [tauto|]. now intros (? & ? & [] & _).
  - destruct (Re.re_match u (version_pattern base ext) n) as [[|g gs]|] eqn:M.
    + rewrite IH. split.
      * intros (n' & d & Hin & R). exists n', d. auto.
      * intros (n' & d & [<-|Hin] & Hd & -> & ->); [|eauto 6].
        rewrite version_pattern_complete in M by assumption. discriminate M.
    + destruct (version_pattern_sound _ _ _ _ _ _ Hn M) as [Hg ->].
      cbn [In]. rewrite IH. split.
      * intros [<-|(n' & d & Hin & R)]; [exists (base ++ "_v" ++ g ++ ext), g|exists n', d];
          tauto.
      * intros (n' & d & [<-|Hin] & Hd & E & ->); [|right; eauto 6].
        left. f_equal.
        assert (base ++ "_v" ++ g = base ++ "_v" ++ d) as E2.
        { apply (app_inv_tail _ _ ext). now rewrite !app_assoc_s. }
        apply app_inv_head in E2. now apply (app_inv_head "_v") in E2.
    + rewrite IH. split.
      * intros (n' & d & Hin & R). exists n', d. auto.
      * intros (n' & d & [<-|Hin] & Hd & -> & ->); [|eauto 6].
        rewrite version_pattern_complete in M by assumption. discriminate M.
Qed.

End NextVersion.

(** C3.  For a file name [<base>_v<digits><extension>] the next
    version is one more than the largest version among the files of
    the directory that are named [<base>_v<digits><extension>], and 1
    when there is none; it is 1 when the name does not have this
    shape, when the directory is missing and when it cannot be listed;
    it is never less than 1.  The digits are the decimal digits of
    Unicode, whatever the interpreter's table of them is, and the file
    names are without line feed. *)
Theorem get_next_version_number_spec (u : Unicode.table) (fs : FS.t)
  (filepath ext : string) :
  let name := Path.basename filepath in
  let dir := Path.dirname filepath in
  let r := get_next_version_number u fs filepath ext in
  Str.no_newline name = true ->
  (forall names, FS.listdir fs dir = Some names ->
                 Forall (fun n => Str.no_newline n = true) names) ->
  (1 <= r)%nat
  /\ ((forall base d, ~ versioned u base ext name d) -> r = 1%nat)
  /\ (FS.exists_ fs dir = false \/ FS.listdir fs dir = None -> r = 1%nat)
  /\ (forall base d names,
        versioned u base ext name d ->
        FS.listdir fs dir = Some names ->
        ((forall n dn, In n names -> ~ versioned u base ext n dn) -> r = 1%nat)
        /\ (forall n dn,
              In n names -> versioned u base ext n dn ->
              (Unicode.int_of_digits u dn < r)%nat
              /\ exists n' d',
                   In n' names /\ versioned u base ext n' d'
                   /\ r = S (Unicode.int_of_digits u d'))).
Proof.
  intros name dir r Hnl Hnames. subst r. unfold get_next_version_number.
  fold name dir.
  split; [|split; [|split]].
  - destruct (Re.re_match u _ name) as [[|b ?]|]; try lia.
    destruct (FS.exists_ fs dir); try lia.
    destruct (FS.listdir fs dir); try lia.
    destruct (collect_versions u _ _); lia.
  - intros Hno. destruct (Re.re_match u _ name) as [[|b gs]|] eqn:M; try reflexivity.
    destruct (base_pattern_sound _ _ _ _ _ Hnl M) as (d & Hv).
    now destruct (Hno b d).
  - intros [E|E]; destruct (Re.re_match u _ name) as [[|b gs]|];
      try reflexivity; rewrite E; try reflexivity.
    now destruct (FS.exists_ fs dir).
  - intros base d names Hv Hl.
    rewrite (base_pattern_complete _ _ _ _ _ Hnl Hv).
    rewrite (listdir_exists _ _ _ Hl), Hl.
    assert (Str.no_newline ext = true) as He.
    { destruct Hv as (_ & _ & E). rewrite E in Hnl.
      apply no_newline_app in Hnl as [_ Hnl].
      apply no_newline_app in Hnl as [_ Hnl].
      now apply no_newline_app in Hnl as [_ Hnl]. }
    pose proof (fun v => collect_versions_in u base ext names v He (Hnames _ Hl)) as C.
    assert (Hb : base <> "") by apply Hv.
    split.
    + intros Hno. destruct (collect_versions u _ names) as [|v vs]; [reflexivity|].
      destruct (proj1 (C v) (or_introl eq_refl)) as (n & dn & Hin & Hd & -> & _).
      destruct (Hno _ dn Hin). repeat split; auto; apply Hd.
    + intros n dn Hin (_ & Hd & ->).
      assert (In (Unicode.int_of_digits u dn)
                (collect_versions u (version_pattern base ext) names)) as Hi
        by (apply C; eauto 6).
      destruct (collect_versions u _ names) as [|v vs] eqn:CV; [destruct Hi|].
      rewrite <- CV in *. split.
      * apply list_max_ge in Hi. lia.
      * assert (In (list_max (collect_versions u (version_pattern base ext) names))
                   (collect_versions u (version_pattern base ext) names)) as Hm
          by (apply list_max_in; rewrite CV; discriminate).
        apply C in Hm as (n' & d' & Hin' & Hd' & -> & E).
        exists (base ++ "_v" ++ d' ++ ext), d'. rewrite E.
        repeat split; auto; try apply Hd'. lia.
Qed.

(** A file whose name ends in a line feed is counted although it is
    not named [<base>_v<digits><extension>]: [$] also matches before
    a final line feed.  The directory holds no file of that form, and
    the next version is 8, not 1. *)
Lemma next_version_counts_line_feed_name :
  (forall names,
     FS.listdir line_feed_fs "/out" = Some names ->
     forall n base d, In n names -> ~ versioned demo_digits base ".mov" n d)
  /\ get_next_version_number demo_digits line_feed_fs
       "/out/shot_v001.mov" ".mov"
     = 8%nat.
Proof.
  split.
  - intros names L. vm_compute in L. injection L as <-.
    intros n base d [<-|[]] (_ & _ & E).
    assert ("shot_v007.mov" ++ String Str.LF ""
            = (base ++ "_v" ++ d ++ ".mo") ++ "v") as E'.
    { rewrite !app_assoc_s. exact E. }
    pose proof (f_equal String.length E') as L.
    rewrite (length_app (base ++ "_v" ++ d ++ ".mo")), length_app in L.
    cbn [String.length] in L.
    apply app_eq_length in E' as [_ E']; [discriminate E'|].
    cbn [String.length]. lia.
  - vm_compute. reflexivity.
Qed.

Lemma get_next_version_number_spec_witness :
  let r := get_next_version_number demo_digits demo_fs
             "/out/shot_v001.mov" ".mov" in
  (1 <= r)%nat /\ (7 < r)%nat /\ (9 < r)%nat.
Proof.
  assert (Str.no_newline (Path.basename "/out/shot_v001.mov") = true) as Hnl
    by reflexivity.
  assert (forall names,
            FS.listdir demo_fs (Path.dirname "/out/shot_v001.mov") = Some names ->
            Forall (fun n => Str.no_newline n = true) names) as Hnames.
  { intros names Hl. vm_compute in Hl. injection Hl as <-.
    repeat constructor. }
  destruct (get_next_version_number_spec demo_digits demo_fs
              "/out/shot_v001.mov" ".mov" Hnl Hnames) as (Hge & _ & _ & Hmax).
  split; [exact Hge|].
  assert (versioned demo_digits "shot" ".mov"
            (Path.basename "/out/shot_v001.mov") "001")
    as Hv by (repeat split; discriminate).
  destruct (Hmax "shot" "001" _ Hv eq_refl) as [_ Hlt].
  split.
  - apply (Hlt "shot_v007.mov" "007").
    + vm_compute. tauto.
    + repeat split; discriminate.
  - apply (Hlt arabic_nine_name arabic_nine).
    + vm_compute. tauto.
    + repeat split; discriminate.
Defined.

(** ** The render operator in an unsaved file *)

(** C8.  In a file that was never saved the render operator reports an
    ERROR and returns CANCELLED; the scene is as before but for the
    report: no backup file is written, no timer is registered, no
    attribute is changed and nothing is rendered. *)
Theorem render_unsaved_cancelled (H : Host) (s : State) :
  is_saved (data s) = false ->
  let s' := snd (render_execute H s) in
  render_execute H s
    = (Ok CANCELLED,
       set_reports
         (reports s
            ++ [(ERROR,
                 "Please save your Blender file before using Quick Preview")])
         s)
  /\ rna s' = rna s
  /\ fs s' = fs s
  /\ timer_registered s' = timer_registered s
  /\ rendered s' = rendered s
  /\ quickpreview_progress s' = quickpreview_progress s
  /\ quickpreview_is_rendering s' = quickpreview_is_rendering s.
Proof.
  intros Hs s'. subst s'. unfold render_execute, bind, gets.
  rewrite Hs. simpl. repeat split.
Qed.

Lemma render_unsaved_cancelled_witness :
  fst (render_execute demo_host unsaved_state) = Ok CANCELLED
  /\ rna (snd (render_execute demo_host unsaved_state)) = rna unsaved_state.
Proof.
  destruct (render_unsaved_cancelled demo_host unsaved_state eq_refl)
    as (E & R & _).
  split; [now rewrite E | exact R].
Defined.

(** ** The output path *)

(** C4.  When [update_output_path] writes the output path, the path is
    the output folder joined with the file name of the save mode:
    [<base>_v001<ext>] or [<base><ext>] for the video formats,
    [<base>_v001/<base>_v001_####] or [<base>/<base>_####], without
    extension, for the image sequences.  It leaves the path alone only
    for a caller that says the path was edited by hand. *)
Theorem update_output_path_file_name (s : State) :
  update_output_path false s
    = (Ok tt,
       set_quickpreview_output_path
         (Path.join (preview_output_folder s)
            (documented_output_file
               (quickpreview_output_format (options s))
               (quickpreview_save_mode (options s))
               (preview_basename s)))
         s)
  /\ update_output_path true s = (Ok tt, s).
Proof.
  split; [|reflexivity].
  unfold update_output_path, modify, preview_output_file.
  now destruct (quickpreview_output_format (options s)),
               (quickpreview_save_mode (options s)).
Qed.

(** ** The frame range of a render *)

Section FrameRange.

Variable H : Host.
Variable s0 : State.
Let first := host_frame_start s0.
Let last := host_frame_end s0.

(** Nothing rendered yet, and the preview range is the one asked for. *)
Let asked (s : State) : Prop :=
  rendered s = rendered s0 /\ data s = data s0
  /\ quickpreview_frame_start s = quickpreview_frame_start s0
  /\ quickpreview_frame_end s = quickpreview_frame_end s0.

(** Nothing rendered yet, and the scene has the range. *)
Let applied (s : State) : Prop :=
  rendered s = rendered s0
  /\ rna s Attr.frame_start = Some (JInt (Z.min first last))
  /\ rna s Attr.frame_end = Some (JInt last).

Let logged (s : State) : Prop :=
  rendered_with_range (Z.min first last) last s0 s.

Lemma asked_logged s : asked s -> logged s.
Proof.
  intros (R & _). exists []. rewrite R, app_nil_r. auto.
Qed.

Lemma applied_logged s : applied s -> logged s.
Proof.
  intros (R & _). exists []. rewrite R, app_nil_r. auto.
Qed.

Ltac frame_side :=
  unfold asked, applied, logged, rendered_with_range; intros; simpl;
  repeat match goal with
         | |- context [if ?b then _ else _] => destruct b
         end;
  simpl; auto.

Lemma prepare_keeps_asked : preserves asked (render_prepare_output H).
Proof. keeps frame_side. Qed.

Lemma store_keeps_asked : preserves asked store_original_settings.
Proof. keeps frame_side. Qed.

Lemma frame_range_applied :
  triple asked render_apply_frame_range (fun _ => applied) logged.
Proof.
  intros s (R & D & Hf & Hl).
  assert (forall r, rendered (set_rna r s) = rendered s0) as R' by (intros; exact R).
  assert (forall s', rendered s' = rendered s0 -> logged s') as L.
  { intros s' E. exists []. rewrite E, app_nil_r. auto. }
  unfold render_apply_frame_range, bind, gets, setattr.
  destruct (rna s Attr.frame_start) eqn:E1; [|apply L, R].
  unfold accept. cbn [Attr.kind_of].
  destruct (int32 (quickpreview_frame_start s)); [|apply L, R].
  cbn -[host_store clamp Z.min].
  destruct (host_store Attr.frame_start _ (rna s) Attr.frame_end) eqn:E2;
    [|apply L, R'].
  destruct (int32 (quickpreview_frame_end s)); [|apply L, R'].
  rewrite D, Hf, Hl. fold first last.
  cbn -[host_store clamp Z.min].
  unfold applied, first, last, host_frame_start, host_frame_end.
  split; [exact R|]. split.
  - unfold host_store at 1. rewrite host_store_same.
    match goal with
    | |- context [(?a <? ?b)%Z] => destruct (Z.ltb_spec a b) as [Lt|Ge]
    end; cbn [rna set_rna].
    + rewrite rna_set_same. f_equal. f_equal. lia.
    + rewrite rna_set_other by discriminate. rewrite host_store_same.
      f_equal. f_equal. lia.
  - cbn [rna set_rna]. apply host_store_same.
Qed.

Lemma overrides_keep_applied : preserves applied render_apply_overrides.
Proof. keeps frame_side. Qed.

Lemma opengl_logs : triple applied (bpy_ops_render_opengl H) (fun _ => logged) logged.
Proof.
  intros s (R & Hf & Hl). unfold bpy_ops_render_opengl.
  assert (logged (set_rendered (rendered s ++ [rna s]) s)) as L.
  { exists [rna s]. simpl. rewrite R. auto. }
  destruct (render_opengl H (rna s)); exact L.
Qed.

Lemma viewport_logs : triple applied (render_viewport H) (fun _ => logged) logged.
Proof.
  unfold render_viewport.
  eapply triple_bind with (R := fun _ => applied).
  - apply triple_gets. auto.
  - intros [vse scene].
    assert (triple applied
              (bind (setattr Attr.ffmpeg_audio_codec (JStr "AAC"))
                 (fun _ => bpy_ops_render_opengl H))
              (fun _ => logged) logged) as T.
    { eapply triple_bind with (R := fun _ => applied).
      - eapply triple_conseq;
          [apply (preserves_setattr applied); frame_side| | |];
          auto using applied_logged.
      - intros []. apply opengl_logs. }
    destruct vse; [exact T|]. destruct scene; [exact T|apply opengl_logs].
Qed.

Lemma finish_keeps_logged p : preserves logged (render_finish p).
Proof. keeps frame_side. Qed.

Lemma finally_keeps_logged f settings :
  preserves logged (render_finally f settings).
Proof. keeps frame_side. Qed.

Lemma body_logs : triple asked (render_body H) (fun _ => logged) logged.
Proof.
  unfold render_body.
  eapply triple_bind with (R := fun _ => asked).
  { eapply triple_conseq; [apply prepare_keeps_asked| | |];
      auto using asked_logged. }
  intros full_path. eapply triple_bind; [apply frame_range_applied|].
  intros []. eapply triple_bind with (R := fun _ => applied).
  { eapply triple_conseq; [apply overrides_keep_applied| | |];
      auto using applied_logged. }
  intros []. eapply triple_bind; [apply viewport_logs|].
  intros []. apply finish_keeps_logged.
Qed.

Lemma execute_logs : triple asked (render_execute H) (fun _ => logged) logged.
Proof.
  unfold render_execute.
  eapply triple_bind with (R := fun _ => asked);
    [apply triple_gets; auto|].
  intros saved. destruct saved; simpl.
  - eapply triple_bind with (R := fun _ => asked).
    { eapply triple_conseq; [apply store_keeps_asked| | |];
        auto using asked_logged. }
    intros [backup_file original_settings].
    apply triple_try_finally with (Q' := fun _ => logged) (E' := logged).
    + apply triple_try_except with (E' := logged); [apply body_logs|].
      intros e. apply preserves_triple. keeps frame_side.
    + intros a. apply finally_keeps_logged.
    + apply finally_keeps_logged.
  - eapply triple_conseq with (P' := asked) (Q' := fun _ => asked) (E' := asked);
      auto using asked_logged.
    apply preserves_triple. keeps frame_side.
Qed.

End FrameRange.

(** C6.  The frame range of a render is inclusive.  The operator
    assigns the preview range [quickpreview_frame_start] -
    [quickpreview_frame_end] to [scene.frame_start] and
    [scene.frame_end], and the host keeps both within their bounds and
    in order: every viewport render that the operator starts runs to
    the end of the preview range as the host bounds it, from the start
    as the host bounds it or from that end, if the start lies after
    it.  So a preview range within the bounds and in order is the
    range of the render.  While a render is on, the timer takes a
    scene with [frame_end > frame_start] to have
    [frame_end - frame_start + 1] frames, computes the progress
    [(frame_current - frame_start) / total] as a float and stores it,
    clamped to [0, 1], as a 32-bit float. *)
Theorem render_frame_range_inclusive (H : Host) (s : State) :
  rendered_with_range
    (Z.min (host_frame_start s) (host_frame_end s)) (host_frame_end s)
    s (snd (render_execute H s))
  /\ (range_in_order s ->
      rendered_with_range
        (quickpreview_frame_start s) (quickpreview_frame_end s)
        s (snd (render_execute H s)))
  /\ forall frame_start frame_end frame_current : Z,
       quickpreview_is_rendering s = true ->
       rna s Attr.frame_start = Some (JInt frame_start) ->
       rna s Attr.frame_end = Some (JInt frame_end) ->
       rna s Attr.frame_current = Some (JInt frame_current) ->
       (frame_end > frame_start)%Z ->
       let total_frames := (frame_end - frame_start + 1)%Z in
       let progress :=
         Float.binary64
           (inject_Z (frame_current - frame_start) / inject_Z total_frames) in
       update_render_progress s
         = (Ok (Some (1 # 10)%Q),
            set_quickpreview_progress
              (clamp01 (Float.binary32 (clamp01 progress))) s).
Proof.
  assert (rendered_with_range
            (Z.min (host_frame_start s) (host_frame_end s)) (host_frame_end s)
            s (snd (render_execute H s))) as R.
  { pose proof (execute_logs H s s
                  (conj eq_refl (conj eq_refl (conj eq_refl eq_refl)))) as T.
    now destruct (render_execute H s) as [[r|e] s']. }
  split; [exact R|]. split.
  - intros (Hs & He & Ho).
    unfold host_frame_start, host_frame_end, clamp in R.
    destruct Hs as [Hs1 Hs2]. destruct He as [He1 He2].
    apply Z.ltb_ge in Hs1, Hs2, He1, He2.
    rewrite Hs1, Hs2, He1, He2 in R.
    now rewrite Z.min_l in R by exact Ho.
  - intros first last current Hr Hf Hl Hc Hlt total progress.
    apply Z.gtb_gt in Hlt.
    cbv [update_render_progress bind gets getattr_int getattr modify ret
         assign_quickpreview_progress true_divide].
    rewrite Hr. cbv [negb]. rewrite Hl, Hf, Hlt, Hc. reflexivity.
Qed.

(** With the preview range 300-250 the render runs on 250-250: the
    host moves the start down to the end. *)
Lemma render_range_moved_by_host :
  let s := reversed_range_state in
  let s' := snd (render_execute demo_host s) in
  quickpreview_frame_start s = 300%Z /\ quickpreview_frame_end s = 250%Z
  /\ (exists r, rendered s' = [r]
                /\ r Attr.frame_start = Some (JInt 250)
                /\ r Attr.frame_end = Some (JInt 250))
  /\ ~ rendered_with_range 300 250 s s'.
Proof.
  cbv zeta.
  assert (exists r,
            rendered (snd (render_execute demo_host reversed_range_state)) = [r]
            /\ r Attr.frame_start = Some (JInt 250)
            /\ r Attr.frame_end = Some (JInt 250)) as X.
  { assert (map (fun r : Rna => (r Attr.frame_start, r Attr.frame_end))
              (rendered (snd (render_execute demo_host reversed_range_state)))
            = [(Some (JInt 250), Some (JInt 250))]) as M
      by (vm_compute; reflexivity).
    destruct (rendered (snd (render_execute demo_host reversed_range_state)))
      as [|r [|]]; try discriminate M.
    injection M as Hs He. exists r. auto. }
  split; [reflexivity|]. split; [reflexivity|]. split; [exact X|].
  intros (new & E & F). destruct X as (r & Er & Hs & _).
  rewrite Er in E. cbn in E. subst new.
  inversion F as [|? ? [Hs' _]]. rewrite Hs in Hs'. discriminate Hs'.
Qed.

Lemma render_frame_range_inclusive_witness :
  (exists r,
     rendered (snd (render_execute demo_host short_range_state)) = [r]
     /\ r Attr.frame_start = Some (JInt 10) /\ r Attr.frame_end = Some (JInt 20))
  /\ quickpreview_progress (snd (update_render_progress rendering_state))
       = (13153337 # 67108864)%Q.
Proof.
  split.
  - assert (range_in_order short_range_state) as O
      by (repeat split; vm_compute; congruence).
    destruct (proj1 (proj2 (render_frame_range_inclusive demo_host
                              short_range_state)) O)
      as (new & E & F).
    assert (List.length
              (rendered (snd (render_execute demo_host short_range_state)))
            = 1%nat) as L by (vm_compute; reflexivity).
    rewrite E in L |- *. destruct new as [|r [|]]; try discriminate L.
    exists r. inversion F as [|? ? [? ?]]. auto.
  - rewrite (proj2 (proj2 (render_frame_range_inclusive demo_host
                             rendering_state))
               1 250 50 eq_refl eq_refl eq_refl eq_refl eq_refl)%Z.
    vm_compute. reflexivity.
Defined.

(** ** Dictionaries *)

Section DictFacts.

Context {V : Type}.
Implicit Types (d : Dict.t V) (k : string) (v : V).

Lemma dict_get_set_same k v d : Dict.get k (Dict.set k v d) = Some v.
Proof.
  induction d as [|[k' v'] d IH]; simpl.
  - now rewrite String.eqb_refl.
  - destruct (String.eqb k' k) eqn:E; simpl; now rewrite E.
Qed.

Lemma dict_get_set_other k k' v d :
  k' <> k -> Dict.get k' (Dict.set k v d) = Dict.get k' d.
Proof.
  intros Hne. induction d as [|[k1 v1] d IH]; simpl.
  - destruct (String.eqb_spec k k'); congruence.
  - destruct (String.eqb_spec k1 k) as [->|]; simpl.
    + destruct (String.eqb_spec k k'); congruence.
    + now rewrite IH.
Qed.

Lemma dict_get_del_same k d : Dict.get k (Dict.del k d) = None.
Proof.
  induction d as [|[k' v'] d IH]; simpl; [reflexivity|].
  destruct (String.eqb k' k) eqn:E; simpl; [assumption|]. now rewrite E.
Qed.

Lemma dict_get_del_other k k' d :
  k' <> k -> Dict.get k' (Dict.del k d) = Dict.get k' d.
Proof.
  intros Hne. induction d as [|[k1 v1] d IH]; simpl; [reflexivity|].
  destruct (String.eqb_spec k1 k) as [->|]; simpl.
  - destruct (String.eqb_spec k k'); congruence.
  - now rewrite IH.
Qed.

Lemma dict_mem_set k v d : Dict.mem k (Dict.set k v d) = true.
Proof. unfold Dict.mem. now rewrite dict_get_set_same. Qed.

End DictFacts.

(** ** Per-camera frame ranges *)

(** C2.  For a camera other than VIEWPORT, in a scene whose stored
    ranges are a JSON object (or no JSON at all), saving stores the
    current preview range under the camera's name; once [json] reads
    back the text it wrote, a later load for the camera, in any scene
    that still holds that text, sets the preview range to the saved
    one. *)
Theorem save_then_load_camera_frame_range (H : Host) (c : string)
  (s : State) (d : Dict.t json) :
  c <> "VIEWPORT" ->
  stored_ranges H s = JDict d ->
  let written := JDict (Dict.set c (range_entry s) d) in
  reads_back H written ->
  let s1 := snd (save_camera_frame_range H c s) in
  fst (save_camera_frame_range H c s) = Ok tt
  /\ quickpreview_camera_ranges s1 = json_dumps H written
  /\ forall s2,
       quickpreview_camera_ranges s2 = quickpreview_camera_ranges s1 ->
       updating s2 = false ->
       let s3 := snd (load_camera_frame_range H c s2) in
       fst (load_camera_frame_range H c s2) = Ok tt
       /\ quickpreview_frame_start s3 = quickpreview_frame_start s
       /\ quickpreview_frame_end s3 = quickpreview_frame_end s.
Proof.
  intros Hc Hd written Hrt s1.
  apply String.eqb_neq in Hc.
  assert (save_camera_frame_range H c s
          = (Ok tt,
             set_updating false
               (set_quickpreview_camera_ranges (json_dumps H written)
                  (set_updating true s)))) as Es.
  { unfold save_camera_frame_range. rewrite Hc.
    cbv [try_finally bind modify gets py_setitem ret].
    change (stored_ranges H (set_updating true s)) with (stored_ranges H s).
    now rewrite Hd. }
  subst s1. rewrite Es. cbn [fst snd].
  split; [reflexivity|]. split; [reflexivity|].
  intros s2 Ht Hu. cbn in Ht.
  unfold load_camera_frame_range.
  cbv [bind gets]. rewrite Hu, Hc.
  cbv [try_finally bind modify gets]. cbn [quickpreview_camera_ranges set_updating].
  rewrite Ht. unfold reads_back in Hrt. rewrite Hrt.
  unfold written, py_contains, py_getitem, range_entry.
  cbv [bind ret]. rewrite dict_mem_set, dict_get_set_same.
  cbn. repeat split.
Qed.

Lemma save_then_load_camera_frame_range_witness :
  let s1 := snd (save_camera_frame_range demo_host "Camera" demo_state) in
  let s2 := set_quickpreview_frame_start 40 (set_quickpreview_frame_end 80 s1) in
  json_loads demo_host (quickpreview_camera_ranges s1)
    = Some (JDict [("Camera", JDict [("start", JInt 1); ("end", JInt 250)])])
  /\ quickpreview_frame_start (snd (load_camera_frame_range demo_host "Camera" s2)) = 1%Z
  /\ quickpreview_frame_end (snd (load_camera_frame_range demo_host "Camera" s2)) = 250%Z.
Proof.
  intros s1 s2.
  assert ("Camera" <> "VIEWPORT") as Hc by discriminate.
  assert (stored_ranges demo_host demo_state = JDict []) as Hd by reflexivity.
  assert (reads_back demo_host
            (JDict (Dict.set "Camera" (range_entry demo_state) []))) as Hrt
    by reflexivity.
  destruct (save_then_load_camera_frame_range demo_host "Camera" demo_state []
              Hc Hd Hrt) as (_ & Hw & Hl).
  split; [unfold s1; rewrite Hw; reflexivity|].
  destruct (Hl s2 eq_refl eq_refl) as (_ & A & B). split; assumption.
Defined.

(** C10.  In a scene whose stored ranges are a JSON object (or no JSON
    at all), the operator returns FINISHED.  When the object has an
    entry for the camera, the text written is the object without that
    entry and with every other entry as before, and an INFO is
    reported; when it has none, a WARNING is reported and the scene,
    the stored text included, is otherwise as before. *)
Theorem delete_camera_range_removes_one_entry (H : Host) (c : string)
  (s : State) (d : Dict.t json) :
  stored_ranges H s = JDict d ->
  (Dict.mem c d = true ->
     delete_camera_range_execute H c s
       = (Ok FINISHED,
          set_reports (reports s ++ [(INFO, "Deleted range for " ++ c)])
            (set_quickpreview_camera_ranges
               (json_dumps H (JDict (Dict.del c d))) s))
     /\ Dict.get c (Dict.del c d) = None
     /\ (forall c', c' <> c -> Dict.get c' (Dict.del c d) = Dict.get c' d)
     /\ (reads_back H (JDict (Dict.del c d)) ->
         json_loads H
           (quickpreview_camera_ranges
              (snd (delete_camera_range_execute H c s)))
           = Some (JDict (Dict.del c d))))
  /\ (Dict.mem c d = false ->
        delete_camera_range_execute H c s
          = (Ok FINISHED,
             set_reports (reports s ++ [(WARNING, "No stored range for " ++ c)])
               s)).
Proof.
  intros Hd. split; intros Hm.
  - assert (delete_camera_range_execute H c s
            = (Ok FINISHED,
               set_reports (reports s ++ [(INFO, "Deleted range for " ++ c)])
                 (set_quickpreview_camera_ranges
                    (json_dumps H (JDict (Dict.del c d))) s))) as E.
    { unfold delete_camera_range_execute.
      cbv [bind gets]. rewrite Hd. cbv [py_contains ret]. rewrite Hm.
      cbv [py_delitem]. rewrite Hm. reflexivity. }
    split; [exact E|]. split; [apply dict_get_del_same|].
    split; [intros; now apply dict_get_del_other|].
    intros Hrt. rewrite E. exact Hrt.
  - unfold delete_camera_range_execute.
    cbv [bind gets]. rewrite Hd. cbv [py_contains ret]. rewrite Hm.
    reflexivity.
Qed.

Lemma delete_camera_range_removes_one_entry_witness :
  fst (delete_camera_range_execute demo_host "Camera" two_ranges_state)
    = Ok FINISHED
  /\ json_loads demo_host
       (quickpreview_camera_ranges
          (snd (delete_camera_range_execute demo_host "Camera"
                  two_ranges_state)))
     = Some (JDict [("Cam2", JDict [("start", JInt 10); ("end", JInt 20)])])
  /\ fst (delete_camera_range_execute demo_host "Cube" two_ranges_state)
     = Ok FINISHED
  /\ quickpreview_camera_ranges
       (snd (delete_camera_range_execute demo_host "Cube" two_ranges_state))
     = quickpreview_camera_ranges two_ranges_state.
Proof.
  assert (stored_ranges demo_host two_ranges_state = JDict two_ranges) as Hd
    by reflexivity.
  pose proof (delete_camera_range_removes_one_entry demo_host "Camera"
                two_ranges_state two_ranges Hd) as [Hin _].
  pose proof (delete_camera_range_removes_one_entry demo_host "Cube"
                two_ranges_state two_ranges Hd) as [_ Hout].
  destruct (Hin eq_refl) as (E & _ & _ & R).
  specialize (Hout eq_refl).
  split; [now rewrite E|]. split; [exact (R eq_refl)|].
  now rewrite Hout.
Defined.

(** ** The progress value *)

Section Progress.

Variable H : Host.

Lemma clamp01_bounds p : (0 <= clamp01 p)%Q /\ (clamp01 p <= 1)%Q.
Proof.
  unfold clamp01. split.
  - apply Q.le_max_l.
  - apply Q.max_lub; [discriminate | apply Q.le_min_l].
Qed.

Ltac progress_side :=
  unfold progress_ok; intros; simpl;
  repeat match goal with
         | |- context [if ?b then _ else _] => destruct b
         | |- context [match ?x with Some _ => _ | None => _ end] => destruct x
         end;
  simpl; auto using clamp01_bounds; try (split; discriminate).

Lemma progress_ok_kept a : preserves progress_ok (perform H a).
Proof.
  destruct a; unfold perform.
  all: keeps progress_side.
Qed.

Lemma progress_reset_kept s0 a :
  a <> TimerTick ->
  preserves (progress_reset s0) (perform H a).
Proof.
  intros Ha. destruct a; try congruence; unfold perform.
  all: keeps ltac:(unfold progress_reset; intros; simpl;
                   repeat match goal with
                          | |- context [if ?b then _ else _] => destruct b
                          | |- context [match ?x with Some _ => _ | None => _ end] => destruct x
                          end; simpl; auto).
Qed.


Lemma timer_tick_clamps s0 :
  preserves
    (fun s => quickpreview_progress s = quickpreview_progress s0
              \/ exists p, quickpreview_progress s = clamp01 p)
    timer_tick.
Proof.
  keeps ltac:(intros; simpl; eauto).
Qed.

End Progress.

(** C9.  The progress value stays within [0, 1] in every scene that
    the add-on's operators, callbacks and timer can reach from one
    where it is (the registered default is 0.0); the timer stores a
    value clamped by [max(0.0, min(1.0, progress))]; everything else
    leaves the value alone or sets it to 0.0 or 1.0.  Floats are read
    as the rationals they denote. *)
Theorem quickpreview_progress_in_unit_interval (H : Host) :
  (forall s0 s, progress_ok s0 -> reachable H s0 s -> progress_ok s)
  /\ (forall s,
        quickpreview_progress (run_action H TimerTick s)
          = quickpreview_progress s
        \/ exists p,
             quickpreview_progress (run_action H TimerTick s) = clamp01 p)
  /\ (forall a s, a <> TimerTick -> progress_reset s (run_action H a s)).
Proof.
  split; [|split].
  - intros s0 s H0. induction 1 as [|s a _ IH]; [assumption|].
    unfold run_action. apply preserves_snd; [apply progress_ok_kept|exact IH].
  - intros s. unfold run_action, perform.
    apply (preserves_snd _ _ s (timer_tick_clamps s)). now left.
  - intros a s Ha. unfold run_action.
    apply (preserves_snd _ _ s (progress_reset_kept H s a Ha)). now left.
Qed.


Lemma quickpreview_progress_in_unit_interval_witness :
  progress_ok (run_action demo_host TimerTick
                 (run_action demo_host Render demo_state))
  /\ progress_reset demo_state (run_action demo_host Render demo_state).
Proof.
  destruct (quickpreview_progress_in_unit_interval demo_host)
    as (Hinv & _ & Hreset).
  split.
  - apply (Hinv demo_state); [split; discriminate|].
    do 2 apply reach_step. apply reach_start.
  - apply Hreset. discriminate.
Defined.

(** ** Restoring the settings *)

Section Restore.

Variable settings : Dict.t json.

Lemma restore_body_plan :
  restore_body settings = run_plan settings restore_plan [].
Proof. reflexivity. Qed.

Lemma only_rna_refl s : only_rna s s.
Proof. now destruct s. Qed.

Lemma only_rna_trans s1 s2 s3 :
  only_rna s1 s2 -> only_rna s2 s3 -> only_rna s1 s3.
Proof. unfold only_rna. intros -> ->. reflexivity. Qed.

Lemma disturbs_false a b :
  disturbs a b = false -> b <> a /\ ~ partner a b.
Proof.
  unfold disturbs, partner, Attr.eqb. intros D.
  destruct (Attr.eq_dec b a) as [->|N]; [discriminate D|].
  split; [assumption|]. intros [[-> ->]|[-> ->]]; discriminate D.
Qed.

Lemma same_attributes_refl s : same_attributes s s.
Proof. intros a. tauto. Qed.

Lemma same_attributes_trans s1 s2 s3 :
  same_attributes s1 s2 -> same_attributes s2 s3 -> same_attributes s1 s3.
Proof. intros A B a. rewrite (B a). apply A. Qed.

(** What one assignment does. *)
Lemma setattr_cases a v s :
  (exists e, setattr a v s = (Raise e, s)
             /\ (rna s a = None \/ accept (data s) (rna s) a v = None))
  \/ (exists v', setattr a v s
                 = (Ok tt, set_rna (host_store a v' (rna s)) s)
                 /\ accept (data s) (rna s) a v = Some v'
                 /\ rna s a <> None).
Proof.
  unfold setattr. destruct (rna s a) eqn:R.
  - destruct (accept (data s) (rna s) a v) as [v'|] eqn:C.
    + right. exists v'. repeat split; congruence.
    + left. eexists. split; auto.
  - left. eexists. split; auto.
Qed.

Lemma setattr_done a v s :
  let (r, s') := setattr a v s in
  only_rna s s'
  /\ (forall b, disturbs a b = false -> rna s' b = rna s b)
  /\ same_attributes s s'
  /\ match r with
     | Raise _ => s' = s
     | Ok _ => exists v', accept (data s) (rna s) a v = Some v'
                          /\ rna s' a = Some v'
     end.
Proof.
  destruct (setattr_cases a v s) as [(e & -> & _)|(v' & -> & C & R)].
  - repeat split; auto using only_rna_refl; tauto.
  - cbn. repeat split.
    + intros b Hb. apply disturbs_false in Hb as [N P].
      now apply host_store_other.
    + now apply host_store_none.
    + now apply host_store_none.
    + exists v'. split; [exact C | apply host_store_same].
Qed.

Lemma step_frame_refl st s : step_frame st s s.
Proof.
  repeat split; auto using only_rna_refl; tauto.
Qed.

Lemma restore_done key a s :
  step_done settings (Field key a false) s
    (bind (restore settings key a) (fun _ => ret []) s).
Proof.
  unfold restore, bind. destruct (Dict.get key settings) as [v|] eqn:G.
  - pose proof (setattr_done a v s) as D.
    destruct (setattr a v s) as [[[]|e] s'];
      destruct D as (O & F & P & D); cbn; repeat split; auto; try apply P.
    intros v0 Hv0 _. now replace v0 with v by congruence.
  - cbn. split; [apply step_frame_refl|]. split; [reflexivity|].
    intros v Hv. congruence.
Qed.

Lemma restore_if_present_done key a s :
  step_done settings (Field key a true) s
    (bind (restore_if_present settings key a) (fun _ => ret []) s).
Proof.
  unfold restore_if_present, bind, hasattr, gets.
  destruct (Dict.get key settings) as [v|] eqn:G.
  - destruct (rna s a) eqn:R; cbn.
    + pose proof (setattr_done a v s) as D.
      destruct (setattr a v s) as [[[]|e] s'];
        destruct D as (O & F & P & D); cbn; repeat split; auto; try apply P.
      intros v0 Hv0 _. now replace v0 with v by congruence.
    + split; [apply step_frame_refl|]. split; [reflexivity|].
      intros v0 _ Hp. congruence.
  - cbn. split; [apply step_frame_refl|]. split; [reflexivity|].
    intros v Hv. congruence.
Qed.

Lemma rate_factor_done s :
  step_done settings RateFactor s
    (bind (restore_constant_rate_factor settings) (fun _ => ret []) s).
Proof.
  unfold restore_constant_rate_factor, bind.
  assert (forall v,
            let (r, s') := setattr Attr.ffmpeg_constant_rate_factor v s in
            step_done settings RateFactor s
              match r with
              | Ok _ => (Ok [], s')
              | Raise e => (Raise e, s')
              end) as Hs.
  { intros v. pose proof (setattr_done Attr.ffmpeg_constant_rate_factor v s) as D.
    destruct (setattr _ v s) as [[[]|e] s'];
      destruct D as (O & F & P & D); cbn; repeat split; auto; apply P. }
  destruct (Dict.get _ settings) as [v|].
  - repeat match goal with
           | |- context [if ?b then _ else _] => destruct b
           end;
      match goal with
      | |- context [setattr ?a ?v ?s] =>
          specialize (Hs v); destruct (setattr a v s) as [[[]|e] s']; exact Hs
      end.
  - cbn. split; [apply step_frame_refl|reflexivity].
Qed.

Lemma camera_done s :
  step_done settings Camera s (restore_camera settings s).
Proof.
  unfold restore_camera.
  destruct (Dict.get "camera" settings) as [v|] eqn:G.
  2:{ cbn. split; [apply step_frame_refl|]. repeat split.
      - intros name E. congruence.
      - congruence.
      - intros (name & E & _). congruence. }
  destruct v as [| | | |name| |];
    try (cbn; split; [apply step_frame_refl|reflexivity]).
  destruct (String.eqb_spec name "None") as [->|Hn].
  { cbn. split; [apply step_frame_refl|]. repeat split.
    - intros name E Hne _. congruence.
    - congruence.
    - intros (name & E & Hne & _). congruence. }
  unfold bind, gets. destruct (object_exists name s) eqn:Ex.
  - pose proof (setattr_done Attr.camera (JStr name) s) as D.
    destruct (setattr Attr.camera (JStr name) s) as [[[]|e] s'];
      destruct D as (O & F & P & D); cbn; repeat split; auto; try apply P.
    + intros name' E _ _. destruct D as (v' & C & R). cbn in C. congruence.
    + congruence.
    + intros (name' & E & _ & Hm). congruence.
  - cbn. split; [apply step_frame_refl|]. repeat split.
    + intros name' E _ Hp. congruence.
    + exists name. auto.
    + discriminate.
Qed.

Lemma run_step_done st s : step_done settings st s (run_step settings st s).
Proof.
  destruct st as [|key a [|]|]; cbn [run_step].
  - apply rate_factor_done.
  - apply restore_if_present_done.
  - apply restore_done.
  - apply camera_done.
Qed.

Lemma run_step_raise st s e s' :
  run_step settings st s = (Raise e, s') -> s' = s.
Proof.
  intros E. pose proof (run_step_done st s) as D. rewrite E in D. apply D.
Qed.

Lemma run_step_ok st s errors s' :
  run_step settings st s = (Ok errors, s') ->
  step_frame st s s' /\ step_applied settings st s s' errors.
Proof.
  intros E. pose proof (run_step_done st s) as D. rewrite E in D. apply D.
Qed.

Lemma run_plan_cons st rest errors s :
  run_plan settings (st :: rest) errors s
  = match run_step settings st s with
    | (Ok e, s1) => run_plan settings rest (errors ++ e)%list s1
    | (Raise x, s1) => (Raise x, s1)
    end.
Proof.
  destruct st as [|key a [|]|]; cbn [run_plan run_step]; unfold bind.
  - destruct (restore_constant_rate_factor settings s) as [[[]|e] s1];
      cbn; now rewrite ?app_nil_r.
  - destruct (restore_if_present settings key a s) as [[[]|e] s1];
      cbn; now rewrite ?app_nil_r.
  - destruct (restore settings key a s) as [[[]|e] s1];
      cbn; now rewrite ?app_nil_r.
  - now destruct (restore_camera settings s) as [[e|x] s1].
Qed.

Lemma camera_missing_only_rna s s' :
  only_rna s s' -> camera_missing settings s' <-> camera_missing settings s.
Proof.
  intros ->. unfold camera_missing, object_exists. reflexivity.
Qed.

(** A run that ends normally is the run of its steps. *)
Lemma run_plan_runs plan : forall errors s b s',
  run_plan settings plan errors s = (Ok b, s') ->
  exists errs,
    runs settings plan s errs s'
    /\ b = match (errors ++ errs)%list with [] => true | _ => false end.
Proof.
  induction plan as [|st rest IH]; intros errors s b s' E.
  - exists []. rewrite app_nil_r. cbn in E.
    destruct errors; injection E as <- <-; (split; [constructor|reflexivity]).
  - rewrite run_plan_cons in E.
    destruct (run_step settings st s) as [[e|x] s1] eqn:St; [|discriminate E].
    destruct (IH _ _ _ _ E) as (errs & R & ->).
    exists (e ++ errs)%list. split; [econstructor; eauto|].
    now rewrite app_assoc.
Qed.

(** A run that raises stops at a step: the steps before it ran, and
    the scene is the one in which the step raised. *)
Lemma run_plan_raise plan : forall errors s x s',
  run_plan settings plan errors s = (Raise x, s') ->
  exists pre st post errs,
    plan = (pre ++ st :: post)%list
    /\ runs settings pre s errs s'
    /\ run_step settings st s' = (Raise x, s').
Proof.
  induction plan as [|st rest IH]; intros errors s x s' E.
  - cbn in E. destruct errors; discriminate E.
  - rewrite run_plan_cons in E.
    destruct (run_step settings st s) as [[e|y] s1] eqn:St.
    + destruct (IH _ _ _ _ E) as (pre & st' & post & errs & -> & R & Rs).
      exists (st :: pre), st', post, (e ++ errs)%list.
      split; [reflexivity|]. split; [|exact Rs].
      eapply runs_cons; eauto.
    + injection E as <- <-. pose proof (run_step_raise _ _ _ _ St) as ->.
      exists [], st, rest, [].
      split; [reflexivity|]. split; [constructor|exact St].
Qed.

(** A run changes attributes only, and only those its steps may
    change. *)
Lemma runs_frame plan s errs s' :
  runs settings plan s errs s' ->
  only_rna s s'
  /\ same_attributes s s'
  /\ forall b,
       forallb (fun st => negb (disturbs (step_attr st) b)) plan = true ->
       rna s' b = rna s b.
Proof.
  induction 1 as [s|st rest s e1 s1 e2 s2 St R (O & A & F)].
  - split; [|split]; auto using only_rna_refl, same_attributes_refl.
  - destruct (run_step_ok _ _ _ _ St) as ((O1 & F1 & A1) & _).
    split; [|split].
    + eapply only_rna_trans; eauto.
    + eapply same_attributes_trans; eauto.
    + intros b Hb. cbn in Hb. apply andb_true_iff in Hb as [Hb1 Hb2].
      rewrite (F b Hb2). apply F1. now apply negb_true_iff.
Qed.

(** The list of errors is empty unless the camera is missing. *)
Lemma runs_errors plan s errs s' :
  runs settings plan s errs s' ->
  errs <> [] <-> In Camera plan /\ camera_missing settings s.
Proof.
  induction 1 as [s|st rest s e1 s1 e2 s2 St R IH].
  - split; [congruence|intros [[] _]].
  - destruct (run_step_ok _ _ _ _ St) as ((O1 & _) & Ap).
    rewrite (camera_missing_only_rna _ _ O1) in IH.
    assert ((e1 ++ e2)%list <> [] <-> e1 <> [] \/ e2 <> []) as ->.
    { destruct e1; cbn; [tauto|]. split; [left; discriminate|discriminate]. }
    rewrite IH. destruct st as [|key a opt|]; cbn in Ap |- *.
    + subst e1. intuition discriminate.
    + destruct Ap as [-> _]. intuition discriminate.
    + destruct Ap as [_ Ap]. rewrite Ap. tauto.
Qed.

(** After a run every stored field is in place, but for the start of
    the frame range; so is the camera. *)
Lemma runs_applied plan s errs s' :
  runs settings plan s errs s' ->
  settled plan = true ->
  (forall key a opt v,
     In (Field key a opt) plan -> a <> Attr.frame_start ->
     Dict.get key settings = Some v -> rna s a <> None ->
     exists r0 v', accept (data s) r0 a v = Some v' /\ rna s' a = Some v')
  /\ (In Camera plan -> camera_applied settings s').
Proof.
  induction 1 as [s|st rest s e1 s1 e2 s2 St R IH]; intros Hs.
  - split; [intros ? ? ? ? []|intros []].
  - cbn [settled] in Hs. apply andb_true_iff in Hs as [Hst Hrest].
    destruct (IH Hrest) as [IHf IHc].
    destruct (run_step_ok _ _ _ _ St) as ((O1 & F1 & A1) & Ap).
    destruct (runs_frame _ _ _ _ R) as (O2 & A2 & F2).
    split.
    + intros key a opt v [->|Hin] Na Hg Hp.
      * cbn in Ap. destruct Ap as [_ Ap].
        destruct (Ap v Hg Hp) as (v' & C & E).
        exists (rna s), v'. split; [exact C|].
        rewrite F2; [exact E|]. cbn [step_attr] in Hst.
        apply orb_true_iff in Hst as [Hst|Hst]; [|exact Hst].
        unfold Attr.eqb in Hst. destruct (Attr.eq_dec a Attr.frame_start);
          [contradiction|discriminate].
      * destruct (IHf key a opt v Hin Na Hg) as (r0 & v' & C & E).
        -- intros Hn. apply Hp. now apply A1.
        -- exists r0, v'. split; [|exact E].
           replace (data s) with (data s1); [exact C|].
           rewrite O1. reflexivity.
    + intros [->|Hin]; [|auto].
      cbn in Ap. destruct Ap as [Ap _].
      intros name Hg Hn Hex. rewrite F2.
      * apply Ap; auto. rewrite O2 in Hex. exact Hex.
      * cbn [step_attr] in Hst.
        apply orb_true_iff in Hst as [Hst|Hst]; [discriminate Hst|exact Hst].
Qed.

End Restore.

Lemma restore_plan_settled : settled restore_plan = true.
Proof. reflexivity. Qed.

Lemma fs_exists_remove f files : FS.exists_ (FS.remove f files) f = false.
Proof.
  unfold FS.exists_, FS.remove.
  induction files as [|[p k] files IH]; cbn; [reflexivity|].
  destruct (String.eqb_spec p f) as [->|Hne]; cbn; [exact IH|].
  destruct (String.eqb_spec p f); [congruence|exact IH].
Qed.

Lemma render_stop_progress_runs s :
  exists s1,
    render_stop_progress s = (Ok tt, s1)
    /\ rna s1 = rna s /\ data s1 = data s /\ fs s1 = fs s
    /\ reports s1 = reports s.
Proof.
  unfold render_stop_progress, bind, modify, gets, when, try_except,
    timers_unregister. cbn.
  destruct (timers_available (data s)); [|eexists; repeat split].
  unfold bind, gets, modify. cbn.
  destruct (timer_registered s); eexists; repeat split.
Qed.

(** The restoration as the run of its plan. *)
Lemma restore_cases settings s :
  (exists errors s',
     restore_body settings s
     = (Ok match errors with [] => true | _ => false end, s')
     /\ runs settings restore_plan s errors s')
  \/ (exists pre st post errors e s',
        restore_body settings s = (Raise e, s')
        /\ restore_plan = (pre ++ st :: post)%list
        /\ runs settings pre s errors s'
        /\ run_step settings st s' = (Raise e, s')).
Proof.
  rewrite restore_body_plan.
  destruct (run_plan settings restore_plan [] s) as [[b|e] s'] eqn:E.
  - left. destruct (run_plan_runs _ _ _ _ _ _ E) as (errs & R & ->).
    exists errs, s'. auto.
  - right.
    destruct (run_plan_raise _ _ _ _ _ _ E) as (pre & st & post & errs & P & R & Rs).
    exists pre, st, post, errs, e, s'. auto.
Qed.

Lemma restore_returns settings s :
  exists b s',
    restore_original_settings settings s = (Ok b, s') /\ only_rna s s'.
Proof.
  unfold restore_original_settings, try_except.
  destruct (restore_cases settings s)
    as [(errors & s' & -> & R)|(pre & st & post & errors & e & s' & -> & _ & R & _)];
    apply runs_frame in R as (O & _); do 2 eexists;
    (split; [reflexivity|exact O]).
Qed.

(** The backup file after the [finally] block. *)
Lemma render_finally_backup f settings s0 :
  exists s1,
    render_stop_progress s0 = (Ok tt, s1)
    /\ rna s1 = rna s0 /\ data s1 = data s0 /\ fs s1 = fs s0
    /\ let s2 := snd (render_finally (Some f) settings s0) in
       match fst (restore_original_settings settings s1) with
       | Ok true =>
           FS.exists_ (fs s2) f = false /\ reports s2 = reports s0
       | _ =>
           fs s2 = fs s0
           /\ reports s2 = (reports s0 ++ [(WARNING, restore_warning)])%list
       end.
Proof.
  destruct (render_stop_progress_runs s0) as (s1 & E1 & R1 & D1 & F1 & Rp1).
  exists s1. repeat (split; [assumption|]).
  unfold render_finally, bind. rewrite E1.
  destruct (restore_returns settings s1) as (b & s2 & E2 & O).
  rewrite E2. cbn [fst].
  assert (fs s2 = fs s0 /\ reports s2 = reports s0) as [F2 Rp2].
  { rewrite O. cbn. split; congruence. }
  destruct b; cbn.
  - unfold gets, when. destruct (FS.exists_ (fs s2) f) eqn:Ex; cbn.
    + split; [apply fs_exists_remove | exact Rp2].
    + split; [exact Ex | exact Rp2].
  - split; [exact F2|]. now rewrite Rp2.
Qed.

(** C7.  [restore_original_settings] returns True or False and
    changes attributes only.  It returns False exactly when the
    backed-up camera no longer exists or an assignment raised.  When
    nothing raises, every statement of the function has run: a missing
    camera is noted and the fields after it are still restored, so
    that in the end the camera, if the file has it, and every stored
    field are in place (but for the start of the frame range, which
    the host may have moved when the end was restored).  When an
    assignment raises, the restoration ends there: the statements
    before it have run, the scene is the one in which the statement
    raised, and no later field is restored.  A statement that ends
    normally has put its value in place, as the host takes it, and has
    changed no other attribute but the other end of the frame range.
    The [finally] block of the render operator runs the restoration
    and then, when it returned True, removes the backup file, and when
    it returned False, reports a WARNING and leaves the files alone. *)
Theorem restore_original_settings_outcome (settings : Dict.t json)
  (s : State) :
  let s' := snd (restore_original_settings settings s) in
  let raised := exists e, fst (restore_body settings s) = Raise e in
  (exists b, fst (restore_original_settings settings s) = Ok b)
  /\ only_rna s s'
  /\ (fst (restore_original_settings settings s) = Ok false
      <-> camera_missing settings s \/ raised)
  /\ (~ raised ->
      exists errors,
        runs settings restore_plan s errors s'
        /\ (errors <> [] <-> camera_missing settings s)
        /\ camera_applied settings s'
        /\ forall key a opt v,
             In (Field key a opt) restore_plan -> a <> Attr.frame_start ->
             Dict.get key settings = Some v -> rna s a <> None ->
             exists r0 v',
               accept (data s) r0 a v = Some v' /\ rna s' a = Some v')
  /\ (raised ->
      exists pre st post errors e,
        restore_plan = (pre ++ st :: post)%list
        /\ runs settings pre s errors s'
        /\ run_step settings st s' = (Raise e, s'))
  /\ (forall st s0 errors s1,
        run_step settings st s0 = (Ok errors, s1) ->
        step_frame st s0 s1 /\ step_applied settings st s0 s1 errors)
  /\ (forall (f : string) (s0 : State),
        exists s1,
          render_stop_progress s0 = (Ok tt, s1)
          /\ rna s1 = rna s0 /\ data s1 = data s0 /\ fs s1 = fs s0
          /\ let s2 := snd (render_finally (Some f) settings s0) in
             match fst (restore_original_settings settings s1) with
             | Ok true =>
                 FS.exists_ (fs s2) f = false /\ reports s2 = reports s0
             | _ =>
                 fs s2 = fs s0
                 /\ reports s2 = (reports s0 ++ [(WARNING, restore_warning)])%list
             end).
Proof.
  cbv zeta. unfold restore_original_settings, try_except.
  destruct (restore_cases settings s)
    as [(errors & s' & E & R)|(pre & st & post & errors & e & s' & E & P & R & Rs)];
    rewrite E; unfold ret; cbn [fst snd].
  - pose proof (runs_frame _ _ _ _ _ R) as (O & _).
    pose proof (runs_errors _ _ _ _ _ R) as Er.
    assert (errors <> [] <-> camera_missing settings s) as Er'.
    { rewrite Er. split; [tauto|]. intros M. split; [|exact M].
      cbn. tauto. }
    destruct (runs_applied _ _ _ _ _ R restore_plan_settled) as [Af Ac].
    split; [eauto|]. split; [exact O|]. split; [|split; [|split; [|split]]].
    + rewrite <- Er'. split.
      * intros Hb. left. destruct errors; [discriminate Hb|discriminate].
      * intros [Hn|(x & Hx)]; [|discriminate Hx].
        destruct errors; [congruence|reflexivity].
    + intros _. exists errors. split; [exact R|]. split; [exact Er'|].
      split; [apply Ac; cbn; tauto|exact Af].
    + intros (x & Hx). discriminate Hx.
    + intros st s0 errs s1. apply run_step_ok.
    + intros f s0. apply render_finally_backup.
  - pose proof (runs_frame _ _ _ _ _ R) as (O & _).
    split; [eauto|]. split; [exact O|]. split; [|split; [|split; [|split]]].
    + split; [intros _; right; eauto|reflexivity].
    + intros Hn. destruct Hn. eauto.
    + intros _. exists pre, st, post, errors, e. auto.
    + intros st0 s0 errs s1. apply run_step_ok.
    + intros f s0. apply render_finally_backup.
Qed.

(** The restoration is not best effort.  With a rate factor in the
    backup that is a number, or the text of one, the first block maps
    it to an enum value, the later direct assignment raises, and the
    simplify flag, which the host would accept, is never put back. *)
Lemma restore_is_not_best_effort :
  ~ best_effort numeric_rate_backup demo_state
  /\ ~ best_effort text_rate_backup demo_state.
Proof.
  split; intros B.
  - assert (rna (snd (restore_original_settings numeric_rate_backup demo_state))
              Attr.use_simplify = Some (JBool true)) as X.
    { apply B with (key := "use_simplify") (opt := false) (v := JBool true).
      - repeat (first [left; reflexivity | right]).
      - reflexivity.
      - discriminate.
      - reflexivity. }
    vm_compute in X. discriminate X.
  - assert (rna (snd (restore_original_settings text_rate_backup demo_state))
              Attr.use_simplify = Some (JBool true)) as X.
    { apply B with (key := "use_simplify") (opt := false) (v := JBool true).
      - repeat (first [left; reflexivity | right]).
      - reflexivity.
      - discriminate.
      - reflexivity. }
    vm_compute in X. discriminate X.
Qed.

Lemma restore_original_settings_outcome_witness :
  let s' := snd (restore_original_settings text_rate_backup demo_state) in
  fst (restore_original_settings text_rate_backup demo_state) = Ok false
  /\ exists pre st post errors e,
       restore_plan = (pre ++ st :: post)%list
       /\ runs text_rate_backup pre demo_state errors s'
       /\ run_step text_rate_backup st s' = (Raise e, s').
Proof.
  destruct (restore_original_settings_outcome text_rate_backup demo_state)
    as (_ & _ & Hfalse & _ & Hraised & _).
  assert (exists e, fst (restore_body text_rate_backup demo_state) = Raise e)
    as Hr by (eexists; vm_compute; reflexivity).
  split; [apply Hfalse; now right|exact (Hraised Hr)].
Defined.

(** ** What a render leaves behind *)

(** C1.  After the render operator not every render setting has the
    value it had before.  In a saved scene with the add-on's defaults
    (metadata burn-in on) the operator returns FINISHED, or CANCELLED
    when the viewport render raises, and the stamp settings that it
    switched off for the render ([use_stamp_date], [use_stamp_time],
    [use_stamp_render_time], [use_stamp_filename]) stay off afterwards:
    they are not part of the backup.  The settings that are backed up
    are as before. *)
Theorem render_leaves_stamp_settings_changed :
  let after := snd (render_execute demo_host demo_state) in
  let after_failure := snd (render_execute failing_host demo_state) in
  fst (render_execute demo_host demo_state) = Ok FINISHED
  /\ fst (render_execute failing_host demo_state) = Ok CANCELLED
  /\ rna demo_state Attr.use_stamp_date = Some (JBool true)
  /\ rna after Attr.use_stamp_date = Some (JBool false)
  /\ rna after_failure Attr.use_stamp_date = Some (JBool false)
  /\ rna demo_state Attr.use_stamp_time = Some (JBool true)
  /\ rna after Attr.use_stamp_time = Some (JBool false)
  /\ rna demo_state Attr.use_stamp_render_time = Some (JBool true)
  /\ rna after Attr.use_stamp_render_time = Some (JBool false)
  /\ rna demo_state Attr.use_stamp_filename = Some (JBool true)
  /\ rna after Attr.use_stamp_filename = Some (JBool false)
  /\ rna after Attr.use_stamp = rna demo_state Attr.use_stamp
  /\ rna after Attr.filepath = rna demo_state Attr.filepath
  /\ rna after Attr.file_format = rna demo_state Attr.file_format
  /\ rna after Attr.frame_end = rna demo_state Attr.frame_end.
Proof. vm_compute. repeat split. Qed.

(** ** Running a computation forwards *)

Section Forwards.

Local Open Scope monad_scope.

Context {A B : Type}.

Lemma triple_wp (P : State -> Prop) (m : M A) Q E :
  (forall s, P s -> wp m Q E s) -> triple P m Q E.
Proof. exact (fun T => T). Qed.

Lemma wp_triple (P : State -> Prop) (m : M A) Q' E' Q E s :
  triple P m Q' E' -> P s ->
  (forall a s', Q' a s' -> Q a s') -> (forall s', E' s' -> E s') ->
  wp m Q E s.
Proof.
  intros T Hs HQ HE. specialize (T s Hs). unfold wp.
  destruct (m s) as [[a|e] s']; auto.
Qed.

Lemma wp_run (m : M A) Q E s :
  wp m Q E s ->
  match m s with (Ok a, s') => Q a s' | (Raise _, s') => E s' end.
Proof. exact (fun T => T). Qed.

Lemma wp_ret (a : A) Q E s : Q a s -> wp (ret a) Q E s.
Proof. exact (fun T => T). Qed.

Lemma wp_raise msg (Q : A -> State -> Prop) E s : E s -> wp (raise msg) Q E s.
Proof. exact (fun T => T). Qed.

Lemma wp_gets (f : State -> A) Q E s : Q (f s) s -> wp (gets f) Q E s.
Proof. exact (fun T => T). Qed.

Lemma wp_bind (m : M A) (f : A -> M B) Q E s :
  wp m (fun a => wp (f a) Q E) E s -> wp (bind m f) Q E s.
Proof. unfold wp, bind. now destruct (m s) as [[a|e] s']. Qed.

Lemma wp_try_except (body : M A) handler Q E s :
  wp body Q (fun s' => forall e, wp (handler e) Q E s') s ->
  wp (try_except body handler) Q E s.
Proof.
  unfold wp, try_except. destruct (body s) as [[a|e] s']; [auto|].
  intros T. exact (T e).
Qed.

Lemma wp_try_finally (body : M A) (fin : M unit) Q E s :
  wp body (fun a => wp fin (fun _ => Q a) E) (wp fin (fun _ => E) E) s ->
  wp (try_finally body fin) Q E s.
Proof.
  unfold wp, try_finally. destruct (body s) as [[a|e] s'];
    now destruct (fin s') as [[[]|e'] s''].
Qed.

End Forwards.

Lemma wp_modify f (Q : unit -> State -> Prop) E s :
  Q tt (f s) -> wp (modify f) Q E s.
Proof. exact (fun T => T). Qed.

Lemma wp_report ty msg (Q : unit -> State -> Prop) E s :
  Q tt (set_reports (reports s ++ [(ty, msg)]) s) -> wp (report ty msg) Q E s.
Proof. exact (fun T => T). Qed.

Lemma wp_when b m (Q : unit -> State -> Prop) E s :
  (b = true -> wp m Q E s) -> (b = false -> Q tt s) -> wp (when b m) Q E s.
Proof. destruct b; cbn; auto. Qed.



Lemma wp_setattr a v (Q : unit -> State -> Prop) (E : State -> Prop) s :
  (forall v', rna s a <> None -> accept (data s) (rna s) a v = Some v' ->
              Q tt (set_rna (host_store a v' (rna s)) s)) ->
  E s ->
  wp (setattr a v) Q E s.
Proof.
  intros HQ HE. unfold wp, setattr. destruct (rna s a) eqn:R; [|exact HE].
  destruct (accept _ _ a v) eqn:C; [|exact HE]. apply HQ; congruence.
Qed.

(** One step of a forward run; [getattr] and [setattr] are left to
    the proof at hand. *)
Ltac wp_step :=
  lazymatch goal with
  | |- wp (bind _ _) _ _ _ => apply wp_bind
  | |- wp (ret _) _ _ _ => apply wp_ret
  | |- wp (raise _) _ _ _ => apply wp_raise
  | |- wp (gets _) _ _ _ => apply wp_gets
  | |- wp (modify _) _ _ _ => apply wp_modify
  | |- wp (report _ _) _ _ _ => apply wp_report
  | |- wp (try_except _ _) _ _ _ => apply wp_try_except
  | |- wp (try_finally _ _) _ _ _ => apply wp_try_finally
  | |- wp (callback _) _ _ _ => unfold callback; apply wp_try_except
  | |- wp ((fun _ => _) _) _ _ _ => cbv beta
  | |- wp (let _ := _ in _) _ _ _ => cbv zeta
  | |- (fun _ => _) _ => cbv beta
  | |- (fun _ => _) _ _ => cbv beta
  end.

Ltac wp_steps := repeat wp_step.

Lemma set_rna_twice r r' s : set_rna r (set_rna r' s) = set_rna r s.
Proof. reflexivity. Qed.

(** Keep the state of a run in the form [set_rna r s]. *)
Ltac wp_flat :=
  repeat match goal with
         | |- context [set_rna (host_store ?a ?v (rna (set_rna ?r ?s)))
                         (set_rna ?r ?s)] =>
             change (set_rna (host_store a v (rna (set_rna r s))) (set_rna r s))
               with (set_rna (host_store a v r) s)
         | |- context [set_rna (rna_set ?a ?v (rna (set_rna ?r ?s)))
                         (set_rna ?r ?s)] =>
             change (set_rna (rna_set a v (rna (set_rna r s))) (set_rna r s))
               with (set_rna (rna_set a v r) s)
         end.

Lemma triple_and {A} (P : State -> Prop) (m : M A) Q1 Q2 E1 E2 :
  triple P m Q1 E1 -> triple P m Q2 E2 ->
  triple P m (fun a s => Q1 a s /\ Q2 a s) (fun s => E1 s /\ E2 s).
Proof.
  intros T1 T2 s Hs. specialize (T1 s Hs). specialize (T2 s Hs).
  now destruct (m s) as [[a|e] s'].
Qed.

Lemma triple_any {A} (P : State -> Prop) (m : M A) :
  triple P m (fun _ _ => True) (fun _ => True).
Proof. intros s _. now destruct (m s) as [[a|e] s']. Qed.

(** ** The outcome of a render *)

Section RenderOutcome.

Variable H : Host.
Variable s0 : State.

(** What the render operator never touches, with the renders logged so
    far: none ([n = false]) or one ([n = true]). *)
Let quiet (n : bool) (s : State) : Prop :=
  reports s = reports s0
  /\ data s = data s0
  /\ (timers_available (data s0) = false ->
      timer_registered s = timer_registered s0)
  /\ if n then exists x, rendered s = (rendered s0 ++ [x])%list
     else rendered s = rendered s0.

(** The scene when the [try] statement is left with result [r]. *)
Let left_with (r : op_result) (s : State) : Prop :=
  data s = data s0
  /\ (timers_available (data s0) = false ->
      timer_registered s = timer_registered s0)
  /\ quickpreview_progress s = progress_of r
  /\ result_renders r (rendered s0) (rendered s)
  /\ exists msg, reports s = (reports s0 ++ [msg])%list /\ result_report r msg.

(** The scene when the operator returns [r]. *)
Let returned (r : op_result) (s : State) : Prop :=
  quickpreview_progress s = progress_of r
  /\ quickpreview_is_rendering s = false
  /\ timer_registered s
     = (if timers_available (data s0) then false else timer_registered s0)
  /\ result_renders r (rendered s0) (rendered s)
  /\ exists msg tail,
       reports s = (reports s0 ++ msg :: tail)%list
       /\ (tail = [] \/ tail = [(WARNING, restore_warning)])
       /\ result_report r msg.

Ltac quiet_side :=
  unfold quiet; intros; simpl;
  repeat match goal with
         | |- context [if ?b then _ else _] => destruct b
         end;
  simpl; auto.

Lemma timers_register_quiet n : preserves (quiet n) timers_register.
Proof.
  intros s (R & D & T & N). unfold timers_register, bind, gets.
  destruct (timers_available (data s)) eqn:Av; cbn.
  - repeat split; auto. intros Hn. rewrite D in Av. congruence.
  - repeat split; auto.
Qed.

Ltac quiet_keeps :=
  repeat first [apply timers_register_quiet | keeps_step quiet_side].

Lemma store_quiet : safe (quiet false) store_original_settings.
Proof.
  unfold store_original_settings. apply safe_try_except.
  - quiet_keeps.
  - intros e. apply safe_ret.
Qed.

Lemma prepare_quiet : preserves (quiet false) (render_prepare_output H).
Proof. quiet_keeps. Qed.

Lemma frame_range_quiet : preserves (quiet false) render_apply_frame_range.
Proof. quiet_keeps. Qed.

Lemma overrides_quiet : preserves (quiet false) render_apply_overrides.
Proof. quiet_keeps. Qed.

Lemma quiet_some n s : quiet n s -> exists n', quiet n' s.
Proof. eauto. Qed.

Lemma opengl_quiet :
  triple (quiet false) (bpy_ops_render_opengl H)
    (fun _ => quiet true) (fun s => exists n, quiet n s).
Proof.
  intros s (R & D & T & N). unfold bpy_ops_render_opengl.
  assert (quiet true (set_rendered (rendered s ++ [rna s]) s)) as Q1.
  { repeat split; auto. exists (rna s). cbn. now rewrite N. }
  destruct (render_opengl H (rna s)).
  - destruct Q1 as (R1 & D1 & T1 & N1). repeat split; auto.
  - eauto.
Qed.

Lemma viewport_quiet :
  triple (quiet false) (render_viewport H)
    (fun _ => quiet true) (fun s => exists n, quiet n s).
Proof.
  unfold render_viewport.
  eapply triple_bind with (R := fun _ => quiet false).
  - apply triple_gets. auto.
  - intros [vse scene].
    assert (triple (quiet false)
              (bind (setattr Attr.ffmpeg_audio_codec (JStr "AAC"))
                 (fun _ => bpy_ops_render_opengl H))
              (fun _ => quiet true) (fun s => exists n, quiet n s)) as T.
    { eapply triple_bind with (R := fun _ => quiet false).
      - eapply triple_conseq;
          [apply (preserves_setattr (quiet false)); quiet_side| | |]; eauto.
      - intros []. apply opengl_quiet. }
    destruct vse; [exact T|]. destruct scene; [exact T|apply opengl_quiet].
Qed.

Lemma finish_left_with p :
  triple (quiet true) (render_finish p)
    (fun r s => r = FINISHED /\ left_with r s) (fun _ => False).
Proof.
  apply triple_wp. intros s (R & D & T & x & N).
  unfold render_finish, open_file, open_folder.
  wp_steps. apply wp_when; intros _; wp_steps;
    (apply wp_when; intros _; wp_steps);
    (split; [reflexivity|]);
    repeat match goal with
           | |- context [if ?b then _ else _] => destruct b
           end;
    cbn; (repeat split; auto; [exists x; assumption|]);
    eexists; (split; [rewrite R; reflexivity|]); cbn; eauto.
Qed.

Lemma body_left_with :
  triple (quiet false) (render_body H)
    (fun r s => r = FINISHED /\ left_with r s) (fun s => exists n, quiet n s).
Proof.
  unfold render_body.
  eapply triple_bind with (R := fun _ => quiet false).
  { eapply triple_conseq; [apply prepare_quiet| | |]; eauto. }
  intros full_path. eapply triple_bind with (R := fun _ => quiet false).
  { eapply triple_conseq; [apply frame_range_quiet| | |]; eauto. }
  intros []. eapply triple_bind with (R := fun _ => quiet false).
  { eapply triple_conseq; [apply overrides_quiet| | |]; eauto. }
  intros []. eapply triple_bind; [apply viewport_quiet|].
  intros []. eapply triple_conseq; [apply finish_left_with| | |]; auto.
  intros s [].
Qed.

Lemma handler_left_with e :
  triple (fun s => exists n, quiet n s)
    (bind (report ERROR ("Rendering failed: " ++ e))
       (fun _ => bind (modify (set_quickpreview_progress 0))
                   (fun _ => ret CANCELLED)))
    left_with (fun _ => False).
Proof.
  apply triple_wp. intros s (n & R & D & T & N). wp_steps.
  cbn. repeat split; auto.
  - destruct n; [right; exact N | left; exact N].
  - eexists. split; [rewrite R; reflexivity|]. cbn. eauto.
Qed.

Lemma stop_progress_runs s :
  exists s1,
    render_stop_progress s = (Ok tt, s1)
    /\ quickpreview_progress s1 = quickpreview_progress s
    /\ rendered s1 = rendered s
    /\ reports s1 = reports s
    /\ quickpreview_is_rendering s1 = false
    /\ timer_registered s1
       = (if timers_available (data s) then false else timer_registered s).
Proof.
  unfold render_stop_progress, bind, modify, gets, when, try_except,
    timers_unregister. cbn.
  destruct (timers_available (data s)) eqn:Av; cbn.
  - unfold bind, gets, modify. cbn.
    destruct (timer_registered s) eqn:Tr; cbn; eexists;
      (split; [reflexivity|]); cbn; rewrite ?Av; repeat split; auto.
  - eexists. split; [reflexivity|]. cbn. rewrite ?Av. repeat split.
Qed.

Lemma finally_returned f settings r :
  triple (left_with r) (render_finally f settings)
    (fun _ => returned r) (fun _ => False).
Proof.
  intros s (D & T & P & N & msg & R & M).
  unfold render_finally, bind.
  destruct (stop_progress_runs s) as (s1 & E1 & P1 & N1 & R1 & I1 & T1).
  rewrite E1.
  destruct (restore_returns settings s1) as (b & s2 & E2 & O). rewrite E2.
  assert (timer_registered s1
          = if timers_available (data s0) then false else timer_registered s0)
    as T1'.
  { rewrite T1, D. destruct (timers_available (data s0)); auto. }
  assert (returned r s2) as Ret.
  { rewrite O. unfold returned. cbn. rewrite P1, I1, T1', N1, R1.
    repeat split; auto. exists msg, []. auto. }
  destruct b; cbn.
  - destruct f as [f|]; [|exact Ret].
    unfold bind, gets, when. destruct (FS.exists_ (fs s2) f); exact Ret.
  - destruct Ret as (P2 & I2 & T2 & N2 & msg' & tail & R2 & _ & M2).
    unfold returned. cbn. repeat split; auto.
    exists msg, [(WARNING, restore_warning)]. rewrite O. cbn. rewrite R1, R.
    rewrite <- app_assoc. auto.
Qed.

Lemma execute_returned :
  triple (fun s => s = s0 /\ is_saved (data s0) = true) (render_execute H)
    returned (fun _ => False).
Proof.
  unfold render_execute.
  eapply triple_bind
    with (R := fun saved s => saved = true /\ quiet false s).
  { apply triple_gets. intros s [-> Hs]. split; [exact Hs|].
    repeat split. }
  intros saved. destruct saved; cbn.
  2:{ intros s [Hs _]. discriminate Hs. }
  eapply triple_bind with (R := fun _ => quiet false).
  { eapply triple_conseq; [apply store_quiet| | |]; auto. now intros s []. }
  intros [backup_file original_settings].
  apply triple_try_finally with (Q' := left_with) (E' := fun _ => False).
  - apply triple_try_except with (E' := fun s => exists n, quiet n s).
    + eapply triple_conseq; [apply body_left_with| | |]; auto.
      now intros r s [-> L].
    + apply handler_left_with.
  - intros r. apply finally_returned.
  - intros s [].
Qed.

End RenderOutcome.

(** X1.  In a saved file the render operator always returns.  When it
    returns FINISHED the progress value is 1.0, exactly one viewport
    render ran and an INFO names the file; when it returns CANCELLED
    the progress value is 0.0, one viewport render ran at most and an
    ERROR tells why.  In both cases the rendering flag is off, the
    progress timer is no longer registered (where the host has timers)
    and the only other report is the WARNING of a failed
    restoration. *)
Theorem render_execute_outcome (H : Host) (s : State) :
  is_saved (data s) = true ->
  let s' := snd (render_execute H s) in
  exists r,
    fst (render_execute H s) = Ok r
    /\ quickpreview_progress s' = progress_of r
    /\ quickpreview_is_rendering s' = false
    /\ timer_registered s'
       = (if timers_available (data s) then false else timer_registered s)
    /\ result_renders r (rendered s) (rendered s')
    /\ exists msg tail,
         reports s' = (reports s ++ msg :: tail)%list
         /\ (tail = [] \/ tail = [(WARNING, restore_warning)])
         /\ result_report r msg.
Proof.
  intros Hs s'. subst s'.
  pose proof (execute_returned H s s (conj eq_refl Hs)) as T.
  destruct (render_execute H s) as [[r|e] s']; [|destruct T].
  exists r. cbn. split; [reflexivity|exact T].
Qed.

Lemma render_execute_outcome_witness :
  fst (render_execute failing_host demo_state) = Ok CANCELLED
  /\ quickpreview_progress (snd (render_execute failing_host demo_state)) = 0%Q
  /\ timer_registered (snd (render_execute failing_host demo_state)) = false.
Proof.
  destruct (render_execute_outcome failing_host demo_state eq_refl)
    as (r & E & P & _ & T & _).
  assert (fst (render_execute failing_host demo_state) = Ok CANCELLED) as E'
    by (vm_compute; reflexivity).
  rewrite E' in E. injection E as <-.
  repeat split; assumption.
Defined.

(** ** The queue processor *)

Section QueueCall.

Variable H : Host.

(** A cancelled render has reported an ERROR. *)
Lemma cancelled_reports_error s s1 :
  render_execute H s = (Ok CANCELLED, s1) ->
  exists text tail,
    reports s1 = (reports s ++ (ERROR, text) :: tail)%list.
Proof.
  intros E. destruct (is_saved (data s)) eqn:Sv.
  - pose proof (execute_returned H s s (conj eq_refl Sv)) as T.
    rewrite E in T. destruct T as (_ & _ & _ & _ & msg & tail & R & _ & (e & ->)).
    eauto.
  - revert E. unfold render_execute, bind, gets. rewrite Sv. cbn.
    intros [= <-]. cbn. eauto.
Qed.

(** The call of the render operator hands back FINISHED or raises. *)
Lemma render_call_result s r s' :
  bpy_ops_quickpreview_render H s = (Ok r, s') -> r = FINISHED.
Proof.
  unfold bpy_ops_quickpreview_render, bind, gets.
  destruct (render_execute H s) as [[r0|e] s1] eqn:E; [|discriminate].
  destruct r0.
  - destruct (existsb _ _); [discriminate|]. now intros [= <- _].
  - destruct (cancelled_reports_error _ _ E) as (text & tail & ->).
    rewrite skipn_app, Nat.sub_diag, skipn_all. cbn. discriminate.
Qed.

Variable q0 : list Item.t.

Ltac failure_side :=
  unfold no_new_failure; intros; simpl;
  repeat match goal with
         | |- context [if ?b then _ else _] => destruct b
         | |- context [match ?x with Some _ => _ | None => _ end] => destruct x
         end;
  simpl; auto.

Lemma render_call_keeps :
  triple (no_new_failure q0) (bpy_ops_quickpreview_render H)
    (fun r s => r = FINISHED /\ no_new_failure q0 s) (no_new_failure q0).
Proof.
  assert (preserves (no_new_failure q0) (bpy_ops_quickpreview_render H)) as P
    by keeps failure_side.
  intros s Hs. specialize (P s Hs).
  destruct (bpy_ops_quickpreview_render H s) as [[r|e] s'] eqn:E; [|exact P].
  split; [eapply render_call_result; eauto|exact P].
Qed.

Lemma update_nth_keeps i st (q : list Item.t) :
  st <> FAILED ->
  Forall2
    (fun before after =>
       Item.status_ after = FAILED -> Item.status_ before = FAILED) q0 q ->
  Forall2
    (fun before after =>
       Item.status_ after = FAILED -> Item.status_ before = FAILED) q0
    (update_nth i (Item.set_status st) q).
Proof.
  intros Hst F. revert i. induction F as [|x y l l' Hxy F IH]; intros i.
  - destruct i; constructor.
  - destruct i; cbn; constructor; auto.
    cbn. intros E. congruence.
Qed.

Lemma process_item_keeps i : preserves (no_new_failure q0) (process_item H i).
Proof.
  unfold process_item.
  apply preserves_bind; [apply preserves_gets|]. intros queue.
  destruct (nth_error queue i) as [item|]; [|apply preserves_ret].
  destruct (negb (Item.enabled item)); [apply preserves_ret|].
  apply preserves_bind.
  { apply preserves_modify. intros s Hs. unfold no_new_failure. cbn.
    apply update_nth_keeps; [discriminate|exact Hs]. }
  intros _. apply preserves_bind; [keeps failure_side|]. intros _.
  apply preserves_bind; [keeps failure_side|]. intros _.
  eapply triple_bind; [apply render_call_keeps|].
  intros r. apply triple_conseq
    with (P' := fun s => r = FINISHED /\ no_new_failure q0 s)
         (Q' := fun _ s => no_new_failure q0 s) (E' := no_new_failure q0); auto.
  intros s [-> Hs]. unfold set_item_status, modify. cbn.
  apply update_nth_keeps; [discriminate|exact Hs].
Qed.

Lemma process_queue_keeps :
  preserves (no_new_failure q0) (process_queue_execute H).
Proof.
  unfold process_queue_execute.
  apply preserves_bind; [apply preserves_gets|]. intros queue.
  destruct queue; [keeps failure_side|].
  do 4 (apply preserves_bind; [keeps failure_side|intros]).
  apply preserves_bind.
  { apply preserves_for_each. apply process_item_keeps. }
  intros. keeps failure_side.
Qed.

End QueueCall.

(** C5.  With an empty queue the operator reports a WARNING and
    returns CANCELLED without processing anything.  The call of the
    render operator hands back FINISHED or raises, since the host
    turns the ERROR that a cancelled render has reported into a
    [RuntimeError]: so no item ever becomes FAILED, and a cancelled
    render ends the run.  With a viewport render that fails, the
    operator raises at the first item of the queue, which stays
    PROCESSING, the later items are not touched, and the output path
    and the camera are not put back; the same holds in a file that was
    never saved, where every render is cancelled.  When every render
    succeeds, the enabled items are COMPLETED in order and the scene
    is put back. *)
Theorem process_queue_stops_at_cancelled_render (H : Host) (s : State) :
  (quickpreview_queue s = [] ->
   process_queue_execute H s
     = (Ok CANCELLED,
        set_reports (reports s ++ [(WARNING, "Queue is empty")])%list s))
  /\ (forall s1 r s2,
        bpy_ops_quickpreview_render H s1 = (Ok r, s2) -> r = FINISHED)
  /\ no_new_failure (quickpreview_queue s) (snd (process_queue_execute H s))
  /\ (let s' := snd (process_queue_execute failing_host queue_state) in
      fst (process_queue_execute failing_host queue_state)
        = Raise "RuntimeError"
      /\ map Item.status_ (quickpreview_queue queue_state)
         = [PENDING; PENDING; PENDING]
      /\ map Item.status_ (quickpreview_queue s')
         = [PROCESSING; PENDING; PENDING]
      /\ quickpreview_output_path queue_state = ""
      /\ quickpreview_output_path s' = "/proj/out/a_v001.mp4")
  /\ (let s' := snd (process_queue_execute failing_host
                       second_camera_queue_state) in
      fst (process_queue_execute failing_host second_camera_queue_state)
        = Raise "RuntimeError"
      /\ map Item.status_ (quickpreview_queue s') = [PROCESSING; PENDING]
      /\ rna second_camera_queue_state Attr.camera = Some (JStr "Camera")
      /\ rna s' Attr.camera = Some (JStr "Cam2"))
  /\ (let s' := snd (process_queue_execute demo_host unsaved_queue_state) in
      fst (process_queue_execute demo_host unsaved_queue_state)
        = Raise "RuntimeError"
      /\ map Item.status_ (quickpreview_queue s')
         = [PROCESSING; PENDING; PENDING])
  /\ (let s' := snd (process_queue_execute demo_host queue_state) in
      fst (process_queue_execute demo_host queue_state) = Ok FINISHED
      /\ map Item.status_ (quickpreview_queue s')
         = [COMPLETED; PENDING; COMPLETED]
      /\ rna s' Attr.camera = rna queue_state Attr.camera
      /\ rna s' Attr.frame_start = rna queue_state Attr.frame_start
      /\ rna s' Attr.frame_end = rna queue_state Attr.frame_end
      /\ quickpreview_output_path s' = quickpreview_output_path queue_state).
Proof.
  split; [|split; [|split; [|split; [|split; [|split]]]]].
  - intros Hq. unfold process_queue_execute, bind, gets. now rewrite Hq.
  - intros s1 r s2. apply render_call_result.
  - apply preserves_snd; [apply process_queue_keeps|].
    unfold no_new_failure. induction (quickpreview_queue s); constructor; auto.
  - vm_compute. repeat split.
  - vm_compute. repeat split.
  - vm_compute. repeat split.
  - vm_compute. repeat split.
Qed.

(** ** The re-entrancy flag *)

Section Updating.

Variable H : Host.

Let released (s : State) : Prop := updating s = false.

(** A [try] statement whose [finally] block clears the flag leaves it
    cleared, whatever the body does. *)
Lemma finally_releases {A} (body : M A) :
  preserves released (try_finally body (modify (set_updating false))).
Proof.
  apply triple_try_finally with (Q' := fun _ _ => True) (E' := fun _ => True).
  - eapply triple_conseq; [apply triple_any| | |]; eauto.
  - intros a. now apply triple_modify.
  - now apply triple_modify.
Qed.

Ltac released_side :=
  unfold released; intros; simpl;
  repeat match goal with
         | |- context [if ?b then _ else _] => destruct b
         | |- context [match ?x with Some _ => _ | None => _ end] => destruct x
         end;
  simpl; auto.

Ltac released_keeps :=
  repeat first [apply finally_releases | keeps_step released_side].

Lemma released_kept a : preserves released (perform H a).
Proof. destruct a; unfold perform; released_keeps. Qed.

End Updating.

(** X2.  The module flag [updating] is released after every operator,
    callback and timer tick: in every scene that can be reached from
    one where the flag is off, the flag is off.  While the flag is on,
    the update callbacks return at once and change nothing. *)
Theorem updating_flag_released (H : Host) (s0 s : State) :
  updating s0 = false ->
  reachable H s0 s ->
  updating s = false
  /\ forall s1,
       updating s1 = true ->
       update_camera H s1 = (Ok tt, s1)
       /\ update_frame_range H s1 = (Ok tt, s1)
       /\ update_frame_start_end H s1 = (Ok tt, s1)
       /\ forall c, load_camera_frame_range H c s1 = (Ok tt, s1).
Proof.
  intros H0 R. split.
  - induction R as [|s a _ IH]; [assumption|].
    unfold run_action.
    apply (preserves_snd (fun s => updating s = false)); [|exact IH].
    apply released_kept.
  - intros s1 H1.
    unfold update_camera, update_frame_range, update_frame_start_end,
      load_camera_frame_range, bind, gets.
    rewrite H1. repeat split.
Qed.

Lemma updating_flag_released_witness :
  updating
    (run_action demo_host (PickCamera "Cam2")
       (run_action demo_host (EditFrameStart 5) demo_state)) = false.
Proof.
  apply (updating_flag_released demo_host demo_state); [reflexivity|].
  do 2 apply reach_step. apply reach_start.
Defined.

(** ** What a viewport render runs with *)

Lemma wp_skip {A} (I : State -> Prop) (m : M A) Q E s :
  preserves I m -> I s ->
  (forall a s', I s' -> Q a s') -> (forall s', I s' -> E s') ->
  wp m Q E s.
Proof. intros T. now apply wp_triple. Qed.

Section Chosen.

Variable H : Host.
Variable s0 : State.

(** Nothing rendered yet, and the choices are the ones of [s0]. *)
Let base (s : State) : Prop :=
  rendered s = rendered s0 /\ options s = options s0
  /\ quickpreview_camera s = quickpreview_camera s0 /\ data s = data s0.

Let simplified (s : State) : Prop :=
  base s
  /\ rna s Attr.use_simplify
     = Some (JBool (quickpreview_use_simplify (options s0))).

Let formatted (s : State) : Prop :=
  simplified s /\ format_attributes (data s0) (options s0) (rna s).

Let ready (s : State) : Prop :=
  rendered s = rendered s0 /\ rendered_as_chosen s0 (rna s).

Let logged (s : State) : Prop :=
  exists new,
    rendered s = (rendered s0 ++ new)%list
    /\ Forall (rendered_as_chosen s0) new.

Lemma rendered_logged s : rendered s = rendered s0 -> logged s.
Proof. intros R. exists []. rewrite R, app_nil_r. auto. Qed.

Ltac other_attribute :=
  first [discriminate | intros [[? ?]|[? ?]]; discriminate].

Ltac chosen_side :=
  unfold formatted, simplified, base, format_attributes;
  intros; cbn [rna set_rna];
  rewrite ?host_store_other by other_attribute;
  simpl;
  repeat match goal with
         | H : _ /\ _ |- _ => destruct H
         end;
  repeat match goal with
         | |- context [if ?b then _ else _] => destruct b
         | |- context [match ?x with Some _ => _ | None => _ end] => destruct x
         end;
  simpl; auto;
  try (destruct (quickpreview_output_format (options s0)); simpl in *;
       intuition auto).

Ltac logged_side :=
  apply rendered_logged; unfold formatted, simplified, base in *; cbn;
  repeat match goal with
         | H : _ /\ _ |- _ => destruct H
         end;
  assumption.

(** Run a statement that keeps [I]. *)
Ltac wp_keep I :=
  apply (wp_skip I);
  [keeps chosen_side
  |try assumption
  |intros ? ? ?; cbv beta
  |intros ? ?; try logged_side].

(** Run an assignment that the host accepts. *)
Ltac wp_set :=
  apply wp_setattr;
  [let Hc := fresh "Hc" in
   intros ? _ Hc; unfold accept in Hc; cbn [Attr.kind_of] in Hc;
   lazymatch type of Hc with
   | (if ?b then _ else _) = _ => destruct b; [|discriminate Hc]
   | _ => idtac
   end;
   injection Hc as <-; cbn [host_store]; wp_flat
  |try logged_side].

(** Name the current state and keep only [I] of it. *)
Ltac seal I tac :=
  match goal with
  | |- wp _ _ _ ?s1 =>
      let Hn := fresh "Hs" in
      assert (I s1) as Hn by tac;
      let s' := fresh "s" in
      set (s' := s1) in *; clearbody s'
  end.

Ltac formatted_now F :=
  unfold formatted, simplified, base, format_attributes, host_int in *;
  rewrite ?F; cbn [rna data set_rna rna_set Attr.eqb Attr.eq_dec];
  repeat match goal with
         | H : _ /\ _ |- _ => destruct H
         end;
  repeat split; auto; cbn; try congruence.

Ltac seal_formatted F :=
  match goal with
  | |- wp _ _ _ ?s1 =>
      let Hn := fresh "Hs" in
      assert (formatted s1) as Hn by (formatted_now F);
      let s' := fresh "s" in
      set (s' := s1) in *; clearbody s'
  end.

Lemma prepare_formatted :
  triple base (render_prepare_output H) (fun _ => formatted) logged.
Proof.
  apply triple_wp. intros s Hb. unfold render_prepare_output.
  do 3 (apply wp_bind; wp_keep base; [];
        match goal with
        | Hs : base ?s' |- _ => clear s Hb; rename Hs into Hb; rename s' into s
        end).
  apply wp_bind, wp_gets.
  replace (options s) with (options s0) by (symmetry; apply Hb).
  apply wp_bind. wp_set.
  seal simplified ltac:(split; [exact Hb|reflexivity]).
  do 5 (apply wp_bind; wp_keep simplified; []).
  apply wp_bind.
  destruct (quickpreview_output_format (options s0)) eqn:F.
  - apply wp_bind; wp_set. apply wp_bind. apply wp_bind; wp_set. wp_set.
    destruct (quickpreview_video_quality (options s0)) eqn:Q;
      wp_set; apply wp_ret; formatted_now F; rewrite Q; reflexivity.
  - apply wp_bind; wp_set. apply wp_bind. apply wp_bind; wp_set. wp_set.
    destruct (quickpreview_video_quality (options s0)) eqn:Q;
      wp_set; apply wp_ret; formatted_now F; rewrite Q; reflexivity.
  - apply wp_bind. wp_set.
    seal_formatted F.
    do 2 (apply wp_bind; wp_keep formatted; []).
    wp_keep formatted. apply wp_ret. assumption.
  - apply wp_bind. apply wp_bind. wp_set. wp_set.
    seal_formatted F.
    do 2 (apply wp_bind; wp_keep formatted; []).
    wp_keep formatted. apply wp_ret. assumption.
Qed.

Lemma store_base : preserves base store_original_settings.
Proof. keeps chosen_side. Qed.

Lemma frame_range_formatted : preserves formatted render_apply_frame_range.
Proof. keeps chosen_side. Qed.

Lemma overrides_ready :
  triple formatted render_apply_overrides (fun _ => ready) logged.
Proof.
  apply triple_wp. intros s Hs. unfold render_apply_overrides.
  apply wp_bind, wp_gets. apply wp_bind, wp_gets. apply wp_bind, wp_gets.
  replace (options s) with (options s0) by (symmetry; apply Hs).
  replace (quickpreview_camera s) with (quickpreview_camera s0)
    by (symmetry; apply Hs).
  replace (object_exists (quickpreview_camera s0) s)
    with (object_exists (quickpreview_camera s0) s0)
    by (unfold object_exists; f_equal; f_equal; symmetry; apply Hs).
  apply wp_bind, wp_when; intros Hcam; [wp_set|]; cbv beta;
    (apply wp_bind, wp_when; intros Hfps; [wp_set|]; cbv beta);
    (apply wp_bind, wp_when; intros Hres; [wp_set|]; cbv beta);
    apply wp_bind;
    (destruct (quickpreview_burn_metadata (options s0)) eqn:Hburn;
     [do 13 (apply wp_bind; wp_set); wp_set | wp_set]);
    wp_set.
  all: destruct Hs as (((Rn & Op & Cm & Dt) & Hsimp) & Hfmt).
  all: unfold ready, rendered_as_chosen, stamp_attributes,
         override_attributes, host_int;
       cbn [rendered set_rna rna data]; rewrite ?Dt.
  all: split; [exact Rn|]; split; [exact Hsimp|].
  all: split;
    [unfold format_attributes in *;
     destruct (quickpreview_output_format (options s0)); cbn; intuition auto|].
  all: split;
    [rewrite Hburn; cbn;
     repeat first [split | constructor | reflexivity]|].
  all: split;
    [split; intros Ho; first [reflexivity | congruence]|].
  all: split; [|reflexivity].
  all: unfold camera_attribute; intros Hne Hex; try reflexivity.
  all: apply String.eqb_neq in Hne; rewrite Hne, Hex in Hcam.
  all: discriminate Hcam.
Qed.

Lemma opengl_logged :
  triple ready (bpy_ops_render_opengl H) (fun _ => logged) logged.
Proof.
  intros s (R & C). unfold bpy_ops_render_opengl.
  assert (logged (set_rendered (rendered s ++ [rna s]) s)) as L.
  { exists [rna s]. cbn. rewrite R. auto. }
  destruct (render_opengl H (rna s)); [|exact L].
  destruct L as (new & E & F). exists new. auto.
Qed.

Lemma viewport_logged :
  triple ready (render_viewport H) (fun _ => logged) logged.
Proof.
  unfold render_viewport.
  eapply triple_bind with (R := fun _ => ready).
  - apply triple_gets. auto.
  - intros [vse scene].
    assert (triple ready
              (bind (setattr Attr.ffmpeg_audio_codec (JStr "AAC"))
                 (fun _ => bpy_ops_render_opengl H))
              (fun _ => logged) logged) as T.
    { apply triple_wp. intros s Hs. apply wp_bind. apply wp_setattr.
      - intros v' _ Hc. unfold accept in Hc. cbn [Attr.kind_of] in Hc.
        destruct (existsb _ _); [|discriminate Hc]. injection Hc as <-.
        cbn [host_store].
        apply (wp_triple ready (bpy_ops_render_opengl H)
                 (fun _ => logged) logged); auto using opengl_logged.
        destruct Hs as (R & S & F & St & O & C & Au).
        split; [exact R|]. unfold rendered_as_chosen. cbn [rna set_rna].
        split; [exact S|].
        split;
          [unfold format_attributes in *;
           destruct (quickpreview_output_format (options s0)); cbn;
           intuition auto|].
        split;
          [unfold stamp_attributes in *;
           destruct (quickpreview_burn_metadata (options s0)); cbn in *;
           [|exact St];
           destruct St as (F1 & F2 & F3); repeat split;
           [revert F1|revert F2|exact F3];
           rewrite !Forall_forall; intros Hin a Ha;
           (repeat (destruct Ha as [<-|Ha]; [apply Hin; cbn; tauto|]));
           destruct Ha|].
        split; [exact O|]. split; [exact C|reflexivity].
      - apply rendered_logged, Hs. }
    destruct vse; [exact T|]. destruct scene; [exact T|apply opengl_logged].
Qed.

Ltac logged_keeps :=
  keeps ltac:(unfold logged; intros; simpl;
              repeat match goal with
                     | |- context [if ?b then _ else _] => destruct b
                     end;
              simpl; auto).

Lemma finish_logged p : preserves logged (render_finish p).
Proof. logged_keeps. Qed.

Lemma finally_logged f settings :
  preserves logged (render_finally f settings).
Proof. logged_keeps. Qed.

Lemma body_logged : triple base (render_body H) (fun _ => logged) logged.
Proof.
  unfold render_body.
  eapply triple_bind; [apply prepare_formatted|].
  intros full_path. eapply triple_bind with (R := fun _ => formatted).
  { eapply triple_conseq; [apply frame_range_formatted| | |]; auto.
    intros s Hs. apply rendered_logged, Hs. }
  intros []. eapply triple_bind; [apply overrides_ready|].
  intros []. eapply triple_bind; [apply viewport_logged|].
  intros []. apply finish_logged.
Qed.

Lemma execute_logged :
  triple base (render_execute H) (fun _ => logged) logged.
Proof.
  assert (forall s, base s -> logged s) as BL
    by (intros s Hs; apply rendered_logged, Hs).
  unfold render_execute.
  eapply triple_bind with (R := fun _ => base); [apply triple_gets; auto|].
  intros saved. destruct saved; simpl.
  - eapply triple_bind with (R := fun _ => base).
    { eapply triple_conseq; [apply store_base| | |]; auto. }
    intros [backup_file original_settings].
    apply triple_try_finally with (Q' := fun _ => logged) (E' := logged).
    + apply triple_try_except with (E' := logged); [apply body_logged|].
      intros e. apply preserves_triple. logged_keeps.
    + intros a. apply finally_logged.
    + apply finally_logged.
  - eapply triple_conseq with (P' := base) (Q' := fun _ => base) (E' := base);
      auto.
    apply preserves_triple. keeps chosen_side.
Qed.

End Chosen.

(** X3.  Every viewport render that the render operator starts runs
    with the attributes that the options ask for: the simplify flag,
    the file format of the output format (with the JPEG quality, or
    the container, the H264 codec and the rate factor of the video
    quality), the metadata stamp of the burn-in option with its font
    size, the frame rate and the resolution scale where they are
    overridden, the chosen camera when it is an object of the file,
    and the AAC audio codec. *)
Theorem render_uses_chosen_options (H : Host) (s : State) :
  exists new,
    rendered (snd (render_execute H s)) = (rendered s ++ new)%list
    /\ Forall (rendered_as_chosen s) new.
Proof.
  pose proof (execute_logged H s s) as T.
  destruct (render_execute H s) as [[r|e] s']; apply T; repeat split.
Qed.

(** ** The backup and the scene *)


Section Backup.





Variable settings : Dict.t json.








End Backup.






(** ** What a render puts back *)


Section RenderRestores.

Variable H : Host.
Variable s0 : State.





End RenderRestores.


